(** * RadarLabeler: the annotation editing engine of [src/RadarLabeler.jsx]

    A shallow embedding of the coordinate transformer, the annotation store,
    the hit tester, the pointer / wheel / keyboard handlers, the project
    loader and the debounced save of the React component [RadarLabeler].

    JavaScript numbers are modelled as real numbers ([R]): arithmetic is
    exact, there is no rounding, no NaN and no infinity.  [Math.max],
    [Math.min], [Math.abs], [Math.hypot], [Math.cos], [Math.sin], [Math.exp]
    and [Math.PI] are [Rmax], [Rmin], [Rabs], [hypot], [cos], [sin], [exp] and
    [PI].  Array indices and the frame counter are integers ([Z], [nat]).

    The two methods of the coordinate transformer are given a second time
    over any arithmetic, and with it over binary64 itself ([PrimFloat]) and
    over the real numbers with a rounding after every operation: the law
    of their round trip is a statement about rounding errors. *)

From Stdlib Require Import PrimFloat Reals Lra Lia ZArith List Ascii String Bool.
Import ListNotations.

Open Scope R_scope.

(* ====================================================================== *)
(** * Numbers and comparisons *)
(* ====================================================================== *)

(** [a < b], [a <= b], [a >= b] and [a !== b] as the booleans JavaScript
    computes. *)
Definition Rltb (a b : R) : bool := if Rlt_dec a b then true else false.
Definition Rleb (a b : R) : bool := if Rle_dec a b then true else false.
Definition Rgeb (a b : R) : bool := Rleb b a.
Definition Rgtb (a b : R) : bool := Rltb b a.
Definition Reqb (a b : R) : bool := if Req_dec_T a b then true else false.

(** [Math.hypot(a, b)]. *)
Definition hypot (a b : R) : R := sqrt (a * a + b * b).

(* ====================================================================== *)
(** * Constants *)
(* ====================================================================== *)

Definition KEY_PAN_STEP : R := 40.
Definition DEFAULT_BBOX_SIZE : R := 80.
Definition MIN_BBOX_SIDE : R := 5.
Definition CLICK_DRAG_THRESHOLD : R := 5.
Definition ZOOM_MIN : R := 0.2.
Definition ZOOM_MAX : R := 32.
Definition ROTATION_MIN : R := -10.
Definition ROTATION_MAX : R := 10.
Definition SAVE_DEBOUNCE_MS : Z := 400.

Inductive Tool : Type :=
| TOOL_SELECT
| TOOL_PAN
| TOOL_BOAT_POINT
| TOOL_BOAT_BOX
| TOOL_BUOY_POINT
| TOOL_BUOY_BOX.

Inductive Label : Type := LABEL_BOAT | LABEL_BUOY.

(* ====================================================================== *)
(** * Coordinate transforms *)
(* ====================================================================== *)

(** A point [{ x, y }]. *)
Record Pt : Type := mkPt { px : R; py : R }.

(** The fields of [class CoordinateTransformer]. *)
Record CoordinateTransformer : Type := mkTransformer {
  ct_imgW : R;
  ct_imgH : R;
  ct_zoom : R;
  ct_panX : R;
  ct_panY : R;
  ct_rotationDeg : R;
  ct_rotated : bool
}.

(** The guard [this.rotated && this.rotationDeg !== 0]. *)
Definition rotationActive (t : CoordinateTransformer) : bool :=
  ct_rotated t && negb (Reqb (ct_rotationDeg t) 0).

(** [screenToImage(sx, sy)]: undo pan, undo zoom, undo the rotation about
    the image centre. *)
Definition screenToImage (t : CoordinateTransformer) (sx sy : R) : Pt :=
  let canvasCenterX := ct_imgW t / 2 in
  let canvasCenterY := ct_imgH t / 2 in
  let x := sx - ct_panX t in
  let y := sy - ct_panY t in
  let x := x / ct_zoom t in
  let y := y / ct_zoom t in
  let x := x - canvasCenterX in
  let y := y - canvasCenterY in
  let '(x, y) :=
    if rotationActive t then
      let rad := (- ct_rotationDeg t * PI) / 180 in
      let cos := cos rad in
      let sin := sin rad in
      let nx := x * cos - y * sin in
      let ny := x * sin + y * cos in
      (nx, ny)
    else (x, y) in
  let x := x + canvasCenterX in
  let y := y + canvasCenterY in
  mkPt x y.

(** [imageToScreen(ix, iy)]: rotate about the image centre, zoom, pan. *)
Definition imageToScreen (t : CoordinateTransformer) (ix iy : R) : Pt :=
  let canvasCenterX := ct_imgW t / 2 in
  let canvasCenterY := ct_imgH t / 2 in
  let x := ix - canvasCenterX in
  let y := iy - canvasCenterY in
  let '(x, y) :=
    if rotationActive t then
      let rad := (ct_rotationDeg t * PI) / 180 in
      let cos := cos rad in
      let sin := sin rad in
      let nx := x * cos - y * sin in
      let ny := x * sin + y * cos in
      (nx, ny)
    else (x, y) in
  let x := x + canvasCenterX in
  let y := y + canvasCenterY in
  let x := x * ct_zoom t in
  let y := y * ct_zoom t in
  let x := x + ct_panX t in
  let y := y + ct_panY t in
  mkPt x y.

(** ** The transformer over any arithmetic

    The numbers of the program are binary64 floating-point numbers, and
    every operation on them rounds.  To say what that does to the two
    methods, they are given once more over any arithmetic [A] of numbers
    [N]: the statements are those of the methods, in their order, with the
    operations of [A].  Three arithmetics follow: the exact one, on which
    the definitions above are these ones; binary64 itself, on which the
    methods can be run; and the real numbers with a rounding after every
    operation, on which the error of the methods can be bounded. *)
Record Arithmetic (N : Type) : Type := mkArithmetic {
  num_add : N -> N -> N;
  num_sub : N -> N -> N;
  num_mul : N -> N -> N;
  num_div : N -> N -> N;
  num_neg : N -> N;
  num_cos : N -> N;
  num_sin : N -> N;
  num_PI : N;
  num_2 : N;
  num_180 : N;
  num_is_zero : N -> bool
}.
Arguments num_add {N} _ _ _.
Arguments num_sub {N} _ _ _.
Arguments num_mul {N} _ _ _.
Arguments num_div {N} _ _ _.
Arguments num_neg {N} _ _.
Arguments num_cos {N} _ _.
Arguments num_sin {N} _ _.
Arguments num_PI {N} _.
Arguments num_2 {N} _.
Arguments num_180 {N} _.
Arguments num_is_zero {N} _ _.

(** The fields of [class CoordinateTransformer], over [N]. *)
Record TransformerOf (N : Type) : Type := mkTransformerOf {
  tf_imgW : N;
  tf_imgH : N;
  tf_zoom : N;
  tf_panX : N;
  tf_panY : N;
  tf_rotationDeg : N;
  tf_rotated : bool
}.
Arguments mkTransformerOf {N} _ _ _ _ _ _ _.
Arguments tf_imgW {N} _.
Arguments tf_imgH {N} _.
Arguments tf_zoom {N} _.
Arguments tf_panX {N} _.
Arguments tf_panY {N} _.
Arguments tf_rotationDeg {N} _.
Arguments tf_rotated {N} _.

Section AnyArithmetic.

Variable N : Type.
Variable A : Arithmetic N.

Local Notation "a [+] b" := (num_add A a b) (at level 50, left associativity).
Local Notation "a [-] b" := (num_sub A a b) (at level 50, left associativity).
Local Notation "a [*] b" := (num_mul A a b) (at level 40, left associativity).
Local Notation "a [/] b" := (num_div A a b) (at level 40, left associativity).

(** [this.rotated && this.rotationDeg !== 0]. *)
Definition rotationActiveIn (t : TransformerOf N) : bool :=
  tf_rotated t && negb (num_is_zero A (tf_rotationDeg t)).

(** [screenToImage(sx, sy)]. *)
Definition screenToImageIn (t : TransformerOf N) (sx sy : N) : N * N :=
  let canvasCenterX := tf_imgW t [/] num_2 A in
  let canvasCenterY := tf_imgH t [/] num_2 A in
  let x := sx [-] tf_panX t in
  let y := sy [-] tf_panY t in
  let x := x [/] tf_zoom t in
  let y := y [/] tf_zoom t in
  let x := x [-] canvasCenterX in
  let y := y [-] canvasCenterY in
  let '(x, y) :=
    if rotationActiveIn t then
      let rad := (num_neg A (tf_rotationDeg t) [*] num_PI A) [/] num_180 A in
      let cos := num_cos A rad in
      let sin := num_sin A rad in
      let nx := x [*] cos [-] y [*] sin in
      let ny := x [*] sin [+] y [*] cos in
      (nx, ny)
    else (x, y) in
  let x := x [+] canvasCenterX in
  let y := y [+] canvasCenterY in
  (x, y).

(** [imageToScreen(ix, iy)]. *)
Definition imageToScreenIn (t : TransformerOf N) (ix iy : N) : N * N :=
  let canvasCenterX := tf_imgW t [/] num_2 A in
  let canvasCenterY := tf_imgH t [/] num_2 A in
  let x := ix [-] canvasCenterX in
  let y := iy [-] canvasCenterY in
  let '(x, y) :=
    if rotationActiveIn t then
      let rad := (tf_rotationDeg t [*] num_PI A) [/] num_180 A in
      let cos := num_cos A rad in
      let sin := num_sin A rad in
      let nx := x [*] cos [-] y [*] sin in
      let ny := x [*] sin [+] y [*] cos in
      (nx, ny)
    else (x, y) in
  let x := x [+] canvasCenterX in
  let y := y [+] canvasCenterY in
  let x := x [*] tf_zoom t in
  let y := y [*] tf_zoom t in
  let x := x [+] tf_panX t in
  let y := y [+] tf_panY t in
  (x, y).

(** [screenToImage] applied to the result of [imageToScreen]. *)
Definition roundTripIn (t : TransformerOf N) (ix iy : N) : N * N :=
  let s := imageToScreenIn t ix iy in
  screenToImageIn t (fst s) (snd s).

End AnyArithmetic.

Arguments rotationActiveIn {N} A t.
Arguments screenToImageIn {N} A t sx sy.
Arguments imageToScreenIn {N} A t ix iy.
Arguments roundTripIn {N} A t ix iy.

(** The exact arithmetic of the real numbers. *)
Definition exactReals : Arithmetic R :=
  mkArithmetic R Rplus Rminus Rmult Rdiv Ropp cos sin PI 2 180
               (fun x => Reqb x 0).

Definition transformerOf (t : CoordinateTransformer) : TransformerOf R :=
  mkTransformerOf (ct_imgW t) (ct_imgH t) (ct_zoom t) (ct_panX t) (ct_panY t)
                  (ct_rotationDeg t) (ct_rotated t).

(** Binary64, the numbers of JavaScript: the operations of IEEE 754, the
    double [Math.PI], and [x !== 0] by the comparison of IEEE 754.
    [Math.cos] and [Math.sin] are the host's, and ECMAScript leaves their
    precision to it. *)
Definition binary64 (cosF sinF : float -> float) : Arithmetic float :=
  mkArithmetic float PrimFloat.add PrimFloat.sub PrimFloat.mul PrimFloat.div
               PrimFloat.opp cosF sinF 0x1.921fb54442d18p+1%float
               2%float 180%float (fun x => PrimFloat.eqb x 0%float).

(** The real numbers with every result rounded by [rnd]: the operations
    round, a negation is exact, [Math.PI] is the rounding of [PI], and
    [Math.cos] and [Math.sin] are [cosF] and [sinF]. *)
Definition roundedReals (rnd cosF sinF : R -> R) : Arithmetic R :=
  mkArithmetic R (fun a b => rnd (a + b)) (fun a b => rnd (a - b))
               (fun a b => rnd (a * b)) (fun a b => rnd (a / b))
               Ropp cosF sinF (rnd PI) 2 180 (fun x => Reqb x 0).

(** Half the distance between 1 and the next binary64 number. *)
Definition unit_roundoff : R := / 2 ^ 53.

(** A bound on the rounding error of the numbers too small to be normal.
    Half the smallest positive binary64 number, [2 ^ -1075], is the exact
    one; any larger bound serves. *)
Definition eta : R := unit_roundoff * unit_roundoff.

(** What IEEE 754 guarantees of rounding to nearest, away from overflow:
    the result is within half a unit in the last place of the exact value,
    that is within [unit_roundoff * |x|] for a normal result and within
    [2 ^ -1075] otherwise. *)
Definition roundsToNearest (rnd : R -> R) : Prop :=
  forall x, Rabs x <= 1e30 ->
            Rabs (rnd x - x) <= unit_roundoff * Rabs x + eta.

(** [f] is within [eps] of [g] on [[-1, 1]]. *)
Definition accurateTo (eps : R) (f g : R -> R) : Prop :=
  forall x, Rabs x <= 1 -> Rabs (f x - g x) <= eps.

(** The computed value [v'] is within [e] of the exact value [v], and [v]
    is at most [M] in absolute value. *)
Definition near (M e v' v : R) : Prop :=
  Rabs v <= M /\ Rabs (v' - v) <= e.

(** The transformers of the round-trip law, with sizes, pans and points
    that a screen can hold: image sides up to [1e5], zoom in
    [[0.2, 32]], pans up to [1e7] in absolute value, rotation in
    [[-10, 10]]. *)
Definition inRoundTripRange (t : CoordinateTransformer) : Prop :=
  0 <= ct_imgW t <= 1e5 /\ 0 <= ct_imgH t <= 1e5 /\
  0.2 <= ct_zoom t <= 32 /\
  Rabs (ct_panX t) <= 1e7 /\ Rabs (ct_panY t) <= 1e7 /\
  -10 <= ct_rotationDeg t <= 10.

#[local] Set Warnings "-inexact-float".

(** A [Math.cos] or [Math.sin] for the runs that do not call it. *)
Definition notCalled : float -> float := fun _ => nan.

(** A 640 x 480 image at zoom 0.2, panned by [1e12] to the right, with the
    rotation enabled and of 0 degrees. *)
Definition farPanned : TransformerOf float :=
  mkTransformerOf 640%float 480%float 0.2%float 1e12%float 0%float 0%float true.

#[local] Set Warnings "+inexact-float".

(* ====================================================================== *)
(** * Data model *)
(* ====================================================================== *)

(** The [type] tag of an annotation object with the fields only that
    variant carries: a point has no [w] and [h]. *)
Inductive AnnotationType : Type :=
| ANNOTATION_POINT
| ANNOTATION_BBOX (w h : R).

Record Annotation : Type := mkAnnotation {
  ann_id : string;
  ann_type : AnnotationType;
  ann_label : Label;
  ann_x : R;
  ann_y : R
}.

(** What [FileIOManager.loadSingleImage] resolves to. *)
Record ImageData : Type := mkImageData {
  img_name : string;
  img_url : string;
  img_width : R;
  img_height : R
}.

Record Frame : Type := mkFrame {
  name : string;
  url : string;
  width : R;
  height : R;
  rotationDeg : R;
  annotations : list Annotation
}.

Record Viewport : Type := mkViewport {
  zoom : R;
  panX : R;
  panY : R
}.

Record Project : Type := mkProject {
  version : Z;
  createdAt : string;
  viewport : Viewport;
  currentIndex : Z;
  frames : list Frame;
  globalBuoys : list Annotation
}.

(** [createDefaultProject()]; the clock reading [new Date().toISOString()]
    is an input. *)
Definition createDefaultProject (nowIso : string) : Project :=
  {| version := 1;
     createdAt := nowIso;
     viewport := mkViewport 1 0 0;
     currentIndex := 0;
     frames := [];
     globalBuoys := [] |}.

(** [createAnnotation(type, label, x, y, w = 0, h = 0)]; the random
    identifier of [generateId()] is an input.  [w] and [h] are stored only
    for a box, which is what the tag carries. *)
Definition createAnnotation (newId : string) (type : AnnotationType)
    (label : Label) (x y : R) : Annotation :=
  {| ann_id := newId; ann_type := type; ann_label := label;
     ann_x := x; ann_y := y |}.

(** [project.frames[project.currentIndex]]: [undefined] out of range. *)
Definition frameAt (p : Project) (i : Z) : option Frame :=
  if (i <? 0)%Z then None else nth_error (frames p) (Z.to_nat i).

Definition currentFrame (p : Project) : option Frame :=
  frameAt p (currentIndex p).

(** Object spread with one field replaced: [{ ...proj, frames }],
    [{ ...proj, currentIndex }], [{ ...proj, viewport }],
    [{ ...proj, globalBuoys }], [{ ...frame, annotations }],
    [{ ...frame, rotationDeg }]. *)
Definition withFrames (p : Project) (fs : list Frame) : Project :=
  {| version := version p; createdAt := createdAt p; viewport := viewport p;
     currentIndex := currentIndex p; frames := fs;
     globalBuoys := globalBuoys p |}.

Definition withCurrentIndex (p : Project) (i : Z) : Project :=
  {| version := version p; createdAt := createdAt p; viewport := viewport p;
     currentIndex := i; frames := frames p; globalBuoys := globalBuoys p |}.

Definition withViewport (p : Project) (v : Viewport) : Project :=
  {| version := version p; createdAt := createdAt p; viewport := v;
     currentIndex := currentIndex p; frames := frames p;
     globalBuoys := globalBuoys p |}.

Definition withGlobalBuoys (p : Project) (bs : list Annotation) : Project :=
  {| version := version p; createdAt := createdAt p; viewport := viewport p;
     currentIndex := currentIndex p; frames := frames p; globalBuoys := bs |}.

Definition withAnnotations (f : Frame) (anns : list Annotation) : Frame :=
  {| name := name f; url := url f; width := width f; height := height f;
     rotationDeg := rotationDeg f; annotations := anns |}.

Definition withRotationDeg (f : Frame) (r : R) : Frame :=
  {| name := name f; url := url f; width := width f; height := height f;
     rotationDeg := r; annotations := annotations f |}.

(** [const copy = [...arr]; copy[i] = f(copy[i])] for an index inside the
    array.  Every caller passes [project.currentIndex] while [currentFrame] is
    defined, so the index is in range; outside it JavaScript would grow the
    array with an object that has none of the other fields, a value the
    typed lists here do not hold, and the list is returned as it is. *)
Fixpoint updateNth {A : Type} (l : list A) (i : nat) (f : A -> A) : list A :=
  match l, i with
  | [], _ => []
  | a :: l', O => f a :: l'
  | a :: l', S j => a :: updateNth l' j f
  end.

Definition updateAt {A : Type} (l : list A) (i : Z) (f : A -> A) : list A :=
  if (i <? 0)%Z then l else updateNth l (Z.to_nat i) f.

(** [arr.findIndex(pred)], [None] for [-1]. *)
Fixpoint findIndex {A : Type} (pred : A -> bool) (l : list A) : option nat :=
  match l with
  | [] => None
  | a :: l' =>
      if pred a then Some O
      else match findIndex pred l' with
           | Some i => Some (S i)
           | None => None
           end
  end.

(* ====================================================================== *)
(** * Component state *)
(* ====================================================================== *)

(** The [type] of a selection or hit: ['frame'] or ['global']. *)
Inductive Space : Type := SpaceFrame | SpaceGlobal.

(** [{ type, id, index }]. *)
Record Hit : Type := mkHit {
  hit_type : Space;
  hit_id : string;
  hit_index : nat
}.

(** The eight handle names of [getHandleAtPoint]. *)
Inductive HandleName : Type :=
| H_nw | H_n | H_ne | H_w | H_e | H_sw | H_s | H_se.

(** [dragStart]: [{ x, y }] for the pan and drawing tools,
    [{ x, y, handle, hit }] for the select tool. *)
Record DragStart : Type := mkDragStart {
  ds_x : R;
  ds_y : R;
  ds_handle : option HandleName;
  ds_hit : option Hit
}.

(** The messages passed to [setStatus] by the modelled handlers. *)
Inductive Status : Type :=
| StatusReady
| StatusImageLoaded
| StatusLoadedImages (count : nat)
| StatusNoCompatibleImagesFound
| StatusNoImagesInFolder
| StatusNoCompatibleImagesInFolder
| StatusFailedToLoadImage (message : string)
| StatusFailedToLoadImages (message : string)
| StatusLoadedProject (count : nat)
| StatusInvalidProjectFileFormat
| StatusFailedToLoadProject (message : string)
| StatusProjectSelectionCancelled
| StatusFileSelectionCancelled
| StatusFolderSelectionCancelled
| StatusFramesSorted
| StatusSaving
| StatusBackupDownloaded
| StatusSaved (time : string)
| StatusSaveFailed (time : string)
| StatusRestored.

(** The [useState] cells of the component that its handlers read
    ([lastSaveTime] and [showFrameList] are only displayed). *)
Record AppState : Type := mkAppState {
  project : Project;
  tool : Tool;
  selection : option Hit;
  hoveredId : option string;
  isDragging : bool;
  dragStart : option DragStart;
  dragCurrent : option Pt;
  status : Status
}.

(** A timer of the host, started by [setTimeout]: its identifier, the time
    (in ms) at which it is due, and the project its callback saves. *)
Record Timer : Type := mkTimer {
  timer_id : nat;
  timer_due : Z;
  timer_proj : Project
}.

(** The mutable cells outside React state and the host around them:
    [saveTimeoutRef.current], the pending timers of the host and its next
    timer identifier (identifiers are positive, hence truthy), the clock,
    [fileIORef.current.fileHandle], the [radar_project_backup] entry of
    [localStorage], the file behind the handle, and the log of the projects
    the timer callback has saved, oldest first. *)
Record Env : Type := mkEnv {
  saveTimeoutRef : option nat;
  timers : list Timer;
  nextTimerId : nat;
  clock : Z;
  fileHandle : bool;
  localStorageBackup : option Project;
  liveFile : option Project;
  saveLog : list Project
}.

Record World : Type := mkWorld {
  ui : AppState;
  env : Env
}.

(** ** Event handlers

    A callback of the component reads the state cells of the render that
    created it (its closure, the snapshot), queues writes to the state cells
    with the [set...] functions (the last write to a cell wins), reads and
    writes the mutable cells at once, and may throw.  [None] is an uncaught
    exception. *)
Definition Handler (A : Type) : Type := AppState -> World -> option (A * World).

Definition ret {A : Type} (a : A) : Handler A :=
  fun _ w => Some (a, w).

Definition bind {A B : Type} (m : Handler A) (k : A -> Handler B) : Handler B :=
  fun snap w =>
    match m snap w with
    | Some (a, w') => k a snap w'
    | None => None
    end.

Declare Scope handler_scope.
Delimit Scope handler_scope with handler.
Notation "x <- m ;; k" := (bind m (fun x => k))
  (at level 61, m at next level, right associativity) : handler_scope.
Notation "m ;; k" := (bind m (fun _ => k))
  (at level 61, right associativity) : handler_scope.

(** Reading a cell of the closure. *)
Definition closure {A : Type} (get : AppState -> A) : Handler A :=
  fun snap w => Some (get snap, w).

(** [throw]: an uncaught [TypeError]. *)
Definition throw {A : Type} : Handler A := fun _ _ => None.

Definition getEnv : Handler Env := fun _ w => Some (env w, w).
Definition putEnv (e : Env) : Handler unit :=
  fun _ w => Some (tt, mkWorld (ui w) e).

Definition setUi (f : AppState -> AppState) : Handler unit :=
  fun _ w => Some (tt, mkWorld (f (ui w)) (env w)).

Definition setProject (p : Project) : Handler unit :=
  setUi (fun s => mkAppState p (tool s) (selection s) (hoveredId s)
                    (isDragging s) (dragStart s) (dragCurrent s) (status s)).
Definition setTool (f : Tool -> Tool) : Handler unit :=
  setUi (fun s => mkAppState (project s) (f (tool s)) (selection s)
                    (hoveredId s) (isDragging s) (dragStart s) (dragCurrent s)
                    (status s)).
Definition setSelection (sel : option Hit) : Handler unit :=
  setUi (fun s => mkAppState (project s) (tool s) sel (hoveredId s)
                    (isDragging s) (dragStart s) (dragCurrent s) (status s)).
Definition setHoveredId (h : option string) : Handler unit :=
  setUi (fun s => mkAppState (project s) (tool s) (selection s) h
                    (isDragging s) (dragStart s) (dragCurrent s) (status s)).
Definition setIsDragging (b : bool) : Handler unit :=
  setUi (fun s => mkAppState (project s) (tool s) (selection s) (hoveredId s)
                    b (dragStart s) (dragCurrent s) (status s)).
Definition setDragStart (d : option DragStart) : Handler unit :=
  setUi (fun s => mkAppState (project s) (tool s) (selection s) (hoveredId s)
                    (isDragging s) d (dragCurrent s) (status s)).
Definition setDragCurrent (d : option Pt) : Handler unit :=
  setUi (fun s => mkAppState (project s) (tool s) (selection s) (hoveredId s)
                    (isDragging s) (dragStart s) d (status s)).
Definition setStatus (st : Status) : Handler unit :=
  setUi (fun s => mkAppState (project s) (tool s) (selection s) (hoveredId s)
                    (isDragging s) (dragStart s) (dragCurrent s) st).

(** Running a handler on an event: its closure holds the cells of the
    last render, which are the current ones.  An exception that escapes the
    handler leaves the world as it was before the event: where the handlers
    below can throw, they have written nothing yet ([handleCanvasMouseDown]
    writes the selection before it reads the annotation of the hit, which
    is always there). *)
Definition runHandler (h : Handler unit) (w : World) : World :=
  match h (ui w) w with
  | Some (_, w') => w'
  | None => w
  end.

(** An [async] handler.  It is called in the world [w0], and its closure
    holds the state cells of that render for good.  What follows its last
    [await] runs later, in the world [w] that the events in between have
    produced: the reads of the closure still see [w0], the writes go to
    [w].  [runHandler h w] is [runAsync h w w]: nothing happened in
    between. *)
Definition runAsync (h : Handler unit) (w0 w : World) : World :=
  match h (ui w0) w with
  | Some (_, w') => w'
  | None => w
  end.

(* ====================================================================== *)
(** * Auto-save *)
(* ====================================================================== *)

(** [clearTimeout(id)]: the host forgets the timer; nothing happens for an
    identifier that is not pending. *)
Definition clearTimeout (id : nat) (e : Env) : Env :=
  mkEnv (saveTimeoutRef e)
        (filter (fun t => negb (Nat.eqb (timer_id t) id)) (timers e))
        (nextTimerId e) (clock e) (fileHandle e) (localStorageBackup e)
        (liveFile e) (saveLog e).

(** [setTimeout(callback, delay)] where the callback saves [proj]: a new
    pending timer, due [delay] ms from now; returns its identifier. *)
Definition setTimeout (proj : Project) (delay : Z) (e : Env) : nat * Env :=
  (nextTimerId e,
   mkEnv (saveTimeoutRef e)
         (timers e ++ [mkTimer (nextTimerId e) (clock e + delay)%Z proj])
         (S (nextTimerId e)) (clock e) (fileHandle e) (localStorageBackup e)
         (liveFile e) (saveLog e)).

Definition setSaveTimeoutRef (r : option nat) (e : Env) : Env :=
  mkEnv r (timers e) (nextTimerId e) (clock e) (fileHandle e)
        (localStorageBackup e) (liveFile e) (saveLog e).

(** [triggerSave(proj)]. *)
Definition triggerSave (proj : Project) : Handler unit :=
  (e <- getEnv ;;
   let e1 := match saveTimeoutRef e with
             | Some id => clearTimeout id e
             | None => e
             end in
   let '(id, e2) := setTimeout proj SAVE_DEBOUNCE_MS e1 in
   putEnv (setSaveTimeoutRef (Some id) e2))%handler.

(** What the host decides when the timer callback runs: whether
    [localStorage.setItem] returns or throws (a full or disabled store),
    whether the write through the file handle succeeds, and
    [new Date().toLocaleTimeString()]. *)
Record SaveHost : Type := mkSaveHost {
  setItemOk : bool;
  liveWriteOk : bool;
  timeString : string
}.

(** The callback passed to [setTimeout]: [saveToLocalStorage(proj)], whose
    [try]/[catch] swallows a throwing [setItem] and whose result is not
    looked at, then [liveWrite(proj)], then the status line.  The log
    records every run of the callback. *)
Definition saveCallback (host : SaveHost) (proj : Project) (w : World) : World :=
  let e := env w in
  let ok := fileHandle e && liveWriteOk host in
  let e' := mkEnv (saveTimeoutRef e) (timers e) (nextTimerId e) (clock e)
                  (fileHandle e)
                  (if setItemOk host then Some proj else localStorageBackup e)
                  (if ok then Some proj else liveFile e)
                  (saveLog e ++ [proj]) in
  let s := ui w in
  let st := if negb ok && fileHandle e
            then StatusSaveFailed (timeString host)
            else StatusSaved (timeString host) in
  mkWorld (mkAppState (project s) (tool s) (selection s) (hoveredId s)
                      (isDragging s) (dragStart s) (dragCurrent s) st) e'.

Definition dropTimer (id : nat) (w : World) : World :=
  mkWorld (ui w) (clearTimeout id (env w)).

(** The host runs, oldest first, the callbacks of the timers of [ts] that
    are due at the clock's time. *)
Fixpoint fireDue (host : SaveHost) (ts : list Timer) (w : World) : World :=
  match ts with
  | [] => w
  | t :: ts' =>
      if (timer_due t <=? clock (env w))%Z
      then fireDue host ts' (saveCallback host (timer_proj t) (dropTimer (timer_id t) w))
      else fireDue host ts' w
  end.

Definition setClock (t : Z) (w : World) : World :=
  let e := env w in
  mkWorld (ui w)
          (mkEnv (saveTimeoutRef e) (timers e) (nextTimerId e) t (fileHandle e)
                 (localStorageBackup e) (liveFile e) (saveLog e)).

(** Time passes until [t]: the clock moves (never backwards) and the timers
    that have become due fire. *)
Definition advanceTo (host : SaveHost) (t : Z) (w : World) : World :=
  let w' := setClock (Z.max t (clock (env w))) w in
  fireDue host (timers (env w')) w'.

(* ====================================================================== *)
(** * Project updates *)
(* ====================================================================== *)

(** [updateProject(updater)]: the updater is applied to the [project] of the
    closure, not to the latest queued one. *)
Definition updateProject (updater : Project -> Project) : Handler unit :=
  (proj <- closure project ;;
   let newProj := updater proj in
   setProject newProj ;;
   triggerSave newProj)%handler.

Definition updateFrameAnnotations (frameIndex : Z) (anns : list Annotation)
  : Handler unit :=
  updateProject (fun proj =>
    let newFrames := updateAt (frames proj) frameIndex
                              (fun f => withAnnotations f anns) in
    withFrames proj newFrames).

Definition updateGlobalBuoys (buoys : list Annotation) : Handler unit :=
  updateProject (fun proj => withGlobalBuoys proj buoys).

Definition updateViewport (zoom panX panY : R) : Handler unit :=
  updateProject (fun proj => withViewport proj (mkViewport zoom panX panY)).

Definition updateFrameRotation (frameIndex : Z) (rotationDeg : R)
  : Handler unit :=
  updateProject (fun proj =>
    let newFrames := updateAt (frames proj) frameIndex
                              (fun f => withRotationDeg f rotationDeg) in
    withFrames proj newFrames).

(** ** Navigation *)

(** [goToFrame(index)]. *)
Definition goToFrame (index : Z) : Handler unit :=
  (proj <- closure project ;;
   if (0 <=? index)%Z && (index <? Z.of_nat (List.length (frames proj)))%Z
   then updateProject (fun proj => withCurrentIndex proj index) ;;
        setSelection None
   else ret tt)%handler.

(** ** Annotation editing *)

(** [isGlobal ? project.globalBuoys : currentFrame?.annotations || []]. *)
Definition annotationsOf (proj : Project) (isGlobal : bool) : list Annotation :=
  if isGlobal then globalBuoys proj
  else match currentFrame proj with
       | Some f => annotations f
       | None => []
       end.

Definition hasId (id : string) (a : Annotation) : bool :=
  String.eqb (ann_id a) id.

(** [deleteAnnotation()]. *)
Definition deleteAnnotation : Handler unit :=
  (sel <- closure selection ;;
   proj <- closure project ;;
   match sel with
   | None => ret tt
   | Some sel =>
       match hit_type sel, currentFrame proj with
       | SpaceFrame, Some f =>
           let newAnns := filter (fun a => negb (hasId (hit_id sel) a))
                                 (annotations f) in
           updateFrameAnnotations (currentIndex proj) newAnns ;;
           setSelection None
       | SpaceFrame, None => ret tt
       | SpaceGlobal, _ =>
           let newBuoys := filter (fun b => negb (hasId (hit_id sel) b))
                                  (globalBuoys proj) in
           updateGlobalBuoys newBuoys ;;
           setSelection None
       end
   end)%handler.

(** The write that ends [moveAnnotation] and [resizeAnnotation]. *)
Definition storeAnnotations (isGlobal : bool) (newAnns : list Annotation)
  : Handler unit :=
  (proj <- closure project ;;
   if isGlobal then updateGlobalBuoys newAnns
   else updateFrameAnnotations (currentIndex proj) newAnns)%handler.

Definition movedBy (dx dy : R) (a : Annotation) : Annotation :=
  mkAnnotation (ann_id a) (ann_type a) (ann_label a)
               (ann_x a + dx) (ann_y a + dy).

(** [moveAnnotation(id, dx, dy, isGlobal)]. *)
Definition moveAnnotation (id : string) (dx dy : R) (isGlobal : bool)
  : Handler unit :=
  (proj <- closure project ;;
   let anns := annotationsOf proj isGlobal in
   match findIndex (hasId id) anns with
   | None => ret tt
   | Some idx =>
       let newAnns := updateNth anns idx (movedBy dx dy) in
       storeAnnotations isGlobal newAnns
   end)%handler.

Definition resizedBy (dw dh : R) (a : Annotation) : Annotation :=
  match ann_type a with
  | ANNOTATION_BBOX w h =>
      mkAnnotation (ann_id a)
                   (ANNOTATION_BBOX (Rmax MIN_BBOX_SIDE (w + dw))
                                    (Rmax MIN_BBOX_SIDE (h + dh)))
                   (ann_label a) (ann_x a) (ann_y a)
  | ANNOTATION_POINT => a
  end.

Definition isBBox (a : Annotation) : bool :=
  match ann_type a with
  | ANNOTATION_BBOX _ _ => true
  | ANNOTATION_POINT => false
  end.

(** [resizeAnnotation(id, dw, dh, isGlobal)]. *)
Definition resizeAnnotation (id : string) (dw dh : R) (isGlobal : bool)
  : Handler unit :=
  (proj <- closure project ;;
   let anns := annotationsOf proj isGlobal in
   match findIndex (hasId id) anns with
   | None => ret tt
   | Some idx =>
       match nth_error anns idx with
       | Some a =>
           if isBBox a
           then let newAnns := updateNth anns idx (resizedBy dw dh) in
                storeAnnotations isGlobal newAnns
           else ret tt
       | None => ret tt
       end
   end)%handler.

(* ====================================================================== *)
(** * Hit testing *)
(* ====================================================================== *)

(** The test in the body of both loops of [getAnnotationAtPoint]: a point
    annotation by [Math.hypot(ann.x - imgX, ann.y - imgY) < 10], a box by
    [imgX >= ann.x && imgX < ann.x + ann.w && imgY >= ann.y &&
    imgY < ann.y + ann.h]. *)
Definition hitsAnnotation (ann : Annotation) (imgX imgY : R) : bool :=
  match ann_type ann with
  | ANNOTATION_POINT =>
      let dist := hypot (ann_x ann - imgX) (ann_y ann - imgY) in
      Rltb dist 10
  | ANNOTATION_BBOX w h =>
      Rgeb imgX (ann_x ann) && Rltb imgX (ann_x ann + w)
      && Rgeb imgY (ann_y ann) && Rltb imgY (ann_y ann + h)
  end.

(** [for (let i = anns.length - 1; i >= 0; i--)] with [n] iterations left:
    the next index visited is [n - 1]. *)
Fixpoint scanAnnotations (space : Space) (anns : list Annotation)
    (imgX imgY : R) (n : nat) : option Hit :=
  match n with
  | O => None
  | S i =>
      match nth_error anns i with
      | Some ann =>
          if hitsAnnotation ann imgX imgY
          then Some (mkHit space (ann_id ann) i)
          else scanAnnotations space anns imgX imgY i
      | None => scanAnnotations space anns imgX imgY i
      end
  end.

(** The transformer of the frame-rotated space (boats). *)
Definition frameTransformer (p : Project) (f : Frame) : CoordinateTransformer :=
  mkTransformer (width f) (height f) (zoom (viewport p)) (panX (viewport p))
                (panY (viewport p)) (rotationDeg f) true.

(** The transformer of the non-rotated space (buoys). *)
Definition buoyTransformer (p : Project) (f : Frame) : CoordinateTransformer :=
  mkTransformer (width f) (height f) (zoom (viewport p)) (panX (viewport p))
                (panY (viewport p)) 0 false.

(** [new CoordinateTransformer(..., isGlobal ? 0 : currentFrame.rotationDeg,
    !isGlobal)]. *)
Definition spaceTransformer (p : Project) (f : Frame) (isGlobal : bool)
  : CoordinateTransformer :=
  mkTransformer (width f) (height f) (zoom (viewport p)) (panX (viewport p))
                (panY (viewport p)) (if isGlobal then 0 else rotationDeg f)
                (negb isGlobal).

(** [getAnnotationAtPoint(screenX, screenY)]. *)
Definition getAnnotationAtPoint (p : Project) (screenX screenY : R)
  : option Hit :=
  match currentFrame p with
  | None => None
  | Some f =>
      let trans := frameTransformer p f in
      let img := screenToImage trans screenX screenY in
      match scanAnnotations SpaceFrame (annotations f) (px img) (py img)
                            (List.length (annotations f)) with
      | Some hit => Some hit
      | None =>
          let transBuoy := buoyTransformer p f in
          let buoy := screenToImage transBuoy screenX screenY in
          scanAnnotations SpaceGlobal (globalBuoys p) (px buoy) (py buoy)
                          (List.length (globalBuoys p))
      end
  end.

(** [for (const h of handles) if (dist < handleSize * 1.5) return h.name]. *)
Fixpoint firstHandle (handles : list (HandleName * R * R))
    (screenX screenY handleSize : R) : option HandleName :=
  match handles with
  | [] => None
  | (hname, hsx, hsy) :: rest =>
      let dist := hypot (hsx - screenX) (hsy - screenY) in
      if Rltb dist (handleSize * 1.5) then Some hname
      else firstHandle rest screenX screenY handleSize
  end.

(** [getHandleAtPoint(screenX, screenY, ann, isGlobal)], called while
    [currentFrame] is [f]. *)
Definition getHandleAtPoint (p : Project) (f : Frame) (screenX screenY : R)
    (ann : Annotation) (isGlobal : bool) : option HandleName :=
  match ann_type ann with
  | ANNOTATION_POINT => None
  | ANNOTATION_BBOX w h =>
      let trans := spaceTransformer p f isGlobal in
      let handleSize := 8 / zoom (viewport p) in
      let s1 := imageToScreen trans (ann_x ann) (ann_y ann) in
      let s2 := imageToScreen trans (ann_x ann + w) (ann_y ann + h) in
      let sx1 := px s1 in let sy1 := py s1 in
      let sx2 := px s2 in let sy2 := py s2 in
      let handles :=
        [ (H_nw, sx1, sy1);
          (H_n, (sx1 + sx2) / 2, sy1);
          (H_ne, sx2, sy1);
          (H_w, sx1, (sy1 + sy2) / 2);
          (H_e, sx2, (sy1 + sy2) / 2);
          (H_sw, sx1, sy2);
          (H_s, (sx1 + sx2) / 2, sy2);
          (H_se, sx2, sy2) ] in
      firstHandle handles screenX screenY handleSize
  end.

(* ====================================================================== *)
(** * Mouse events *)
(* ====================================================================== *)

Definition isDrawingTool (t : Tool) : bool :=
  match t with
  | TOOL_BOAT_POINT | TOOL_BOAT_BOX | TOOL_BUOY_POINT | TOOL_BUOY_BOX => true
  | TOOL_SELECT | TOOL_PAN => false
  end.

Definition isGlobalSpace (s : Space) : bool :=
  match s with SpaceGlobal => true | SpaceFrame => false end.

(** [hit.type === 'global' ? project.globalBuoys[hit.index]
    : currentFrame.annotations[hit.index]]. *)
Definition annotationOfHit (p : Project) (f : Frame) (hit : Hit)
  : option Annotation :=
  if isGlobalSpace (hit_type hit)
  then nth_error (globalBuoys p) (hit_index hit)
  else nth_error (annotations f) (hit_index hit).

(** [handleCanvasMouseDown(e)], at the canvas position [(screenX, screenY)]. *)
Definition handleCanvasMouseDown (screenX screenY : R) : Handler unit :=
  (proj <- closure project ;;
   tl <- closure tool ;;
   match currentFrame proj with
   | None => ret tt
   | Some f =>
       match tl with
       | TOOL_PAN =>
           setIsDragging true ;;
           setDragStart (Some (mkDragStart screenX screenY None None))
       | TOOL_SELECT =>
           match getAnnotationAtPoint proj screenX screenY with
           | Some hit =>
               setSelection (Some hit) ;;
               match annotationOfHit proj f hit with
               | None => throw
               | Some ann =>
                   let handle := getHandleAtPoint proj f screenX screenY ann
                                   (isGlobalSpace (hit_type hit)) in
                   setIsDragging true ;;
                   setDragStart
                     (Some (mkDragStart screenX screenY handle (Some hit)))
               end
           | None => setSelection None
           end
       | _ =>
           setIsDragging true ;;
           setDragStart (Some (mkDragStart screenX screenY None None))
       end
   end)%handler.

(** The select-tool branch of [handleCanvasMouseMove] for a drag that began
    on the handle [handle] of the hit [hit]. *)
Definition resizeDrag (proj : Project) (f : Frame) (handle : HandleName)
    (hit : Hit) (screenX screenY : R) : Handler unit :=
  (let isGlobal := isGlobalSpace (hit_type hit) in
   let trans := spaceTransformer proj f isGlobal in
   let img := screenToImage trans screenX screenY in
   let imgX := px img in
   let imgY := py img in
   let ann := annotationOfHit proj f hit in
   match handle with
   | H_se =>
       match ann with
       | None => throw
       | Some ann =>
           match ann_type ann with
           | ANNOTATION_BBOX w h =>
               let dw := imgX - (ann_x ann + w) in
               let dh := imgY - (ann_y ann + h) in
               resizeAnnotation (ann_id ann) dw dh isGlobal
           | ANNOTATION_POINT =>
               (* [ann.w] is undefined; [resizeAnnotation] returns at once *)
               ret tt
           end
       end
   | H_nw =>
       match ann with
       | None => throw
       | Some ann =>
           let dx := imgX - ann_x ann in
           let dy := imgY - ann_y ann in
           moveAnnotation (ann_id ann) dx dy isGlobal ;;
           resizeAnnotation (ann_id ann) (- dx) (- dy) isGlobal
       end
   | _ => ret tt
   end)%handler.

(** [handleCanvasMouseMove(e)]. *)
Definition handleCanvasMouseMove (screenX screenY : R) : Handler unit :=
  (proj <- closure project ;;
   tl <- closure tool ;;
   dragging <- closure isDragging ;;
   start <- closure dragStart ;;
   sel <- closure selection ;;
   match currentFrame proj with
   | None => ret tt
   | Some f =>
       match tl, dragging, start with
       | TOOL_PAN, true, Some ds =>
           let dx := screenX - ds_x ds in
           let dy := screenY - ds_y ds in
           updateViewport (zoom (viewport proj)) (panX (viewport proj) + dx)
                          (panY (viewport proj) + dy) ;;
           setDragStart (Some (mkDragStart screenX screenY None None))
       | TOOL_SELECT, true, Some ds =>
           match ds_handle ds, ds_hit ds, sel with
           | Some handle, Some hit, _ =>
               resizeDrag proj f handle hit screenX screenY
           | None, _, Some sel =>
               let dx := screenX - ds_x ds in
               let dy := screenY - ds_y ds in
               let zoom := zoom (viewport proj) in
               moveAnnotation (hit_id sel) (dx / zoom) (dy / zoom)
                              (isGlobalSpace (hit_type sel)) ;;
               setDragStart (Some (mkDragStart screenX screenY None None))
           | _, _, _ => ret tt
           end
       | _, _, _ =>
           if isDrawingTool tl && dragging
           then setDragCurrent (Some (mkPt screenX screenY))
           else
             let hit := getAnnotationAtPoint proj screenX screenY in
             setHoveredId (match hit with
                           | Some h => if String.eqb (hit_id h) "" then None
                                       else Some (hit_id h)
                           | None => None
                           end)
       end
   end)%handler.

Definition isBuoyTool (t : Tool) : bool :=
  match t with
  | TOOL_BUOY_POINT | TOOL_BUOY_BOX => true
  | _ => false
  end.

Definition isPointTool (t : Tool) : bool :=
  match t with
  | TOOL_BOAT_POINT | TOOL_BUOY_POINT => true
  | _ => false
  end.

Definition isBoxTool (t : Tool) : bool :=
  match t with
  | TOOL_BOAT_BOX | TOOL_BUOY_BOX => true
  | _ => false
  end.

(** [tool === TOOL_BOAT_POINT ? LABEL_BOAT : LABEL_BUOY] and its box twin. *)
Definition labelOfTool (t : Tool) : Label :=
  match t with
  | TOOL_BOAT_POINT | TOOL_BOAT_BOX => LABEL_BOAT
  | _ => LABEL_BUOY
  end.

(** [isGlobal ? updateGlobalBuoys([...project.globalBuoys, ann])
    : updateFrameAnnotations(project.currentIndex,
                             [...currentFrame.annotations, ann])]. *)
Definition appendAnnotation (proj : Project) (f : Frame) (isGlobal : bool)
    (ann : Annotation) : Handler unit :=
  if isGlobal then updateGlobalBuoys (globalBuoys proj ++ [ann])
  else updateFrameAnnotations (currentIndex proj) (annotations f ++ [ann]).

(** The annotation a completed drawing gesture creates: [start] is
    [dragStart], [(screenX, screenY)] the position of the pointer when the
    button is released. *)
Definition drawnAnnotation (newId : string) (proj : Project) (f : Frame)
    (tl : Tool) (start : DragStart) (screenX screenY : R) : option Annotation :=
  let moveDistance := hypot (screenX - ds_x start) (screenY - ds_y start) in
  let isGlobal := isBuoyTool tl in
  let trans := spaceTransformer proj f isGlobal in
  let img := screenToImage trans (ds_x start) (ds_y start) in
  let imgX := px img in
  let imgY := py img in
  if isPointTool tl then
    Some (createAnnotation newId ANNOTATION_POINT (labelOfTool tl) imgX imgY)
  else if isBoxTool tl then
    if Rltb moveDistance CLICK_DRAG_THRESHOLD then
      Some (createAnnotation newId
              (ANNOTATION_BBOX DEFAULT_BBOX_SIZE DEFAULT_BBOX_SIZE)
              (labelOfTool tl) imgX imgY)
    else
      let img2 := screenToImage trans screenX screenY in
      let imgX2 := px img2 in
      let imgY2 := py img2 in
      let bx := Rmin imgX imgX2 in
      let by_ := Rmin imgY imgY2 in
      let bw := Rmax MIN_BBOX_SIDE (Rabs (imgX2 - imgX)) in
      let bh := Rmax MIN_BBOX_SIDE (Rabs (imgY2 - imgY)) in
      Some (createAnnotation newId (ANNOTATION_BBOX bw bh) (labelOfTool tl)
              bx by_)
  else None.

(** [handleCanvasMouseUp(e)]; [newId] is what [generateId()] returns if it
    is called.  With [isDragging] set and [dragStart] null the handler throws
    at [dragStart.x]. *)
Definition handleCanvasMouseUp (newId : string) (screenX screenY : R)
  : Handler unit :=
  (proj <- closure project ;;
   tl <- closure tool ;;
   dragging <- closure isDragging ;;
   start <- closure dragStart ;;
   match currentFrame proj with
   | None => ret tt
   | Some f =>
       (if isDrawingTool tl && dragging then
          match start with
          | None => throw
          | Some ds =>
              match drawnAnnotation newId proj f tl ds screenX screenY with
              | Some ann => appendAnnotation proj f (isBuoyTool tl) ann
              | None => ret tt
              end
          end
        else ret tt) ;;
       setIsDragging false ;;
       setDragStart None ;;
       setDragCurrent None
   end)%handler.

(** [handleCanvasMouseLeave()]. *)
Definition handleCanvasMouseLeave : Handler unit :=
  (setHoveredId None ;;
   setIsDragging false ;;
   setDragStart None ;;
   setDragCurrent None)%handler.

(* ====================================================================== *)
(** * Keyboard, wheel and sidebar controls *)
(* ====================================================================== *)

Record KeyEvent : Type := mkKeyEvent {
  key : string;
  shiftKey : bool;
  ctrlKey : bool;
  metaKey : bool
}.

Definition keyIn (e : KeyEvent) (ks : list string) : bool :=
  existsb (String.eqb (key e)) ks.

(** [handleBackupDownload()]: the download itself is the host's. *)
Definition handleBackupDownload : Handler unit :=
  setStatus StatusBackupDownloaded.

(** The [switch (e.key)] of the global [keydown] listener. *)
Definition keySwitch (e : KeyEvent) (proj : Project) (f : Frame)
  : Handler unit :=
  (let zoom := zoom (viewport proj) in
   let panX := panX (viewport proj) in
   let panY := panY (viewport proj) in
   let step := KEY_PAN_STEP / zoom in
   if keyIn e ["ArrowUp"%string] then updateViewport zoom panX (panY + step)
   else if keyIn e ["ArrowDown"%string] then
     updateViewport zoom panX (panY - step)
   else if keyIn e ["ArrowLeft"%string] then
     updateViewport zoom (panX + step) panY
   else if keyIn e ["ArrowRight"%string] then
     updateViewport zoom (panX - step) panY
   else if keyIn e ["n"; "N"; "d"; "D"]%string then
     if shiftKey e then ret tt else goToFrame (currentIndex proj + 1)%Z
   else if keyIn e ["p"; "P"; "a"; "A"]%string then
     if shiftKey e then ret tt else goToFrame (currentIndex proj - 1)%Z
   else if keyIn e ["+"; "="]%string then
     updateViewport (Rmin ZOOM_MAX (zoom * 1.2)) panX panY
   else if keyIn e ["-"; "_"]%string then
     updateViewport (Rmax ZOOM_MIN (zoom / 1.2)) panX panY
   else if keyIn e ["["%string] then
     updateFrameRotation (currentIndex proj)
                         (Rmax ROTATION_MIN (rotationDeg f - 0.1))
   else if keyIn e ["]"%string] then
     updateFrameRotation (currentIndex proj)
                         (Rmin ROTATION_MAX (rotationDeg f + 0.1))
   else if keyIn e ["Delete"; "Backspace"]%string then deleteAnnotation
   else if keyIn e ["Escape"%string] then setTool (fun _ => TOOL_SELECT)
   else if keyIn e ["1"%string] then setTool (fun _ => TOOL_BOAT_POINT)
   else if keyIn e ["2"%string] then setTool (fun _ => TOOL_BOAT_BOX)
   else if keyIn e ["3"%string] then setTool (fun _ => TOOL_BUOY_POINT)
   else if keyIn e ["4"%string] then setTool (fun _ => TOOL_BUOY_BOX)
   else
     (* [default:] the arrow keys never reach it, they have cases above *)
     if shiftKey e && keyIn e ["ArrowLeft"; "ArrowRight"]%string
     then goToFrame (currentIndex proj
                     + (if keyIn e ["ArrowLeft"%string] then -1 else 1))%Z
     else ret tt)%handler.

(** The global [keydown] listener [handleKeyDown(e)]. *)
Definition handleKeyDown (e : KeyEvent) : Handler unit :=
  (proj <- closure project ;;
   match currentFrame proj with
   | None => ret tt
   | Some f =>
       keySwitch e proj f ;;
       if (ctrlKey e || metaKey e) && keyIn e ["s"%string] then
         en <- getEnv ;;
         if fileHandle en
         then triggerSave proj ;; setStatus StatusSaving
         else handleBackupDownload
       else ret tt
   end)%handler.

(** The [Space] listeners: [keydown] toggles the pan tool, [keyup] leaves
    it. *)
Definition handleSpaceDown : Handler unit :=
  setTool (fun prev => match prev with
                       | TOOL_PAN => TOOL_SELECT
                       | _ => TOOL_PAN
                       end).

Definition handleSpaceUp : Handler unit :=
  setTool (fun prev => match prev with
                       | TOOL_PAN => TOOL_SELECT
                       | _ => prev
                       end).

(** [const factor = e.deltaY > 0 ? 0.9 : 1.1]. *)
Definition wheelFactor (deltaY : R) : R :=
  if Rgtb deltaY 0 then 0.9 else 1.1.

(** The viewport [handleWheel] passes to [updateViewport]. *)
Definition wheelViewport (proj : Project) (f : Frame) (deltaY : R) : Viewport :=
  let zoom := zoom (viewport proj) in
  let panX := panX (viewport proj) in
  let panY := panY (viewport proj) in
  let factor := wheelFactor deltaY in
  let newZoom := Rmax ZOOM_MIN (Rmin ZOOM_MAX (zoom * factor)) in
  let imgCenterX := width f / 2 in
  let imgCenterY := height f / 2 in
  let trans := mkTransformer (width f) (height f) zoom panX panY
                             (rotationDeg f) true in
  let screenCenter := imageToScreen trans imgCenterX imgCenterY in
  let transNew := mkTransformer (width f) (height f) newZoom 0 0
                                (rotationDeg f) true in
  let newScreen := imageToScreen transNew imgCenterX imgCenterY in
  let newPanX := panX + (px screenCenter - px newScreen) in
  let newPanY := panY + (py screenCenter - py newScreen) in
  mkViewport newZoom newPanX newPanY.

(** [handleWheel(e)]. *)
Definition handleWheel (deltaY : R) : Handler unit :=
  (proj <- closure project ;;
   match currentFrame proj with
   | None => ret tt
   | Some f =>
       let v := wheelViewport proj f deltaY in
       updateViewport (zoom v) (panX v) (panY v)
   end)%handler.

(** The zoom slider's [onChange]; [value] is [parseFloat(e.target.value)].
    The slider is rendered with [min = Math.log(ZOOM_MIN)] and
    [max = Math.log(ZOOM_MAX)]. *)
Definition handleZoomSlider (value : R) : Handler unit :=
  (proj <- closure project ;;
   updateViewport (exp value) (panX (viewport proj)) (panY (viewport proj)))%handler.

(** The [Reset] button. *)
Definition handleZoomReset : Handler unit :=
  updateViewport 1 0 0.

(** The rotation slider's and the rotation number input's [onChange].
    [value] is [parseFloat(e.target.value)] when that is a number.  For a
    field that has been emptied it is [NaN], which goes through [Math.max]
    and [Math.min] and is stored as the rotation; [NaN] is not a real
    number, and that event is not among the ones described here. *)
Definition handleRotationSlider (value : R) : Handler unit :=
  (proj <- closure project ;;
   updateFrameRotation (currentIndex proj) value)%handler.

Definition handleRotationInput (value : R) : Handler unit :=
  (proj <- closure project ;;
   updateFrameRotation (currentIndex proj)
                       (Rmax ROTATION_MIN (Rmin ROTATION_MAX value)))%handler.

(* ====================================================================== *)
(** * Importing images *)
(* ====================================================================== *)

(** [{ ...frameData, rotationDeg: 0, annotations: [] }]. *)
Definition newFrame (img : ImageData) : Frame :=
  mkFrame (img_name img) (img_url img) (img_width img) (img_height img) 0 [].

(** [{ ...project, frames, currentIndex: 0 }]. *)
Definition withImportedFrames (p : Project) (fs : list Frame) : Project :=
  {| version := version p; createdAt := createdAt p; viewport := viewport p;
     currentIndex := 0; frames := fs; globalBuoys := globalBuoys p |}.

(** How a call of a picker of the File System Access API ends: the API is
    missing, the awaited calls throw (an [AbortError] when the user cancels,
    another error otherwise), or they yield a value. *)
Inductive Picked (A : Type) : Type :=
| PickerMissing
| PickerThrew (abortError : bool)
| PickerGave (a : A).
Arguments PickerMissing {A}.
Arguments PickerThrew {A} abortError.
Arguments PickerGave {A} a.

(** The fallback [fileInputRef.current?.click()] opens the hidden input of
    the host; the component's state is not touched. *)
Definition clickHiddenInput : Handler unit := ret tt.

(** [handleOpenFile()]: the picker, [handle.getFile()] and
    [loadSingleImage(file)] have run and ended as [outcome]. *)
Definition handleOpenFile (outcome : Picked ImageData) : Handler unit :=
  (proj <- closure project ;;
   match outcome with
   | PickerGave frameData =>
       let newProject := withImportedFrames proj [newFrame frameData] in
       setProject newProject ;;
       setStatus StatusImageLoaded
   | PickerMissing => clickHiddenInput
   | PickerThrew abortError =>
       if negb abortError then clickHiddenInput
       else setStatus StatusFileSelectionCancelled
   end)%handler.

(** [handleFileInputChange(e)]: [file] is [e.target.files?.[0]] with what
    [loadSingleImage] makes of it, its image or the message of the error. *)
Definition handleFileInputChange (file : option (ImageData + string))
  : Handler unit :=
  (proj <- closure project ;;
   match file with
   | None => ret tt
   | Some (inl frameData) =>
       let newProject := withImportedFrames proj [newFrame frameData] in
       setProject newProject ;;
       setStatus StatusImageLoaded
   | Some (inr message) => setStatus (StatusFailedToLoadImage message)
   end)%handler.

(** A file of a folder: its name and what [loadSingleImage] makes of it
    ([None] when the promise is rejected). *)
Record FileEntry : Type := mkFileEntry {
  entry_name : string;
  entry_image : option ImageData
}.

Definition lowerAscii (c : ascii) : ascii :=
  let n := nat_of_ascii c in
  if (65 <=? n)%nat && (n <=? 90)%nat then ascii_of_nat (n + 32) else c.

(** [s.toLowerCase()] on ASCII letters. *)
Fixpoint toLowerCase (s : string) : string :=
  match s with
  | EmptyString => EmptyString
  | String c s' => String (lowerAscii c) (toLowerCase s')
  end.

(** [s.split('.').pop()], [acc] being the segment read so far. *)
Fixpoint lastSegment (s acc : string) : string :=
  match s with
  | EmptyString => acc
  | String c s' =>
      if Ascii.eqb c "."%char then lastSegment s' EmptyString
      else lastSegment s' (acc ++ String c EmptyString)
  end.

Definition imageExts : list string := ["png"; "jpg"; "jpeg"; "webp"; "bmp"]%string.

Definition hasImageExt (fileName : string) : bool :=
  let ext := lastSegment (toLowerCase fileName) EmptyString in
  existsb (String.eqb ext) imageExts.

(** The loop shared by [handleFolderInputChange] and [loadFolder]: the
    images of the files that have an image extension and that load. *)
Fixpoint loadImages (files : list FileEntry) : list ImageData :=
  match files with
  | [] => []
  | file :: rest =>
      if hasImageExt (entry_name file) then
        match entry_image file with
        | Some img => img :: loadImages rest
        | None => loadImages rest
        end
      else loadImages rest
  end.

(** [handleFolderInputChange(e)] on [files = Array.from(e.target.files)]. *)
Definition handleFolderInputChange (files : list FileEntry) : Handler unit :=
  (proj <- closure project ;;
   match files with
   | [] => ret tt
   | _ =>
       let images := loadImages files in
       match images with
       | [] => setStatus StatusNoCompatibleImagesFound
       | _ =>
           let frames := map newFrame images in
           let newProject := withImportedFrames proj frames in
           setProject newProject ;;
           setStatus (StatusLoadedImages (List.length frames))
       end
   end)%handler.

Section OpenFolder.

(** [naturalSort] sorts a copy of the array with the host's
    [localeCompare] on the [toString()] of its elements; it is a parameter
    here. *)
Variable naturalSort : list ImageData -> list ImageData.

(** [FileIOManager.loadFolder(entries)]. *)
Definition loadFolder (entries : list FileEntry) : list ImageData :=
  naturalSort (loadImages entries).

(** [handleOpenFolder()]: the directory picker has ended as [outcome],
    with the entries of kind ['file']. *)
Definition handleOpenFolder (outcome : Picked (list FileEntry)) : Handler unit :=
  (proj <- closure project ;;
   match outcome with
   | PickerGave entries =>
       match entries with
       | [] => setStatus StatusNoImagesInFolder
       | _ =>
           let frames := loadFolder entries in
           match frames with
           | [] => setStatus StatusNoCompatibleImagesInFolder
           | _ =>
               let newProject :=
                 withImportedFrames proj (map newFrame frames) in
               setProject newProject ;;
               setStatus (StatusLoadedImages (List.length frames))
           end
       end
   | PickerMissing => clickHiddenInput
   | PickerThrew abortError =>
       if negb abortError then clickHiddenInput
       else setStatus StatusFolderSelectionCancelled
   end)%handler.

End OpenFolder.

(* ====================================================================== *)
(** * Loading a project file *)
(* ====================================================================== *)

(** The values [JSON.parse] returns.  The fields of an object are listed
    once each. *)
#[local] Unset Elimination Schemes.
Inductive json : Type :=
| JNull
| JBool (b : bool)
| JNum (r : R)
| JStr (s : string)
| JArr (items : list json)
| JObj (fields : list (string * json)).
#[local] Set Elimination Schemes.

Fixpoint lookupField (k : string) (fields : list (string * json)) : option json :=
  match fields with
  | [] => None
  | (k', v) :: rest => if String.eqb k' k then Some v else lookupField k rest
  end.

(** [v.k] for [k] one of the project's field names: a [TypeError] on [null]
    (the outer [None]), [undefined] (the inner [None]) when [v] is not an
    object or has no such field. *)
Definition getProperty (v : json) (k : string) : option (option json) :=
  match v with
  | JNull => None
  | JObj fields => Some (lookupField k fields)
  | _ => Some None
  end.

(** JavaScript truthiness; [None] is [undefined]. *)
Definition truthy (v : option json) : bool :=
  match v with
  | None => false
  | Some JNull => false
  | Some (JBool b) => b
  | Some (JNum r) => negb (Reqb r 0)
  | Some (JStr s) => negb (String.eqb s "")
  | Some (JArr _) => true
  | Some (JObj _) => true
  end.

(** [Array.isArray(v)]. *)
Definition isArray (v : option json) : bool :=
  match v with
  | Some (JArr _) => true
  | _ => false
  end.

(** [loadedProject.version && loadedProject.frames &&
    Array.isArray(loadedProject.frames)] as a condition; [None] when its
    evaluation throws. *)
Definition validProjectStructure (loadedProject : json) : option bool :=
  match getProperty loadedProject "version" with
  | None => None
  | Some version =>
      if truthy version then
        match getProperty loadedProject "frames" with
        | None => None
        | Some frames => Some (truthy frames && isArray frames)
        end
      else Some false
  end.

(** [loadedProject.frames.length] once the condition holds. *)
Definition framesLength (loadedProject : json) : nat :=
  match getProperty loadedProject "frames" with
  | Some (Some (JArr items)) => List.length items
  | _ => O
  end.

(** What reading the chosen file and [JSON.parse] end with. *)
Inductive Parsed : Type :=
| ParseError (message : string)
| ParsedValue (v : json).

Definition typeErrorMessage : string :=
  "Cannot read properties of null (reading 'version')".

Section ProjectLoad.

(** [setProject(loadedProject)] stores the parsed object itself.
    [readProject] is the record the component reads from that object
    afterwards; what is proved of the loaders holds for any reading. *)
Variable readProject : json -> Project.

(** The body both loaders share once the file is parsed; [None] when the
    condition throws. *)
Definition installProject (loadedProject : json) : Handler unit :=
  match validProjectStructure loadedProject with
  | None => throw
  | Some true =>
      (setProject (readProject loadedProject) ;;
       setSelection None ;;
       setStatus (StatusLoadedProject (framesLength loadedProject)))%handler
  | Some false => setStatus StatusInvalidProjectFileFormat
  end.

(** [try { ... } catch (err) { ... }] around a body that throws before it
    writes. *)
Definition tryCatch (body handler : Handler unit) : Handler unit :=
  fun snap w =>
    match body snap w with
    | Some r => Some r
    | None => handler snap w
    end.

(** [handleProjectFileInput(e)]: [file] is [e.target.files?.[0]] read and
    parsed. *)
Definition handleProjectFileInput (file : option Parsed) : Handler unit :=
  match file with
  | None => ret tt
  | Some (ParseError message) =>
      setStatus (StatusFailedToLoadProject message)
  | Some (ParsedValue loadedProject) =>
      tryCatch (installProject loadedProject)
               (setStatus (StatusFailedToLoadProject typeErrorMessage))
  end.

(** [handleLoadProject()]: the picker and the reading of the file have
    ended as [outcome]. *)
Definition handleLoadProject (outcome : Picked Parsed) : Handler unit :=
  match outcome with
  | PickerMissing => clickHiddenInput
  | PickerThrew abortError =>
      if negb abortError then clickHiddenInput
      else setStatus StatusProjectSelectionCancelled
  | PickerGave (ParseError _) => clickHiddenInput
  | PickerGave (ParsedValue loadedProject) =>
      tryCatch (installProject loadedProject) clickHiddenInput
  end.

End ProjectLoad.

(** ** The project-file format *)

Definition obind {A B : Type} (o : option A) (k : A -> option B) : option B :=
  match o with
  | Some a => k a
  | None => None
  end.

(** All the elements, when none is missing. *)
Fixpoint allSome {A : Type} (l : list (option A)) : option (list A) :=
  match l with
  | [] => Some []
  | o :: l' => obind o (fun a => obind (allSome l') (fun r => Some (a :: r)))
  end.

Definition fieldOf (v : json) (k : string) : option json :=
  match v with
  | JObj fields => lookupField k fields
  | _ => None
  end.

Definition numberField (v : json) (k : string) : option R :=
  match fieldOf v k with
  | Some (JNum r) => Some r
  | _ => None
  end.

Definition stringField (v : json) (k : string) : option string :=
  match fieldOf v k with
  | Some (JStr s) => Some s
  | _ => None
  end.

Definition arrayField (v : json) (k : string) : option (list json) :=
  match fieldOf v k with
  | Some (JArr items) => Some items
  | _ => None
  end.

(** The integer a number is, if it is one. *)
Definition asInteger (r : R) : option Z :=
  let z := (up r - 1)%Z in
  if Req_dec_T (IZR z) r then Some z else None.

Definition integerField (v : json) (k : string) : option Z :=
  obind (numberField v k) asInteger.

Definition labelOfJson (v : json) : option Label :=
  obind (stringField v "label") (fun s =>
    if String.eqb s "boat" then Some LABEL_BOAT
    else if String.eqb s "buoy" then Some LABEL_BUOY
    else None).

Definition typeOfJson (v : json) : option AnnotationType :=
  obind (stringField v "type") (fun s =>
    if String.eqb s "point" then Some ANNOTATION_POINT
    else if String.eqb s "bbox" then
      obind (numberField v "w") (fun w =>
      obind (numberField v "h") (fun h => Some (ANNOTATION_BBOX w h)))
    else None).

(** [{ id, type, label, x, y, w?, h? }]. *)
Definition annotationOfJson (v : json) : option Annotation :=
  obind (stringField v "id") (fun id =>
  obind (typeOfJson v) (fun type =>
  obind (labelOfJson v) (fun label =>
  obind (numberField v "x") (fun x =>
  obind (numberField v "y") (fun y =>
  Some (mkAnnotation id type label x y)))))).

(** [{ name, url, width, height, rotationDeg, annotations }]. *)
Definition frameOfJson (v : json) : option Frame :=
  obind (stringField v "name") (fun name =>
  obind (stringField v "url") (fun url =>
  obind (numberField v "width") (fun width =>
  obind (numberField v "height") (fun height =>
  obind (numberField v "rotationDeg") (fun rotationDeg =>
  obind (arrayField v "annotations") (fun anns =>
  obind (allSome (map annotationOfJson anns)) (fun annotations =>
  Some (mkFrame name url width height rotationDeg annotations)))))))).

Definition viewportOfJson (v : json) : option Viewport :=
  obind (numberField v "zoom") (fun zoom =>
  obind (numberField v "panX") (fun panX =>
  obind (numberField v "panY") (fun panY =>
  Some (mkViewport zoom panX panY)))).

(** The record an object in the project-file format
    [{ version, createdAt, viewport, currentIndex, frames, globalBuoys }]
    holds; [None] when a field is missing or of another type. *)
Definition projectOfJson (v : json) : option Project :=
  obind (integerField v "version") (fun version =>
  obind (stringField v "createdAt") (fun createdAt =>
  obind (obind (fieldOf v "viewport") viewportOfJson) (fun viewport =>
  obind (integerField v "currentIndex") (fun currentIndex =>
  obind (arrayField v "frames") (fun fs =>
  obind (allSome (map frameOfJson fs)) (fun frames =>
  obind (arrayField v "globalBuoys") (fun bs =>
  obind (allSome (map annotationOfJson bs)) (fun globalBuoys =>
  Some (mkProject version createdAt viewport currentIndex frames
                  globalBuoys))))))))).

(** The reading of a parsed object used in the examples: its record when
    it is in the project-file format, the empty project otherwise. *)
Definition projectView (v : json) : Project :=
  match projectOfJson v with
  | Some p => p
  | None => createDefaultProject ""
  end.

(* ====================================================================== *)
(** * The component as a transition system *)
(* ====================================================================== *)

(** The world when the component mounts with nothing to restore. *)
Definition initialWorld (nowIso : string) : World :=
  mkWorld (mkAppState (createDefaultProject nowIso) TOOL_SELECT None None
                      false None None StatusReady)
          (mkEnv None [] 1 0 false None None []).

(** The events of the user and of the host. *)
Inductive Op : Type :=
| OpGoToFrame (index : Z)
| OpKeyDown (e : KeyEvent)
| OpSpaceDown
| OpSpaceUp
| OpWheel (deltaY : R)
| OpZoomSlider (value : R)
| OpZoomReset
| OpRotationSlider (value : R)
| OpRotationInput (value : R)
| OpMouseDown (screenX screenY : R)
| OpMouseMove (screenX screenY : R)
| OpMouseUp (newId : string) (screenX screenY : R)
| OpMouseLeave
| OpOpenFile (outcome : Picked ImageData)
| OpFileInput (file : option (ImageData + string))
| OpFolderInput (files : list FileEntry)
| OpOpenFolder (outcome : Picked (list FileEntry))
| OpLoadProject (outcome : Picked Parsed)
| OpProjectFileInput (file : option Parsed)
| OpTimePasses (host : SaveHost) (t : Z).

Section Transitions.

Variable readProject : json -> Project.
Variable naturalSort : list ImageData -> list ImageData.

Definition handlerOf (op : Op) : Handler unit :=
  match op with
  | OpGoToFrame index => goToFrame index
  | OpKeyDown e => handleKeyDown e
  | OpSpaceDown => handleSpaceDown
  | OpSpaceUp => handleSpaceUp
  | OpWheel deltaY => handleWheel deltaY
  | OpZoomSlider value => handleZoomSlider value
  | OpZoomReset => handleZoomReset
  | OpRotationSlider value => handleRotationSlider value
  | OpRotationInput value => handleRotationInput value
  | OpMouseDown x y => handleCanvasMouseDown x y
  | OpMouseMove x y => handleCanvasMouseMove x y
  | OpMouseUp newId x y => handleCanvasMouseUp newId x y
  | OpMouseLeave => handleCanvasMouseLeave
  | OpOpenFile outcome => handleOpenFile outcome
  | OpFileInput file => handleFileInputChange file
  | OpFolderInput files => handleFolderInputChange files
  | OpOpenFolder outcome => handleOpenFolder naturalSort outcome
  | OpLoadProject outcome => handleLoadProject readProject outcome
  | OpProjectFileInput file => handleProjectFileInput readProject file
  | OpTimePasses _ _ => ret tt
  end.

(** One event, its handler run to its end before the next event.  For an
    [async] handler this is the case in which nothing happens while it
    waits; [runOpFrom] below is the general one. *)
Definition runOp (op : Op) (w : World) : World :=
  match op with
  | OpTimePasses host t => advanceTo host t w
  | _ => runHandler (handlerOf op) w
  end.

(** What the host guarantees of an event: the zoom slider only yields
    values between its [min] and [max]. *)
Definition hostAllows (op : Op) : Prop :=
  match op with
  | OpZoomSlider value => ln ZOOM_MIN <= value <= ln ZOOM_MAX
  | _ => True
  end.

(** The worlds the component reaches from its mount. *)
Inductive reachable : World -> Prop :=
| reachable_init nowIso : reachable (initialWorld nowIso)
| reachable_step w op :
    reachable w -> hostAllows op -> reachable (runOp op w).

End Transitions.

(* ====================================================================== *)
(** * Properties stated by the specification *)
(* ====================================================================== *)

(** The project invariant: [0 <= currentIndex < frames.length] whenever
    there are frames, and [zoom] in [[ZOOM_MIN, ZOOM_MAX]]. *)
Definition indexInRange (p : Project) : Prop :=
  frames p <> [] ->
  (0 <= currentIndex p < Z.of_nat (List.length (frames p)))%Z.

Definition zoomInRange (p : Project) : Prop :=
  ZOOM_MIN <= zoom (viewport p) <= ZOOM_MAX.

Definition projectInvariant (p : Project) : Prop :=
  indexInRange p /\ zoomInRange p.

(** The project a loader would install from [op], if it is a load of a file
    that passes the structure check. *)
Definition loadedBy (readProject : json -> Project) (op : Op) : option Project :=
  match op with
  | OpLoadProject (PickerGave (ParsedValue v))
  | OpProjectFileInput (Some (ParsedValue v)) =>
      match validProjectStructure v with
      | Some true => Some (readProject v)
      | _ => None
      end
  | _ => None
  end.

(** The worlds reached when every project file that is loaded holds a
    project that satisfies the invariant. *)
Inductive reachableWithSoundFiles (readProject : json -> Project)
    (naturalSort : list ImageData -> list ImageData) : World -> Prop :=
| sound_init nowIso :
    reachableWithSoundFiles readProject naturalSort (initialWorld nowIso)
| sound_step w op :
    reachableWithSoundFiles readProject naturalSort w ->
    hostAllows op ->
    (forall p, loadedBy readProject op = Some p -> projectInvariant p) ->
    reachableWithSoundFiles readProject naturalSort
                            (runOp readProject naturalSort op w).

(** An annotation is hit at an image-space point: a point annotation when
    its Euclidean distance to the point is below 10, a box when the point
    is inside it, the minimum edges included and the maximum edges
    excluded. *)
Definition isHit (a : Annotation) (p : Pt) : Prop :=
  match ann_type a with
  | ANNOTATION_POINT =>
      sqrt ((ann_x a - px p) * (ann_x a - px p)
            + (ann_y a - py p) * (ann_y a - py p)) < 10
  | ANNOTATION_BBOX w h =>
      ann_x a <= px p < ann_x a + w /\ ann_y a <= py p < ann_y a + h
  end.

(** [a] is the last-inserted annotation of [anns] hit at [p], at index
    [i]. *)
Definition lastHit (anns : list Annotation) (p : Pt) (i : nat) (a : Annotation)
  : Prop :=
  nth_error anns i = Some a /\ isHit a p /\
  forall j b, (i < j)%nat -> nth_error anns j = Some b -> ~ isHit b p.

Definition noneHit (anns : list Annotation) (p : Pt) : Prop :=
  forall j b, nth_error anns j = Some b -> ~ isHit b p.

(** The structure check as the specification words it: a [version] field
    that is not null, and a [frames] field that is present and is a list. *)
Definition hasNonNullVersion (v : json) : Prop :=
  exists x, fieldOf v "version" = Some x /\ x <> JNull.

Definition hasFramesList (v : json) : Prop :=
  exists items, fieldOf v "frames" = Some (JArr items).

(** The structure check as the loaders make it: a truthy [version] and a
    [frames] field that is an array. *)
Definition hasTruthyVersion (v : json) : Prop :=
  truthy (fieldOf v "version") = true.

Definition loaderAccepts (file : option Parsed) (v : json) : Prop :=
  file = Some (ParsedValue v) /\ hasTruthyVersion v /\ hasFramesList v.

(** The images an import hands over, in order; none when it ends without
    importing (the picker is missing or throws, no file, a file that does
    not load, no file with an image extension). *)
Definition imagesOfOpenFile (outcome : Picked ImageData) : list ImageData :=
  match outcome with
  | PickerGave frameData => [frameData]
  | _ => []
  end.

Definition imagesOfFileInput (file : option (ImageData + string))
  : list ImageData :=
  match file with
  | Some (inl frameData) => [frameData]
  | _ => []
  end.

Definition imagesOfFolderInput (files : list FileEntry) : list ImageData :=
  loadImages files.

Definition imagesOfOpenFolder (naturalSort : list ImageData -> list ImageData)
    (outcome : Picked (list FileEntry)) : list ImageData :=
  match outcome with
  | PickerGave (entry :: rest) => loadFolder naturalSort (entry :: rest)
  | _ => []
  end.

(** The project after an import that was started on the project [p0] and
    ends on the project [p]: with no image, [p] as it is; with images, the
    project [p0] with one fresh frame per image and the first one shown. *)
Definition importedProject (p0 : Project) (images : list ImageData)
    (p : Project) : Project :=
  match images with
  | [] => p
  | _ :: _ => withImportedFrames p0 (map newFrame images)
  end.

(** The parsed file a picker has yielded, if it has. *)
Definition pickedFile (outcome : Picked Parsed) : option Parsed :=
  match outcome with
  | PickerGave parsed => Some parsed
  | _ => None
  end.

(** Nothing but the status line differs between two worlds. *)
Definition sameButStatus (w w' : World) : Prop :=
  project (ui w') = project (ui w) /\ tool (ui w') = tool (ui w) /\
  selection (ui w') = selection (ui w) /\ hoveredId (ui w') = hoveredId (ui w) /\
  isDragging (ui w') = isDragging (ui w) /\
  dragStart (ui w') = dragStart (ui w) /\
  dragCurrent (ui w') = dragCurrent (ui w) /\ env w' = env w.

(** ** Debounced saving *)

(** At most one timer is pending, and it is the one [saveTimeoutRef]
    names. *)
Definition onePendingTimer (e : Env) : Prop :=
  timers e = [] \/
  exists t, timers e = [t] /\ saveTimeoutRef e = Some (timer_id t).

(** One timer is pending: it is the one [saveTimeoutRef] names, it is due
    [SAVE_DEBOUNCE_MS] after the clock's time, and it will save the project
    as it is now. *)
Definition armed (w : World) : Prop :=
  exists tm,
    timers (env w) = [tm] /\ saveTimeoutRef (env w) = Some (timer_id tm) /\
    timer_due tm = (clock (env w) + SAVE_DEBOUNCE_MS)%Z /\
    timer_proj tm = project (ui w).

(** A mutation issued at time [t]: the time passes, then the handler runs
    [updateProject(updater)]. *)
Definition mutateAt (host : SaveHost) (t : Z) (updater : Project -> Project)
    (w : World) : World :=
  runHandler (updateProject updater) (advanceTo host t w).

Fixpoint mutateAll (host : SaveHost) (ms : list (Z * (Project -> Project)))
    (w : World) : World :=
  match ms with
  | [] => w
  | (t, u) :: ms' => mutateAll host ms' (mutateAt host t u w)
  end.

(** Each mutation of [ms] is issued less than [SAVE_DEBOUNCE_MS] after the
    one before it, the first one after [t0]. *)
Fixpoint eachWithinDebounce (t0 : Z) (ms : list (Z * (Project -> Project)))
  : Prop :=
  match ms with
  | [] => True
  | (t, _) :: ms' =>
      (t0 <= t < t0 + SAVE_DEBOUNCE_MS)%Z /\ eachWithinDebounce t ms'
  end.

(** The time of the last mutation of [ms], [t0] if there is none. *)
Fixpoint lastTime (t0 : Z) (ms : list (Z * (Project -> Project))) : Z :=
  match ms with
  | [] => t0
  | (t, _) :: ms' => lastTime t ms'
  end.

(** The screen position of the geometric centre of the image of [f] under
    the viewport [v], in the frame-rotated space. *)
Definition centerOnScreen (f : Frame) (v : Viewport) : Pt :=
  imageToScreen
    (mkTransformer (width f) (height f) (zoom v) (panX v) (panY v)
                   (rotationDeg f) true)
    (width f / 2) (height f / 2).

(** ** Example inputs *)

(** A world at rest showing the project [p] with the tool [tl]. *)
Definition worldOf (p : Project) (tl : Tool) : World :=
  mkWorld (mkAppState p tl None None false None None StatusReady)
          (mkEnv None [] 1 0 false None None []).

(** One 100 x 100 frame holding [anns], at zoom [z] and pan [(x, y)]. *)
Definition oneFrameProject (anns : list Annotation) (z x y : R) : Project :=
  mkProject 1 "2024-10-17T12:00:00Z" (mkViewport z x y) 0
            [mkFrame "a.png" "" 100 100 0 anns] [].

(** A world in the middle of a drag that began at [ds]. *)
Definition draggingWorld (p : Project) (tl : Tool) (ds : DragStart) : World :=
  mkWorld (mkAppState p tl None None true (Some ds) None StatusReady)
          (mkEnv None [] 1 0 false None None []).

(** A 50 x 50 box at (10, 10), and a select-tool drag that began on its
    [nw] handle. *)
Definition boxC : Annotation :=
  mkAnnotation "c" (ANNOTATION_BBOX 50 50) LABEL_BOAT 10 10.

Definition nwDragWorld : World :=
  draggingWorld (oneFrameProject [boxC] 1 0 0) TOOL_SELECT
    (mkDragStart 10 10 (Some H_nw) (Some (mkHit SpaceFrame "c" 0))).

(** A project file whose [version] is the number 0. *)
Definition fileVersionZero : json :=
  JObj [ ("version", JNum 0); ("frames", JArr []) ]%string.

(** A pan of the viewport to [(x, 0)], as an updater. *)
Definition panTo (x : R) (proj : Project) : Project :=
  withViewport proj (mkViewport (zoom (viewport proj)) x 0).

Definition quietHost : SaveHost := mkSaveHost true true "12:00:00".

(** A project file of one frame with [currentIndex] 5 and zoom 100. *)
Definition fileOutOfRange : json :=
  JObj [ ("version", JNum (IZR 1));
         ("createdAt", JStr "2024-10-17T12:00:00Z");
         ("viewport", JObj [("zoom", JNum 100); ("panX", JNum 0);
                            ("panY", JNum 0)]);
         ("currentIndex", JNum (IZR 5));
         ("frames", JArr [JObj [("name", JStr "a.png"); ("url", JStr "");
                                ("width", JNum 640); ("height", JNum 480);
                                ("rotationDeg", JNum 0);
                                ("annotations", JArr [])]]);
         ("globalBuoys", JArr []) ]%string.

(** A point annotation at (30, 30). *)
Definition pointP : Annotation :=
  mkAnnotation "p" ANNOTATION_POINT LABEL_BOAT 30 30.

(** Two overlapping boxes, [boxB] inserted after [boxA]. *)
Definition boxA : Annotation :=
  mkAnnotation "a" (ANNOTATION_BBOX 20 20) LABEL_BOAT 0 0.

Definition boxB : Annotation :=
  mkAnnotation "b" (ANNOTATION_BBOX 20 20) LABEL_BOAT 10 10.

(** [i] is the first index of [anns] whose annotation has the identifier
    [id], and [a] is that annotation. *)
Definition firstWithId (anns : list Annotation) (id : string) (i : nat)
    (a : Annotation) : Prop :=
  nth_error anns i = Some a /\ ann_id a = id /\
  forall j b, (j < i)%nat -> nth_error anns j = Some b -> ann_id b <> id.

(** No annotation of [anns] has the identifier [id]. *)
Definition noneWithId (anns : list Annotation) (id : string) : Prop :=
  forall a, In a anns -> ann_id a <> id.

(** A box has both sides at least [MIN_BBOX_SIDE]; every box of the
    project, in the frames and among the global buoys, has. *)
Definition boxOk (a : Annotation) : Prop :=
  match ann_type a with
  | ANNOTATION_BBOX w h => MIN_BBOX_SIDE <= w /\ MIN_BBOX_SIDE <= h
  | ANNOTATION_POINT => True
  end.

Definition boxesOk (p : Project) : Prop :=
  Forall boxOk (globalBuoys p) /\
  Forall (fun f => Forall boxOk (annotations f)) (frames p).

(** An event whose handler was created (and, for an [async] handler,
    called) in the world [w0] and runs, or ends, in the world [w]: the
    handler reads the closure of [w0] and writes to [w].  [runOp op w] is
    the case [w0 = w]. *)
Definition runOpFrom (readProject : json -> Project)
    (naturalSort : list ImageData -> list ImageData)
    (w0 : World) (op : Op) (w : World) : World :=
  match op with
  | OpTimePasses host t => advanceTo host t w
  | _ => runAsync (handlerOf readProject naturalSort op) w0 w
  end.

(** ** Writing and restoring a project *)

Definition labelString (l : Label) : string :=
  match l with
  | LABEL_BOAT => "boat"
  | LABEL_BUOY => "buoy"
  end.

Definition typeString (t : AnnotationType) : string :=
  match t with
  | ANNOTATION_POINT => "point"
  | ANNOTATION_BBOX _ _ => "bbox"
  end.

(** [JSON.parse(JSON.stringify(project))] for a project of the component:
    the text that [liveWrite], [saveToLocalStorage] and [downloadJSON] write,
    as [JSON.parse] reads it.  The objects have the fields of the literals
    in [createAnnotation], the import handlers and [createDefaultProject]. *)
Definition jsonOfAnnotation (a : Annotation) : json :=
  JObj ([("id", JStr (ann_id a));
         ("type", JStr (typeString (ann_type a)));
         ("label", JStr (labelString (ann_label a)));
         ("x", JNum (ann_x a));
         ("y", JNum (ann_y a))]%string
        ++ match ann_type a with
           | ANNOTATION_POINT => []
           | ANNOTATION_BBOX w h => [("w", JNum w); ("h", JNum h)]%string
           end).

Definition jsonOfFrame (f : Frame) : json :=
  JObj [("name", JStr (name f));
        ("url", JStr (url f));
        ("width", JNum (width f));
        ("height", JNum (height f));
        ("rotationDeg", JNum (rotationDeg f));
        ("annotations", JArr (map jsonOfAnnotation (annotations f)))]%string.

Definition jsonOfViewport (v : Viewport) : json :=
  JObj [("zoom", JNum (zoom v));
        ("panX", JNum (panX v));
        ("panY", JNum (panY v))]%string.

Definition jsonOfProject (p : Project) : json :=
  JObj [("version", JNum (IZR (version p)));
        ("createdAt", JStr (createdAt p));
        ("viewport", jsonOfViewport (viewport p));
        ("currentIndex", JNum (IZR (currentIndex p)));
        ("frames", JArr (map jsonOfFrame (frames p)));
        ("globalBuoys", JArr (map jsonOfAnnotation (globalBuoys p)))]%string.

(** [loadFromLocalStorage()]: the [radar_project_backup] entry parsed, or
    [null] when there is none or when [localStorage.getItem] throws
    ([getItemOk] is the host's).  The entry is what [saveToLocalStorage]
    wrote, a project. *)
Definition loadFromLocalStorage (getItemOk : bool) (e : Env) : option Project :=
  if getItemOk then localStorageBackup e else None.

(** The effect that runs once when the component mounts:
    [const backup = fileIORef.current.loadFromLocalStorage();
     if (backup && backup.frames && backup.frames.length > 0) { ... }]. *)
Definition restoreOnMount (getItemOk : bool) : Handler unit :=
  (e <- getEnv ;;
   match loadFromLocalStorage getItemOk e with
   | Some backup =>
       if (0 <? Z.of_nat (List.length (frames backup)))%Z
       then setProject backup ;; setStatus StatusRestored
       else ret tt
   | None => ret tt
   end)%handler.

(** The page is loaded again: the state cells and the refs are those of a
    first mount (no file handle; the timers of the old page are gone),
    [localStorage] and the file on disk stay, and the mount effect runs. *)
Definition reload (nowIso : string) (getItemOk : bool) (w : World) : World :=
  let e := env w in
  runHandler (restoreOnMount getItemOk)
    (mkWorld (ui (initialWorld nowIso))
             (mkEnv None [] 1 (clock e) false (localStorageBackup e)
                    (liveFile e) (saveLog e))).

(** No character of [s] is a dot. *)
Fixpoint noDot (s : string) : bool :=
  match s with
  | EmptyString => true
  | String c s' => negb (Ascii.eqb c ".") && noDot s'
  end.

(** ** What the handlers leave behind *)

(** The environment after [triggerSave(proj)]. *)
Definition scheduleSave (proj : Project) (e : Env) : Env :=
  let e1 := match saveTimeoutRef e with
            | Some id => clearTimeout id e
            | None => e
            end in
  setSaveTimeoutRef (Some (nextTimerId e1))
                    (snd (setTimeout proj SAVE_DEBOUNCE_MS e1)).

Definition withProject (s : AppState) (p : Project) : AppState :=
  mkAppState p (tool s) (selection s) (hoveredId s) (isDragging s)
             (dragStart s) (dragCurrent s) (status s).

(** A handler run from the closure [snap] keeps the property [P] of the
    world. *)
Definition preservesAt {A : Type} (P : World -> Prop) (snap : AppState)
    (h : Handler A) : Prop :=
  forall w a w', P w -> h snap w = Some (a, w') -> P w'.

(* ====================================================================== *)
(** * Proofs *)
(* ====================================================================== *)

(** ** Comparisons *)

Lemma Rltb_true (a b : R) : Rltb a b = true <-> a < b.
Proof. unfold Rltb; destruct (Rlt_dec a b); split; auto; discriminate. Qed.

Lemma Rltb_false (a b : R) : Rltb a b = false <-> b <= a.
Proof.
  unfold Rltb; destruct (Rlt_dec a b); split; intros;
    first [lra | discriminate | reflexivity].
Qed.

Lemma Rleb_true (a b : R) : Rleb a b = true <-> a <= b.
Proof. unfold Rleb; destruct (Rle_dec a b); split; auto; discriminate. Qed.

Lemma Rleb_false (a b : R) : Rleb a b = false <-> b < a.
Proof.
  unfold Rleb; destruct (Rle_dec a b); split; intros;
    first [lra | discriminate | reflexivity].
Qed.

Lemma Rgeb_true (a b : R) : Rgeb a b = true <-> b <= a.
Proof. apply Rleb_true. Qed.

Lemma Reqb_true (a b : R) : Reqb a b = true <-> a = b.
Proof. unfold Reqb; destruct (Req_dec_T a b); split; auto; discriminate. Qed.

Lemma Reqb_false (a b : R) : Reqb a b = false <-> a <> b.
Proof.
  unfold Reqb; destruct (Req_dec_T a b); split; intros;
    first [discriminate | congruence | reflexivity].
Qed.

(** [hypot a b < r] is a comparison of squares when [r] is positive. *)
Lemma hypot_lt (a b r : R) : 0 < r -> (hypot a b < r <-> a * a + b * b < r * r).
Proof.
  intros Hr. unfold hypot.
  assert (Hs : 0 <= a * a + b * b) by nra.
  rewrite <- (sqrt_square r) at 1 by lra.
  split; intros H.
  - apply sqrt_lt_0_alt in H. exact H.
  - apply sqrt_lt_1_alt. split; assumption.
Qed.

(** ** C1: the round trip of the coordinate transformer *)

(** A rotation by an angle undone by the rotation by the opposite angle. *)
Lemma rotate_back (a x y : R) :
  let c := cos a in
  let s := sin a in
  let nx := x * c - y * s in
  let ny := x * s + y * c in
  nx * cos (- a) - ny * sin (- a) = x /\
  nx * sin (- a) + ny * cos (- a) = y.
Proof.
  cbv zeta. rewrite cos_neg, sin_neg.
  pose proof (sin2_cos2 a) as H. unfold Rsqr in H.
  split.
  - replace ((x * cos a - y * sin a) * cos a
             - (x * sin a + y * cos a) * - sin a)
      with (x * (sin a * sin a + cos a * cos a)) by ring.
    rewrite H. ring.
  - replace ((x * cos a - y * sin a) * - sin a
             + (x * sin a + y * cos a) * cos a)
      with (y * (sin a * sin a + cos a * cos a)) by ring.
    rewrite H. ring.
Qed.

Lemma opposite_angle (d : R) : (- d * PI) / 180 = - ((d * PI) / 180).
Proof. lra. Qed.

(** [screenToImage] is the inverse of [imageToScreen] for every zoom other
    than 0, whatever the rotation. *)
Lemma screenToImage_imageToScreen_exact (t : CoordinateTransformer) (x y : R) :
  ct_zoom t <> 0 ->
  screenToImage t (px (imageToScreen t x y)) (py (imageToScreen t x y))
  = mkPt x y.
Proof.
  intros Hz. unfold screenToImage, imageToScreen.
  destruct (rotationActive t); cbn [px py].
  - rewrite opposite_angle.
    destruct (rotate_back (ct_rotationDeg t * PI / 180)
                (x - ct_imgW t / 2) (y - ct_imgH t / 2)) as [Hx Hy].
    cbv zeta in Hx, Hy.
    f_equal.
    + match goal with
      | |- ?a * ?c - ?b * ?s + _ = _ =>
          replace a with ((x - ct_imgW t / 2)
                          * cos (ct_rotationDeg t * PI / 180)
                          - (y - ct_imgH t / 2)
                            * sin (ct_rotationDeg t * PI / 180))
            by (field; exact Hz);
          replace b with ((x - ct_imgW t / 2)
                          * sin (ct_rotationDeg t * PI / 180)
                          + (y - ct_imgH t / 2)
                            * cos (ct_rotationDeg t * PI / 180))
            by (field; exact Hz)
      end.
      rewrite Hx. lra.
    + match goal with
      | |- ?a * ?s + ?b * ?c + _ = _ =>
          replace a with ((x - ct_imgW t / 2)
                          * cos (ct_rotationDeg t * PI / 180)
                          - (y - ct_imgH t / 2)
                            * sin (ct_rotationDeg t * PI / 180))
            by (field; exact Hz);
          replace b with ((x - ct_imgW t / 2)
                          * sin (ct_rotationDeg t * PI / 180)
                          + (y - ct_imgH t / 2)
                            * cos (ct_rotationDeg t * PI / 180))
            by (field; exact Hz)
      end.
      rewrite Hy. lra.
  - f_equal; field; exact Hz.
Qed.

(** *** The round trip in floating-point arithmetic *)

(** On exact numbers the methods over any arithmetic are the methods
    above. *)
Lemma exactReals_imageToScreen (t : CoordinateTransformer) (x y : R) :
  imageToScreenIn exactReals (transformerOf t) x y
  = (px (imageToScreen t x y), py (imageToScreen t x y)).
Proof.
  unfold imageToScreenIn, imageToScreen, rotationActiveIn, rotationActive.
  cbn [exactReals transformerOf num_add num_sub num_mul num_div num_neg
       num_cos num_sin num_PI num_2 num_180 num_is_zero tf_imgW tf_imgH
       tf_zoom tf_panX tf_panY tf_rotationDeg tf_rotated].
  destruct (ct_rotated t && negb (Reqb (ct_rotationDeg t) 0)); reflexivity.
Qed.

Lemma exactReals_screenToImage (t : CoordinateTransformer) (x y : R) :
  screenToImageIn exactReals (transformerOf t) x y
  = (px (screenToImage t x y), py (screenToImage t x y)).
Proof.
  unfold screenToImageIn, screenToImage, rotationActiveIn, rotationActive.
  cbn [exactReals transformerOf num_add num_sub num_mul num_div num_neg
       num_cos num_sin num_PI num_2 num_180 num_is_zero tf_imgW tf_imgH
       tf_zoom tf_panX tf_panY tf_rotationDeg tf_rotated].
  destruct (ct_rotated t && negb (Reqb (ct_rotationDeg t) 0)); reflexivity.
Qed.

(** *** The propagation of errors *)

Lemma near_exact (M v : R) : Rabs v <= M -> near M 0 v v.
Proof.
  intros H. split; [exact H |].
  replace (v - v) with 0 by ring. rewrite Rabs_R0. lra.
Qed.

Lemma near_weaken (M e M' e' v' v : R) :
  near M e v' v -> M <= M' -> e <= e' -> near M' e' v' v.
Proof. intros [H1 H2] HM He. split; lra. Qed.

Lemma near_add (Ma ea Mb eb a' a b' b : R) :
  near Ma ea a' a -> near Mb eb b' b ->
  near (Ma + Mb) (ea + eb) (a' + b') (a + b).
Proof.
  intros [Ha Ha'] [Hb Hb']. split.
  - pose proof (Rabs_triang a b). lra.
  - replace (a' + b' - (a + b)) with ((a' - a) + (b' - b)) by ring.
    pose proof (Rabs_triang (a' - a) (b' - b)). lra.
Qed.

Lemma near_sub (Ma ea Mb eb a' a b' b : R) :
  near Ma ea a' a -> near Mb eb b' b ->
  near (Ma + Mb) (ea + eb) (a' - b') (a - b).
Proof.
  intros [Ha Ha'] [Hb Hb']. split.
  - pose proof (Rabs_triang a (- b)) as H. rewrite Rabs_Ropp in H.
    unfold Rminus. lra.
  - replace (a' - b' - (a - b)) with ((a' - a) + - (b' - b)) by ring.
    pose proof (Rabs_triang (a' - a) (- (b' - b))) as H.
    rewrite Rabs_Ropp in H. lra.
Qed.

Lemma near_opp (M e v' v : R) : near M e v' v -> near M e (- v') (- v).
Proof.
  intros [H1 H2]. split.
  - rewrite Rabs_Ropp. exact H1.
  - replace (- v' - - v) with (- (v' - v)) by ring. rewrite Rabs_Ropp.
    exact H2.
Qed.

Lemma near_mul (Ma ea Mb eb a' a b' b : R) :
  near Ma ea a' a -> near Mb eb b' b ->
  near (Ma * Mb) (Ma * eb + Mb * ea + ea * eb) (a' * b') (a * b).
Proof.
  intros [Ha Ha'] [Hb Hb'].
  pose proof (Rabs_pos a) as Pa. pose proof (Rabs_pos b) as Pb.
  pose proof (Rabs_pos (a' - a)) as Pa'. pose proof (Rabs_pos (b' - b)) as Pb'.
  split.
  - rewrite Rabs_mult. apply Rmult_le_compat; assumption.
  - replace (a' * b' - a * b)
      with (a * (b' - b) + b * (a' - a) + (a' - a) * (b' - b)) by ring.
    eapply Rle_trans; [apply Rabs_triang |].
    apply Rplus_le_compat.
    + eapply Rle_trans; [apply Rabs_triang |].
      rewrite !Rabs_mult.
      apply Rplus_le_compat; apply Rmult_le_compat; assumption.
    + rewrite Rabs_mult. apply Rmult_le_compat; assumption.
Qed.

(** A division by an exact number that is at least [d0]. *)
Lemma near_div (M e d0 v' v d : R) :
  near M e v' v -> 0 < d0 -> d0 <= d ->
  near (M / d0) (e / d0) (v' / d) (v / d).
Proof.
  intros [H1 H2] Hd0 Hd.
  assert (Hpos : 0 < d) by lra.
  assert (Hinv : / d <= / d0) by (apply Rinv_le_contravar; assumption).
  assert (Hinv0 : 0 < / d) by (apply Rinv_0_lt_compat; exact Hpos).
  pose proof (Rabs_pos v) as Pv. pose proof (Rabs_pos (v' - v)) as Pv'.
  split.
  - unfold Rdiv. rewrite Rabs_mult, (Rabs_pos_eq (/ d)) by lra.
    apply Rmult_le_compat; lra.
  - replace (v' / d - v / d) with ((v' - v) * / d) by (unfold Rdiv; ring).
    unfold Rdiv. rewrite Rabs_mult, (Rabs_pos_eq (/ d)) by lra.
    apply Rmult_le_compat; lra.
Qed.

Lemma Rabs_sin_le_pos (x : R) : 0 < x -> Rabs (sin x) <= x.
Proof.
  intros Hpos. pose proof (sin_lt_x x Hpos) as H.
  unfold Rabs. destruct (Rcase_abs (sin x)) as [Hs | Hs]; [| lra].
  destruct (Rle_lt_dec x PI) as [Hle | Hgt].
  - pose proof (sin_ge_0 x (Rlt_le _ _ Hpos) Hle). lra.
  - pose proof (SIN_bound x) as [Hb _]. pose proof PI2_1. lra.
Qed.

Lemma Rabs_sin_le (x : R) : Rabs (sin x) <= Rabs x.
Proof.
  destruct (Rtotal_order x 0) as [Hneg | [-> | Hpos]].
  - assert (H : Rabs (sin (- x)) <= - x) by (apply Rabs_sin_le_pos; lra).
    rewrite sin_neg, Rabs_Ropp in H.
    rewrite (Rabs_left x) by lra. exact H.
  - rewrite sin_0, Rabs_R0. lra.
  - rewrite (Rabs_pos_eq x) by lra. apply Rabs_sin_le_pos. exact Hpos.
Qed.

Lemma cos_lipschitz (p q : R) : Rabs (cos p - cos q) <= Rabs (p - q).
Proof.
  rewrite form2. rewrite !Rabs_mult.
  replace (Rabs (-2)) with 2
    by (rewrite Rabs_left; lra).
  pose proof (Rabs_sin_le ((p - q) / 2)) as H1.
  assert (H2 : Rabs (sin ((p + q) / 2)) <= 1).
  { pose proof (SIN_bound ((p + q) / 2)) as [Ha Hb].
    unfold Rabs. destruct (Rcase_abs _); lra. }
  assert (H3 : Rabs ((p - q) / 2) = Rabs (p - q) / 2).
  { unfold Rdiv. rewrite Rabs_mult. rewrite (Rabs_pos_eq (/ 2)) by lra.
    reflexivity. }
  rewrite H3 in H1.
  pose proof (Rabs_pos (sin ((p - q) / 2))) as P1.
  pose proof (Rabs_pos (sin ((p + q) / 2))) as P2.
  nra.
Qed.

Lemma sin_lipschitz (p q : R) : Rabs (sin p - sin q) <= Rabs (p - q).
Proof.
  rewrite form4. rewrite !Rabs_mult.
  replace (Rabs 2) with 2 by (rewrite Rabs_pos_eq; lra).
  pose proof (Rabs_sin_le ((p - q) / 2)) as H1.
  assert (H2 : Rabs (cos ((p + q) / 2)) <= 1).
  { pose proof (COS_bound ((p + q) / 2)) as [Ha Hb].
    unfold Rabs. destruct (Rcase_abs _); lra. }
  assert (H3 : Rabs ((p - q) / 2) = Rabs (p - q) / 2).
  { unfold Rdiv. rewrite Rabs_mult. rewrite (Rabs_pos_eq (/ 2)) by lra.
    reflexivity. }
  rewrite H3 in H1.
  pose proof (Rabs_pos (sin ((p - q) / 2))) as P1.
  pose proof (Rabs_pos (cos ((p + q) / 2))) as P2.
  nra.
Qed.

(** *** The two methods with rounding *)

Section RoundedTransformer.

Variables rnd cosF sinF : R -> R.
Hypothesis Hrnd : roundsToNearest rnd.
Hypothesis Hcos : accurateTo (2 * unit_roundoff) cosF cos.
Hypothesis Hsin : accurateTo (2 * unit_roundoff) sinF sin.

Lemma unit_roundoff_pos : 0 < unit_roundoff.
Proof. unfold unit_roundoff. lra. Qed.

Lemma Rabs_near (M e v' v : R) : near M e v' v -> Rabs v' <= M + e.
Proof.
  intros [H1 H2]. replace v' with (v + (v' - v)) by ring.
  pose proof (Rabs_triang v (v' - v)). lra.
Qed.

Lemma near_rnd (M e v' v : R) :
  near M e v' v -> M + e <= 1e30 ->
  near M (e + unit_roundoff * (M + e) + eta) (rnd v') v.
Proof.
  intros Hn Hb. pose proof (Rabs_near _ _ _ _ Hn) as Hv'.
  destruct Hn as [H1 H2]. split; [exact H1 |].
  replace (rnd v' - v) with ((rnd v' - v') + (v' - v)) by ring.
  pose proof (Rabs_triang (rnd v' - v') (v' - v)) as Ht.
  assert (Hr : Rabs (rnd v' - v') <= unit_roundoff * Rabs v' + eta)
    by (apply Hrnd; lra).
  pose proof unit_roundoff_pos as Hu.
  assert (Hm : unit_roundoff * Rabs v' <= unit_roundoff * (M + e))
    by (apply Rmult_le_compat_l; lra).
  lra.
Qed.

Lemma near_cos (M e r' r : R) :
  near M e r' r -> M + e <= 1 ->
  near 1 (e + 2 * unit_roundoff) (cosF r') (cos r).
Proof.
  intros Hn Hb. pose proof (Rabs_near _ _ _ _ Hn) as Hr'.
  destruct Hn as [H1 H2]. split.
  - pose proof (COS_bound r) as [Ha Hb']. unfold Rabs.
    destruct (Rcase_abs (cos r)); lra.
  - replace (cosF r' - cos r) with ((cosF r' - cos r') + (cos r' - cos r))
      by ring.
    pose proof (Rabs_triang (cosF r' - cos r') (cos r' - cos r)) as Ht.
    pose proof (Hcos r' ltac:(lra)) as Hc.
    pose proof (cos_lipschitz r' r) as Hl. lra.
Qed.

Lemma near_sin (M e r' r : R) :
  near M e r' r -> M + e <= 1 ->
  near 1 (e + 2 * unit_roundoff) (sinF r') (sin r).
Proof.
  intros Hn Hb. pose proof (Rabs_near _ _ _ _ Hn) as Hr'.
  destruct Hn as [H1 H2]. split.
  - pose proof (SIN_bound r) as [Ha Hb']. unfold Rabs.
    destruct (Rcase_abs (sin r)); lra.
  - replace (sinF r' - sin r) with ((sinF r' - sin r') + (sin r' - sin r))
      by ring.
    pose proof (Rabs_triang (sinF r' - sin r') (sin r' - sin r)) as Ht.
    pose proof (Hsin r' ltac:(lra)) as Hs.
    pose proof (sin_lipschitz r' r) as Hl. lra.
Qed.

(** Decides an inequality between numerals. *)
Ltac bound := unfold eta, unit_roundoff; lra.

(** Follows the shape of a computed value down to the values whose error
    is known. *)
Ltac near_build :=
  first
    [ eassumption
    | lazymatch goal with
      | |- near _ _ (rnd _) _ => eapply near_rnd; [near_build | bound]
      | |- near _ _ (cosF _) _ => eapply near_cos; [near_build | bound]
      | |- near _ _ (sinF _) _ => eapply near_sin; [near_build | bound]
      | |- near _ _ (_ + _) _ => eapply near_add; near_build
      | |- near _ _ (_ - _) _ => eapply near_sub; near_build
      | |- near _ _ (_ * _) _ => eapply near_mul; near_build
      | |- near _ _ (_ / 2) _ => eapply (near_div _ _ 2); [near_build | lra | lra]
      | |- near _ _ (_ / 180) _ =>
          eapply (near_div _ _ 180); [near_build | lra | lra]
      | |- near _ _ (_ / _) _ =>
          eapply (near_div _ _ 0.2); [near_build | lra | lra]
      | |- near _ _ (- _) _ => eapply near_opp; near_build
      end ].

Ltac stage := eapply near_weaken; [near_build | bound | bound].

Variable t : CoordinateTransformer.
Hypothesis Ht : inRoundTripRange t.

Lemma near_inputs :
  near 1e5 0 (ct_imgW t) (ct_imgW t) /\ near 1e5 0 (ct_imgH t) (ct_imgH t) /\
  near 32 0 (ct_zoom t) (ct_zoom t) /\
  near 1e7 0 (ct_panX t) (ct_panX t) /\ near 1e7 0 (ct_panY t) (ct_panY t) /\
  near 10 0 (ct_rotationDeg t) (ct_rotationDeg t) /\ near 4 0 PI PI.
Proof.
  destruct Ht as [HW [HH [Hz [HpX [HpY Hr]]]]].
  repeat split; try (replace (_ - _) with 0 by ring; rewrite Rabs_R0; lra);
    try assumption;
    try (unfold Rabs; destruct (Rcase_abs _); lra).
  pose proof PI_4. pose proof PI_RGT_0. rewrite Rabs_pos_eq; lra.
Qed.

Local Abbreviation A := (roundedReals rnd cosF sinF).

Ltac open_methods :=
  unfold imageToScreenIn, imageToScreen, screenToImageIn, screenToImage,
    rotationActiveIn, rotationActive;
  cbn [roundedReals transformerOf num_add num_sub num_mul num_div num_neg
       num_cos num_sin num_PI num_2 num_180 num_is_zero tf_imgW tf_imgH
       tf_zoom tf_panX tf_panY tf_rotationDeg tf_rotated].

(** The error of the computed [imageToScreen], on points within [1e5] of
    the origin. *)
Lemma forward_near (x y : R) :
  Rabs x <= 1e5 -> Rabs y <= 1e5 ->
  near 2.12e7 12e-9 (fst (imageToScreenIn A (transformerOf t) x y))
       (px (imageToScreen t x y)) /\
  near 2.12e7 12e-9 (snd (imageToScreenIn A (transformerOf t) x y))
       (py (imageToScreen t x y)).
Proof.
  intros Hx Hy. apply near_exact in Hx. apply near_exact in Hy.
  destruct near_inputs as [HW [HH [Hz [HpX [HpY [Hr HPI]]]]]].
  assert (Hz0 : 0.2 <= ct_zoom t) by (destruct Ht as [_ [_ [[H _] _]]]; exact H).
  open_methods.
  set (cx' := rnd (ct_imgW t / 2)). set (cy' := rnd (ct_imgH t / 2)).
  assert (Hcx : near 50000 56e-13 cx' (ct_imgW t / 2)) by (unfold cx'; stage).
  assert (Hcy : near 50000 56e-13 cy' (ct_imgH t / 2)) by (unfold cy'; stage).
  destruct (ct_rotated t && negb (Reqb (ct_rotationDeg t) 0));
    cbn [fst snd px py].
  - set (rad' := rnd (rnd (ct_rotationDeg t * rnd PI) / 180)).
    set (rad := ct_rotationDeg t * PI / 180).
    set (x0' := rnd (x - cx')). set (y0' := rnd (y - cy')).
    set (c' := cosF rad'). set (s' := sinF rad').
    set (nx' := rnd (rnd (x0' * c') - rnd (y0' * s'))).
    set (ny' := rnd (rnd (x0' * s') + rnd (y0' * c'))).
    assert (Hrad : near 0.2223 75e-18 rad' rad) by (unfold rad', rad; stage).
    assert (Hc : near 1 30e-17 c' (cos rad)) by (unfold c'; stage).
    assert (Hs : near 1 30e-17 s' (sin rad)) by (unfold s'; stage).
    assert (Hx0 : near 150000 23e-12 x0' (x - ct_imgW t / 2))
      by (unfold x0'; stage).
    assert (Hy0 : near 150000 23e-12 y0' (y - ct_imgH t / 2))
      by (unfold y0'; stage).
    assert (Hnx : near 300000 21e-11 nx'
                    ((x - ct_imgW t / 2) * cos rad - (y - ct_imgH t / 2) * sin rad))
      by (unfold nx'; stage).
    assert (Hny : near 300000 21e-11 ny'
                    ((x - ct_imgW t / 2) * sin rad + (y - ct_imgH t / 2) * cos rad))
      by (unfold ny'; stage).
    split; stage.
  - split; stage.
Qed.

(** The error of the computed [screenToImage], on the screen points that
    [imageToScreen] yields and on approximations of them. *)
Lemma backward_near (sx' sy' sx sy : R) :
  near 2.12e7 12e-9 sx' sx -> near 2.12e7 12e-9 sy' sy ->
  near 3.1215e8 45e-8 (fst (screenToImageIn A (transformerOf t) sx' sy'))
       (px (screenToImage t sx sy)) /\
  near 3.1215e8 45e-8 (snd (screenToImageIn A (transformerOf t) sx' sy'))
       (py (screenToImage t sx sy)).
Proof.
  intros Hsx Hsy.
  destruct near_inputs as [HW [HH [Hz [HpX [HpY [Hr HPI]]]]]].
  assert (Hz0 : 0.2 <= ct_zoom t) by (destruct Ht as [_ [_ [[H _] _]]]; exact H).
  open_methods.
  set (cx' := rnd (ct_imgW t / 2)). set (cy' := rnd (ct_imgH t / 2)).
  assert (Hcx : near 50000 56e-13 cx' (ct_imgW t / 2)) by (unfold cx'; stage).
  assert (Hcy : near 50000 56e-13 cy' (ct_imgH t / 2)) by (unfold cy'; stage).
  set (a1' := rnd (sx' - ct_panX t)). set (b1' := rnd (sy' - ct_panY t)).
  assert (Ha1 : near 3.12e7 16e-9 a1' (sx - ct_panX t)) by (unfold a1'; stage).
  assert (Hb1 : near 3.12e7 16e-9 b1' (sy - ct_panY t)) by (unfold b1'; stage).
  set (a2' := rnd (a1' / ct_zoom t)). set (b2' := rnd (b1' / ct_zoom t)).
  assert (Ha2 : near 1.56e8 98e-9 a2' ((sx - ct_panX t) / ct_zoom t))
    by (unfold a2'; stage).
  assert (Hb2 : near 1.56e8 98e-9 b2' ((sy - ct_panY t) / ct_zoom t))
    by (unfold b2'; stage).
  set (a3' := rnd (a2' - cx')). set (b3' := rnd (b2' - cy')).
  assert (Ha3 : near 1.5605e8 12e-8 a3'
                  ((sx - ct_panX t) / ct_zoom t - ct_imgW t / 2))
    by (unfold a3'; stage).
  assert (Hb3 : near 1.5605e8 12e-8 b3'
                  ((sy - ct_panY t) / ct_zoom t - ct_imgH t / 2))
    by (unfold b3'; stage).
  destruct (ct_rotated t && negb (Reqb (ct_rotationDeg t) 0));
    cbn [fst snd px py].
  - set (rad' := rnd (rnd (- ct_rotationDeg t * rnd PI) / 180)).
    set (rad := - ct_rotationDeg t * PI / 180).
    set (c' := cosF rad'). set (s' := sinF rad').
    assert (Hrad : near 0.2223 75e-18 rad' rad) by (unfold rad', rad; stage).
    assert (Hc : near 1 30e-17 c' (cos rad)) by (unfold c'; stage).
    assert (Hs : near 1 30e-17 s' (sin rad)) by (unfold s'; stage).
    set (mx' := rnd (rnd (a3' * c') - rnd (b3' * s'))).
    set (my' := rnd (rnd (a3' * s') + rnd (b3' * c'))).
    assert (Hmx : near 3.121e8 41e-8 mx'
                    (((sx - ct_panX t) / ct_zoom t - ct_imgW t / 2) * cos rad
                     - ((sy - ct_panY t) / ct_zoom t - ct_imgH t / 2) * sin rad))
      by (unfold mx'; stage).
    assert (Hmy : near 3.121e8 41e-8 my'
                    (((sx - ct_panX t) / ct_zoom t - ct_imgW t / 2) * sin rad
                     + ((sy - ct_panY t) / ct_zoom t - ct_imgH t / 2) * cos rad))
      by (unfold my'; stage).
    split; stage.
  - split; stage.
Qed.

End RoundedTransformer.

(** C1.  The round trip in binary64, within bounds.  Take rounded
    arithmetic: every operation returns its exact result rounded to the
    nearest binary64 number ([roundsToNearest]), and [Math.cos] and
    [Math.sin] are within [2 ^ -52] of the cosine and the sine on
    [[-1, 1]].  For every image with sides of at most [1e5], every zoom in
    [[0.2, 32]], every pan of at most [1e7] in absolute value along each
    axis, every rotation in [[-10, 10]] degrees, either value of the
    rotation flag, and every point with coordinates of at most [1e5] in
    absolute value, [screenToImage] applied to the result of
    [imageToScreen] gives the point back within [1e-6] in each
    coordinate. *)
Theorem C1_round_trip_rounded (rnd cosF sinF : R -> R)
    (t : CoordinateTransformer) (x y : R) :
  roundsToNearest rnd ->
  accurateTo (2 * unit_roundoff) cosF cos ->
  accurateTo (2 * unit_roundoff) sinF sin ->
  inRoundTripRange t ->
  Rabs x <= 1e5 -> Rabs y <= 1e5 ->
  let p := roundTripIn (roundedReals rnd cosF sinF) (transformerOf t) x y in
  Rabs (fst p - x) < 1e-6 /\ Rabs (snd p - y) < 1e-6.
Proof.
  intros Hrnd Hcos Hsin Ht Hx Hy p. subst p. unfold roundTripIn.
  destruct (forward_near rnd cosF sinF Hrnd Hcos Hsin t Ht x y Hx Hy)
    as [Fx Fy].
  destruct (backward_near rnd cosF sinF Hrnd Hcos Hsin t Ht _ _ _ _ Fx Fy)
    as [[_ Bx] [_ By]].
  assert (Hz : ct_zoom t <> 0) by (destruct Ht as [_ [_ [[H _] _]]]; lra).
  rewrite (screenToImage_imageToScreen_exact t x y Hz) in Bx, By.
  cbn [px py] in Bx, By. split; lra.
Qed.

(** A rounding that is always off by the whole unit roundoff, upwards in
    absolute value. *)
Lemma roundsToNearest_worst :
  roundsToNearest (fun v => v * (1 + unit_roundoff)).
Proof.
  intros v _. replace (v * (1 + unit_roundoff) - v) with (unit_roundoff * v)
    by ring.
  rewrite Rabs_mult. pose proof (Rabs_pos v) as Hv.
  assert (Hu : 0 < unit_roundoff) by (unfold unit_roundoff; lra).
  rewrite (Rabs_pos_eq unit_roundoff) by lra.
  assert (He : 0 <= eta) by (unfold eta; nra).
  lra.
Qed.

Lemma accurateTo_itself (f : R -> R) : accurateTo (2 * unit_roundoff) f f.
Proof.
  intros v _. replace (f v - f v) with 0 by ring. rewrite Rabs_R0.
  unfold unit_roundoff. lra.
Qed.

Lemma C1_round_trip_rounded_witness :
  let t := mkTransformer 640 480 2 15 (-7) 5 true in
  let p := roundTripIn (roundedReals (fun v => v * (1 + unit_roundoff)) cos sin)
                       (transformerOf t) 100 200 in
  Rabs (fst p - 100) < 1e-6 /\ Rabs (snd p - 200) < 1e-6.
Proof.
  apply (C1_round_trip_rounded (fun v => v * (1 + unit_roundoff)) cos sin
           (mkTransformer 640 480 2 15 (-7) 5 true) 100 200).
  - exact roundsToNearest_worst.
  - exact (accurateTo_itself cos).
  - exact (accurateTo_itself sin).
  - unfold inRoundTripRange; cbn [ct_imgW ct_imgH ct_zoom ct_panX ct_panY
                                  ct_rotationDeg].
    repeat split; try lra; unfold Rabs; destruct (Rcase_abs _); lra.
  - unfold Rabs; destruct (Rcase_abs _); lra.
  - unfold Rabs; destruct (Rcase_abs _); lra.
Defined.

(** *** The round trip run in binary64 *)

#[local] Set Warnings "-inexact-float".

(** With a pan of [1e12], [imageToScreen] sends the point [(0.1, 0)] to
    the screen abscissa [1e12 + 0.02], which binary64 holds to the nearest
    multiple of [2 ^ -13]; [screenToImage] divides what is left of the
    [0.02] by the zoom [0.2] and returns [0.10009765625].  [Math.cos] and
    [Math.sin] are not called, the rotation being 0. *)
Example far_pan_any_trig (cosF sinF : float -> float) :
  imageToScreenIn (binary64 cosF sinF) farPanned 0.1%float 0%float
  = (1000000000000.02001953125%float, 0%float) /\
  roundTripIn (binary64 cosF sinF) farPanned 0.1%float 0%float
  = (0.10009765625%float, 0%float).
Proof. vm_compute. split; reflexivity. Qed.

(** C1, counterexample.  The law is stated for every pan.  In binary64, on a
    640 x 480 image at zoom 0.2 with the pan [(1e12, 0)] and a rotation of
    0 degrees, the round trip of the point [(0.1, 0)] returns
    [(0.10009765625, 0)]: the abscissa is off by more than [1e-6]. *)
Lemma C1_large_pan_counterexample :
  let p := roundTripIn (binary64 notCalled notCalled) farPanned
                       0.1%float 0%float in
  p = (0.10009765625%float, 0%float) /\
  PrimFloat.ltb 1e-6%float
                (PrimFloat.abs (PrimFloat.sub (fst p) 0.1%float)) = true.
Proof. vm_compute. split; reflexivity. Qed.

(** Within the bounds of the theorem binary64 itself stays within [1e-6]:
    at zoom 0.2 and the pans [1e7] and [-1e7], the round trip of
    [(0.1, 123.456)] is off by less than [4e-9]. *)
Example binary64_round_trip_in_range (cosF sinF : float -> float) :
  let t := mkTransformerOf 640%float 480%float 0.2%float
                           1e7%float (-1e7)%float 0%float true in
  let p := roundTripIn (binary64 cosF sinF) t 0.1%float 123.456%float in
  PrimFloat.ltb (PrimFloat.abs (PrimFloat.sub (fst p) 0.1%float))
                4e-9%float = true /\
  PrimFloat.ltb (PrimFloat.abs (PrimFloat.sub (snd p) 123.456%float))
                4e-9%float = true.
Proof. vm_compute. split; reflexivity. Qed.

#[local] Set Warnings "+inexact-float".

(** ** Running handlers *)

Lemma triggerSave_eq (proj : Project) (snap : AppState) (w : World) :
  triggerSave proj snap w = Some (tt, mkWorld (ui w) (scheduleSave proj (env w))).
Proof. reflexivity. Qed.

Lemma updateProject_eq (u : Project -> Project) (snap : AppState) (w : World) :
  updateProject u snap w
  = Some (tt, mkWorld (withProject (ui w) (u (project snap)))
                      (scheduleSave (u (project snap)) (env w))).
Proof. reflexivity. Qed.

Lemma run_updateProject (u : Project -> Project) (w : World) :
  runHandler (updateProject u) w
  = mkWorld (withProject (ui w) (u (project (ui w))))
            (scheduleSave (u (project (ui w))) (env w)).
Proof. reflexivity. Qed.

Section Preservation.

Variable P : World -> Prop.
Variable snap : AppState.

Lemma preserves_ret {A : Type} (a : A) : preservesAt P snap (ret a).
Proof. intros w a' w' HP H. inversion H; subst. exact HP. Qed.

Lemma preserves_throw {A : Type} : preservesAt P snap (@throw A).
Proof. intros w a w' _ H. discriminate H. Qed.

Lemma preserves_bind {A B : Type} (m : Handler A) (k : A -> Handler B) :
  preservesAt P snap m ->
  (forall a, preservesAt P snap (k a)) ->
  preservesAt P snap (bind m k).
Proof.
  intros Hm Hk w b w' HP H. unfold bind in H.
  destruct (m snap w) as [[a w1] |] eqn:E; [| discriminate].
  eapply Hk; [| exact H]. eapply Hm; eauto.
Qed.

Lemma preserves_closure {A B : Type} (get : AppState -> A) (k : A -> Handler B) :
  preservesAt P snap (k (get snap)) ->
  preservesAt P snap (bind (closure get) k).
Proof. intros Hk w b w' HP H. exact (Hk w b w' HP H). Qed.

Lemma preserves_getEnv {B : Type} (k : Env -> Handler B) :
  (forall e, preservesAt P snap (k e)) ->
  preservesAt P snap (bind getEnv k).
Proof. intros Hk w b w' HP H. exact (Hk (env w) w b w' HP H). Qed.

Lemma preserves_tryCatch (body handler : Handler unit) :
  preservesAt P snap body -> preservesAt P snap handler ->
  preservesAt P snap (tryCatch body handler).
Proof.
  intros Hb Hh w a w' HP H. unfold tryCatch in H.
  destruct (body snap w) as [[a1 w1] |] eqn:E.
  - inversion H; subst. eapply Hb; eauto.
  - eapply Hh; eauto.
Qed.

(** The three kinds of writes: to a cell other than [project], to
    [project], and to the timers through [triggerSave]. *)
Hypothesis P_cell :
  forall f w, (forall s, project (f s) = project s) ->
              P w -> P (mkWorld (f (ui w)) (env w)).

Lemma preserves_setUi (f : AppState -> AppState) :
  (forall s, project (f s) = project s) -> preservesAt P snap (setUi f).
Proof. intros Hf w a w' HP H. inversion H; subst. apply P_cell; assumption. Qed.

Lemma preserves_setTool f : preservesAt P snap (setTool f).
Proof. apply preserves_setUi; reflexivity. Qed.
Lemma preserves_setSelection x : preservesAt P snap (setSelection x).
Proof. apply preserves_setUi; reflexivity. Qed.
Lemma preserves_setHoveredId x : preservesAt P snap (setHoveredId x).
Proof. apply preserves_setUi; reflexivity. Qed.
Lemma preserves_setIsDragging x : preservesAt P snap (setIsDragging x).
Proof. apply preserves_setUi; reflexivity. Qed.
Lemma preserves_setDragStart x : preservesAt P snap (setDragStart x).
Proof. apply preserves_setUi; reflexivity. Qed.
Lemma preserves_setDragCurrent x : preservesAt P snap (setDragCurrent x).
Proof. apply preserves_setUi; reflexivity. Qed.
Lemma preserves_setStatus x : preservesAt P snap (setStatus x).
Proof. apply preserves_setUi; reflexivity. Qed.

(** [G] holds of the projects that may be written to the [project] cell. *)
Variable G : Project -> Prop.

Hypothesis P_project :
  forall p w, G p -> P w -> P (mkWorld (withProject (ui w) p) (env w)).

Hypothesis P_save :
  forall proj w, P w -> P (mkWorld (ui w) (scheduleSave proj (env w))).

Lemma preserves_setProject (p : Project) :
  G p -> preservesAt P snap (setProject p).
Proof.
  intros Hp w a w' HP H. inversion H; subst. apply P_project; assumption.
Qed.

Lemma preserves_triggerSave (proj : Project) :
  preservesAt P snap (triggerSave proj).
Proof.
  intros w a w' HP H. rewrite triggerSave_eq in H. inversion H; subst.
  apply P_save; assumption.
Qed.

Lemma preserves_updateProject (u : Project -> Project) :
  G (u (project snap)) -> preservesAt P snap (updateProject u).
Proof.
  intros Hu w a w' HP H. rewrite updateProject_eq in H. inversion H; subst.
  apply (P_save _ (mkWorld (withProject (ui w) (u (project snap))) (env w))).
  apply P_project; assumption.
Qed.

End Preservation.

Lemma preserves_run (P : World -> Prop) (h : Handler unit) (w : World) :
  preservesAt P (ui w) h -> P w -> P (runHandler h w).
Proof.
  intros Hh HP. unfold runHandler.
  destruct (h (ui w) w) as [[a w'] |] eqn:E; [| exact HP].
  eapply Hh; eauto.
Qed.

Lemma preserves_runAsync (P : World -> Prop) (h : Handler unit) (w0 w : World) :
  preservesAt P (ui w0) h -> P w -> P (runAsync h w0 w).
Proof.
  intros Hh HP. unfold runAsync.
  destruct (h (ui w0) w) as [[a w'] |] eqn:E; [| exact HP].
  eapply Hh; eauto.
Qed.

Create HintDb preserve.

#[local] Hint Resolve preserves_ret preserves_throw preserves_triggerSave
  preserves_setTool preserves_setSelection preserves_setHoveredId
  preserves_setIsDragging preserves_setDragStart preserves_setDragCurrent
  preserves_setStatus : preserve.

(** Splits a handler along its binds, its reads of the closure and its
    case distinctions, down to the writes. *)
Ltac preserve_step :=
  cbv zeta;
  match goal with
  | |- preservesAt _ _ (bind (closure _) _) => apply preserves_closure
  | |- preservesAt _ _ (bind getEnv _) => apply preserves_getEnv; intros ?
  | |- preservesAt _ _ (bind _ _) => apply preserves_bind; [| intros ?]
  | |- preservesAt _ _ (tryCatch _ _) => apply preserves_tryCatch
  | |- preservesAt _ _ (if ?b then _ else _) => destruct b eqn:?
  | |- preservesAt _ _ (match ?x with _ => _ end) => destruct x eqn:?
  | |- preservesAt _ _ _ => solve [eauto with preserve]
  end.

Ltac preserve := repeat preserve_step.

(** Decides the comparisons inside [Rmax] and [Rmin]. *)
Ltac rminmax :=
  unfold Rmax, Rmin;
  repeat match goal with
         | |- context [Rle_dec ?a ?b] =>
             lazymatch a with context [Rle_dec _ _] => fail | _ => idtac end;
             lazymatch b with context [Rle_dec _ _] => fail | _ => idtac end;
             destruct (Rle_dec a b)
         end;
  try lra.


(** ** Lists updated in place *)

Lemma updateNth_length {A : Type} (l : list A) (i : nat) (f : A -> A) :
  List.length (updateNth l i f) = List.length l.
Proof.
  revert i; induction l as [| a l IH]; intros [| i]; cbn; auto.
Qed.

Lemma updateAt_length {A : Type} (l : list A) (i : Z) (f : A -> A) :
  List.length (updateAt l i f) = List.length l.
Proof.
  unfold updateAt. destruct (i <? 0)%Z; auto using updateNth_length.
Qed.

Lemma nth_error_updateNth_same {A : Type} (l : list A) (i : nat) (f : A -> A)
    (a : A) :
  nth_error l i = Some a -> nth_error (updateNth l i f) i = Some (f a).
Proof.
  revert i; induction l as [| b l IH]; intros [| i]; cbn; intros H;
    try discriminate.
  - inversion H; reflexivity.
  - auto.
Qed.

Lemma nth_error_updateNth_other {A : Type} (l : list A) (i j : nat)
    (f : A -> A) :
  i <> j -> nth_error (updateNth l i f) j = nth_error l j.
Proof.
  revert i j; induction l as [| b l IH]; intros [| i] [| j] H; cbn; auto.
  congruence.
Qed.

Lemma findIndex_some {A : Type} (pred : A -> bool) (l : list A) (i : nat) :
  findIndex pred l = Some i ->
  exists a, nth_error l i = Some a /\ pred a = true.
Proof.
  revert i; induction l as [| b l IH]; intros i H; cbn in H; [discriminate |].
  destruct (pred b) eqn:E.
  - inversion H; subst. exists b. auto.
  - destruct (findIndex pred l) as [k |]; [| discriminate].
    inversion H; subst. destruct (IH k eq_refl) as [a [Ha Hp]].
    exists a. auto.
Qed.

(** ** C7: the project invariant *)

Lemma updateAt_not_nil {A : Type} (l : list A) (i : Z) (f : A -> A) :
  updateAt l i f <> [] -> l <> [].
Proof.
  intros H E. apply H. subst l. unfold updateAt.
  destruct (i <? 0)%Z; reflexivity.
Qed.

Lemma invariant_withFrames_updateAt (p : Project) (i : Z) (f : Frame -> Frame) :
  projectInvariant p ->
  projectInvariant (withFrames p (updateAt (frames p) i f)).
Proof.
  intros [Hi Hz]. split; [| exact Hz].
  unfold indexInRange in *. cbn [frames withFrames currentIndex].
  rewrite updateAt_length. intros H. apply Hi.
  eapply updateAt_not_nil; eauto.
Qed.

Lemma invariant_withGlobalBuoys (p : Project) (bs : list Annotation) :
  projectInvariant p -> projectInvariant (withGlobalBuoys p bs).
Proof. intros [Hi Hz]. split; assumption. Qed.

Lemma invariant_withViewport (p : Project) (z x y : R) :
  ZOOM_MIN <= z <= ZOOM_MAX ->
  projectInvariant p -> projectInvariant (withViewport p (mkViewport z x y)).
Proof. intros Hz [Hi _]. split; assumption. Qed.

Lemma invariant_withCurrentIndex (p : Project) (i : Z) :
  (0 <= i < Z.of_nat (List.length (frames p)))%Z ->
  projectInvariant p -> projectInvariant (withCurrentIndex p i).
Proof. intros Hi [_ Hz]. split; [intros _; exact Hi | exact Hz]. Qed.

Lemma invariant_withImportedFrames (p : Project) (fs : list Frame) :
  fs <> [] ->
  projectInvariant p -> projectInvariant (withImportedFrames p fs).
Proof.
  intros Hfs [_ Hz]. split; [| exact Hz].
  intros _. cbn [frames withImportedFrames currentIndex].
  destruct fs; [contradiction | cbn [List.length]; lia].
Qed.

Lemma invariant_default (nowIso : string) :
  projectInvariant (createDefaultProject nowIso).
Proof.
  split.
  - intros H. contradiction H. reflexivity.
  - unfold zoomInRange, ZOOM_MIN, ZOOM_MAX. cbn [createDefaultProject viewport zoom]. lra.
Qed.

(** ** What every handler keeps

    The handlers write to the world in three ways only.  A property [P] of
    the world that survives each of them, for the projects [G] that the
    updaters of the component produce, survives every handler. *)
Section HandlersKeep.

Variable P : World -> Prop.
Variable G : Project -> Prop.

Hypothesis P_cell :
  forall f w, (forall s, project (f s) = project s) ->
              P w -> P (mkWorld (f (ui w)) (env w)).
Hypothesis P_project :
  forall p w, G p -> P w -> P (mkWorld (withProject (ui w) p) (env w)).
Hypothesis P_save :
  forall proj w, P w -> P (mkWorld (ui w) (scheduleSave proj (env w))).

Hypothesis G_frames :
  forall p i f, G p -> G (withFrames p (updateAt (frames p) i f)).
Hypothesis G_buoys : forall p bs, G p -> G (withGlobalBuoys p bs).
Hypothesis G_viewport :
  forall p z x y,
    (zoomInRange p -> ZOOM_MIN <= z <= ZOOM_MAX) ->
    G p -> G (withViewport p (mkViewport z x y)).
Hypothesis G_index :
  forall p i,
    (0 <= i < Z.of_nat (List.length (frames p)))%Z ->
    G p -> G (withCurrentIndex p i).
Hypothesis G_import :
  forall p fs, fs <> [] -> G p -> G (withImportedFrames p fs).

Variable snap : AppState.
Hypothesis Hsnap : G (project snap).

Local Abbreviation keeps h := (preservesAt P snap h).

Lemma keeps_updateFrameAnnotations i anns :
  keeps (updateFrameAnnotations i anns).
Proof. apply (preserves_updateProject P snap G); auto. Qed.

Lemma keeps_updateFrameRotation i r : keeps (updateFrameRotation i r).
Proof. apply (preserves_updateProject P snap G); auto. Qed.

Lemma keeps_updateGlobalBuoys bs : keeps (updateGlobalBuoys bs).
Proof. apply (preserves_updateProject P snap G); auto. Qed.

Lemma keeps_updateViewport z x y :
  (zoomInRange (project snap) -> ZOOM_MIN <= z <= ZOOM_MAX) ->
  keeps (updateViewport z x y).
Proof. intros Hz. apply (preserves_updateProject P snap G); auto. Qed.

Lemma keeps_samezoom x y :
  keeps (updateViewport (zoom (viewport (project snap))) x y).
Proof. apply keeps_updateViewport. auto. Qed.

Hint Resolve keeps_updateFrameAnnotations keeps_updateFrameRotation
  keeps_updateGlobalBuoys keeps_samezoom : preserve.

Lemma keeps_goToFrame index : keeps (goToFrame index).
Proof.
  unfold goToFrame. preserve.
  apply (preserves_updateProject P snap G); auto.
  apply G_index; [| exact Hsnap].
  apply andb_prop in Heqb. destruct Heqb as [H1 H2].
  apply Z.leb_le in H1. apply Z.ltb_lt in H2. lia.
Qed.

Lemma keeps_storeAnnotations g anns : keeps (storeAnnotations g anns).
Proof. unfold storeAnnotations. preserve. Qed.

Hint Resolve keeps_goToFrame keeps_storeAnnotations : preserve.

Lemma keeps_deleteAnnotation : keeps deleteAnnotation.
Proof. unfold deleteAnnotation. preserve. Qed.

Lemma keeps_moveAnnotation id dx dy g : keeps (moveAnnotation id dx dy g).
Proof. unfold moveAnnotation. preserve. Qed.

Lemma keeps_resizeAnnotation id dw dh g : keeps (resizeAnnotation id dw dh g).
Proof. unfold resizeAnnotation. preserve. Qed.

Hint Resolve keeps_deleteAnnotation keeps_moveAnnotation
  keeps_resizeAnnotation : preserve.

Lemma keeps_mouseDown x y : keeps (handleCanvasMouseDown x y).
Proof. unfold handleCanvasMouseDown. preserve. Qed.

Lemma keeps_mouseMove x y : keeps (handleCanvasMouseMove x y).
Proof. unfold handleCanvasMouseMove, resizeDrag. preserve. Qed.

Lemma keeps_mouseUp newId x y : keeps (handleCanvasMouseUp newId x y).
Proof. unfold handleCanvasMouseUp, appendAnnotation. preserve. Qed.

Lemma keeps_mouseLeave : keeps handleCanvasMouseLeave.
Proof. unfold handleCanvasMouseLeave. preserve. Qed.

Lemma zoom_in_range (z factor : R) :
  ZOOM_MIN <= Rmax ZOOM_MIN (Rmin ZOOM_MAX (z * factor)) <= ZOOM_MAX.
Proof. unfold ZOOM_MIN, ZOOM_MAX. rminmax. Qed.

Lemma keeps_wheel deltaY : keeps (handleWheel deltaY).
Proof.
  unfold handleWheel. preserve.
  apply keeps_updateViewport. intros _. unfold wheelViewport. cbn [zoom].
  apply zoom_in_range.
Qed.

Lemma keeps_keySwitch e f : keeps (keySwitch e (project snap) f).
Proof.
  unfold keySwitch. preserve.
  - apply keeps_updateViewport. unfold zoomInRange, ZOOM_MIN, ZOOM_MAX.
    intros Hz. rminmax.
  - apply keeps_updateViewport. unfold zoomInRange, ZOOM_MIN, ZOOM_MAX.
    intros Hz. rminmax.
Qed.

Hint Resolve keeps_keySwitch : preserve.

Lemma keeps_keyDown e : keeps (handleKeyDown e).
Proof. unfold handleKeyDown, handleBackupDownload. preserve. Qed.

Lemma keeps_spaceDown : keeps handleSpaceDown.
Proof. unfold handleSpaceDown. preserve. Qed.

Lemma keeps_spaceUp : keeps handleSpaceUp.
Proof. unfold handleSpaceUp. preserve. Qed.

Lemma exp_in_range (value : R) :
  ln ZOOM_MIN <= value <= ln ZOOM_MAX ->
  ZOOM_MIN <= exp value <= ZOOM_MAX.
Proof.
  intros [Hlo Hhi].
  assert (Hmin : 0 < ZOOM_MIN) by (unfold ZOOM_MIN; lra).
  assert (Hmax : 0 < ZOOM_MAX) by (unfold ZOOM_MAX; lra).
  split.
  - rewrite <- (exp_ln ZOOM_MIN Hmin).
    destruct Hlo as [Hlt | Heq];
      [left; apply exp_increasing; exact Hlt | right; rewrite Heq; reflexivity].
  - rewrite <- (exp_ln ZOOM_MAX Hmax).
    destruct Hhi as [Hlt | Heq];
      [left; apply exp_increasing; exact Hlt | right; rewrite Heq; reflexivity].
Qed.

Lemma keeps_zoomSlider value :
  ln ZOOM_MIN <= value <= ln ZOOM_MAX -> keeps (handleZoomSlider value).
Proof.
  intros Hv. unfold handleZoomSlider. preserve.
  apply keeps_updateViewport. intros _. apply exp_in_range, Hv.
Qed.

Lemma keeps_zoomReset : keeps handleZoomReset.
Proof.
  unfold handleZoomReset. apply keeps_updateViewport.
  intros _. unfold ZOOM_MIN, ZOOM_MAX. lra.
Qed.

Lemma keeps_rotationSlider value : keeps (handleRotationSlider value).
Proof. unfold handleRotationSlider. preserve. Qed.

Lemma keeps_rotationInput value : keeps (handleRotationInput value).
Proof. unfold handleRotationInput. preserve. Qed.

Lemma keeps_import (fs : list Frame) :
  fs <> [] -> keeps (setProject (withImportedFrames (project snap) fs)).
Proof. intros Hfs. apply (preserves_setProject P snap G); auto. Qed.

Lemma keeps_openFile outcome : keeps (handleOpenFile outcome).
Proof.
  unfold handleOpenFile, clickHiddenInput. preserve.
  apply keeps_import. discriminate.
Qed.

Lemma keeps_fileInput file : keeps (handleFileInputChange file).
Proof.
  unfold handleFileInputChange. preserve.
  apply keeps_import. discriminate.
Qed.

Lemma keeps_folderInput files : keeps (handleFolderInputChange files).
Proof.
  unfold handleFolderInputChange. preserve.
  apply keeps_import. discriminate.
Qed.

Lemma keeps_openFolder naturalSort outcome :
  keeps (handleOpenFolder naturalSort outcome).
Proof.
  unfold handleOpenFolder, clickHiddenInput. preserve.
  apply keeps_import. discriminate.
Qed.

Lemma keeps_installProject readProject v :
  (validProjectStructure v = Some true -> G (readProject v)) ->
  keeps (installProject readProject v).
Proof.
  intros Hv. unfold installProject.
  destruct (validProjectStructure v) as [[|] |]; preserve.
  apply (preserves_setProject P snap G); auto.
Qed.

Lemma keeps_loadProject readProject outcome :
  (forall p, loadedBy readProject (OpLoadProject outcome) = Some p -> G p) ->
  keeps (handleLoadProject readProject outcome).
Proof.
  intros Hload. unfold handleLoadProject, clickHiddenInput.
  destruct outcome as [| abortError | [message | v]]; preserve.
  apply keeps_installProject. intros Hv. apply Hload.
  cbn [loadedBy]. rewrite Hv. reflexivity.
Qed.

Lemma keeps_projectFileInput readProject file :
  (forall p, loadedBy readProject (OpProjectFileInput file) = Some p -> G p) ->
  keeps (handleProjectFileInput readProject file).
Proof.
  intros Hload. unfold handleProjectFileInput.
  destruct file as [[message | v] |]; preserve.
  apply keeps_installProject. intros Hv. apply Hload.
  cbn [loadedBy]. rewrite Hv. reflexivity.
Qed.

(** Every handler of an event keeps [P], a load provided the project it
    installs is in [G]. *)
Lemma keeps_handlerOf readProject naturalSort op :
  hostAllows op ->
  (forall p, loadedBy readProject op = Some p -> G p) ->
  keeps (handlerOf readProject naturalSort op).
Proof.
  intros Hhost Hload. destruct op; cbn [handlerOf].
  - apply keeps_goToFrame.
  - apply keeps_keyDown.
  - apply keeps_spaceDown.
  - apply keeps_spaceUp.
  - apply keeps_wheel.
  - apply keeps_zoomSlider. exact Hhost.
  - apply keeps_zoomReset.
  - apply keeps_rotationSlider.
  - apply keeps_rotationInput.
  - apply keeps_mouseDown.
  - apply keeps_mouseMove.
  - apply keeps_mouseUp.
  - apply keeps_mouseLeave.
  - apply keeps_openFile.
  - apply keeps_fileInput.
  - apply keeps_folderInput.
  - apply keeps_openFolder.
  - apply keeps_loadProject. exact Hload.
  - apply keeps_projectFileInput. exact Hload.
  - apply preserves_ret.
Qed.

End HandlersKeep.

Lemma saveCallback_project host proj w :
  project (ui (saveCallback host proj w)) = project (ui w).
Proof. reflexivity. Qed.

Lemma fireDue_project host ts w :
  project (ui (fireDue host ts w)) = project (ui w).
Proof.
  revert w; induction ts as [| t ts IH]; intros w; cbn [fireDue]; auto.
  destruct (timer_due t <=? clock (env w))%Z; rewrite IH; reflexivity.
Qed.

Lemma advanceTo_project host t w :
  project (ui (advanceTo host t w)) = project (ui w).
Proof. unfold advanceTo. cbv zeta. rewrite fireDue_project. reflexivity. Qed.

(** Every event keeps the invariant, a load provided the project it
    installs satisfies it. *)
Lemma runOp_invariant readProject naturalSort op w :
  hostAllows op ->
  (forall p, loadedBy readProject op = Some p -> projectInvariant p) ->
  projectInvariant (project (ui w)) ->
  projectInvariant (project (ui (runOp readProject naturalSort op w))).
Proof.
  intros Hhost Hload Hinv.
  destruct op;
    try (cbn [runOp]; rewrite advanceTo_project; exact Hinv);
    apply (preserves_run (fun w => projectInvariant (project (ui w))));
    try exact Hinv;
    apply (keeps_handlerOf (fun w => projectInvariant (project (ui w)))
             projectInvariant);
    try assumption;
    try (intros; cbn [ui project]; auto; fail).
  all: first [ intros f0 w0 Hf0 HP; cbn [ui]; rewrite Hf0; exact HP
             | intros; apply invariant_withFrames_updateAt; assumption
             | intros; apply invariant_withGlobalBuoys; assumption
             | intros p0 z x y Hz Hp; apply invariant_withViewport;
               [apply Hz; apply Hp | exact Hp]
             | intros; apply invariant_withCurrentIndex; assumption
             | intros; apply invariant_withImportedFrames; assumption ].
Qed.

(** C7, as the code has it.  In every state reached by frame navigation,
    zoom changes (wheel, keyboard, slider), viewport reset, the other
    pointer and keyboard events, image import and the passing of time, and
    by loads of project files that themselves satisfy the invariant,
    [0 <= currentIndex < frames.length] holds whenever there are frames and
    the zoom lies in [[0.2, 32]]. *)
Theorem C7_invariant_with_sound_files readProject naturalSort w :
  reachableWithSoundFiles readProject naturalSort w ->
  projectInvariant (project (ui w)).
Proof.
  induction 1 as [nowIso | w op Hreach IH Hhost Hload].
  - apply invariant_default.
  - apply runOp_invariant; assumption.
Qed.

Lemma C7_invariant_with_sound_files_witness :
  projectInvariant
    (project (ui (runOp projectView (fun l => l) (OpWheel 1)
                    (runOp projectView (fun l => l)
                       (OpFileInput (Some (inl (mkImageData "a.png" "" 640 480))))
                       (initialWorld ""))))).
Proof.
  apply (C7_invariant_with_sound_files projectView (fun l => l)).
  apply sound_step; [apply sound_step; [apply sound_init | exact I |]
                    | exact I |];
    intros p Hp; discriminate Hp.
Defined.

Lemma asInteger_IZR (z : Z) : asInteger (IZR z) = Some z.
Proof.
  unfold asInteger.
  assert (Hup : up (IZR z) = (z + 1)%Z).
  { symmetry. apply tech_up; rewrite plus_IZR; lra. }
  rewrite Hup. replace (z + 1 - 1)%Z with z by lia.
  destruct (Req_dec_T (IZR z) (IZR z)); [reflexivity | contradiction].
Qed.

Lemma projectView_fileOutOfRange :
  projectView fileOutOfRange
  = mkProject 1 "2024-10-17T12:00:00Z" (mkViewport 100 0 0) 5
              [mkFrame "a.png" "" 640 480 0 []] [].
Proof.
  unfold projectView, projectOfJson, fileOutOfRange, integerField, numberField,
    stringField, arrayField, fieldOf.
  cbn [lookupField String.eqb Ascii.eqb Bool.eqb obind].
  rewrite !asInteger_IZR.
  reflexivity.
Qed.

Lemma valid_fileOutOfRange : validProjectStructure fileOutOfRange = Some true.
Proof.
  unfold validProjectStructure, fileOutOfRange, getProperty.
  cbn [lookupField String.eqb Ascii.eqb Bool.eqb truthy isArray].
  assert (H : Reqb (IZR 1) 0 = false) by (apply Reqb_false; lra).
  rewrite H. reflexivity.
Qed.

(** C7 as stated fails: a project file that passes the structure check is
    installed with the [currentIndex] and the zoom it holds. *)
Lemma C7_load_breaks_invariant :
  exists w,
    reachable projectView (fun l => l) w /\
    frames (project (ui w)) <> [] /\
    ~ ((0 <= currentIndex (project (ui w))
           < Z.of_nat (List.length (frames (project (ui w)))))%Z /\
       ZOOM_MIN <= zoom (viewport (project (ui w))) <= ZOOM_MAX).
Proof.
  exists (runOp projectView (fun l => l)
            (OpProjectFileInput (Some (ParsedValue fileOutOfRange)))
            (initialWorld "")).
  split; [apply reachable_step; [apply reachable_init | exact I] |].
  assert (Hp : project (ui (runOp projectView (fun l => l)
                              (OpProjectFileInput (Some (ParsedValue fileOutOfRange)))
                              (initialWorld "")))
               = projectView fileOutOfRange).
  { cbn [runOp handlerOf]. unfold runHandler, handleProjectFileInput, tryCatch,
      installProject.
    rewrite valid_fileOutOfRange. reflexivity. }
  rewrite Hp, projectView_fileOutOfRange. cbn [frames currentIndex viewport zoom].
  split; [discriminate |].
  intros [[_ H] _]. cbn [List.length] in H. lia.
Qed.

(** ** C2: wheel zoom *)

Lemma centerOnScreen_eq (f : Frame) (v : Viewport) :
  centerOnScreen f v
  = mkPt (width f / 2 * zoom v + panX v) (height f / 2 * zoom v + panY v).
Proof.
  unfold centerOnScreen, imageToScreen.
  destruct (rotationActive _); cbn [ct_imgW ct_imgH ct_zoom ct_panX ct_panY];
    f_equal; ring.
Qed.

Lemma run_handleWheel (w : World) (f : Frame) (deltaY : R) :
  currentFrame (project (ui w)) = Some f ->
  project (ui (runHandler (handleWheel deltaY) w))
  = withViewport (project (ui w)) (wheelViewport (project (ui w)) f deltaY).
Proof.
  intros Hf. unfold runHandler, handleWheel, bind, closure.
  rewrite Hf. reflexivity.
Qed.

Lemma wheelViewport_eq (p : Project) (f : Frame) (deltaY : R) :
  let z := zoom (viewport p) in
  let z' := Rmax ZOOM_MIN (Rmin ZOOM_MAX (z * wheelFactor deltaY)) in
  wheelViewport p f deltaY
  = mkViewport z'
      (panX (viewport p)
       + (width f / 2 * z + panX (viewport p) - width f / 2 * z'))
      (panY (viewport p)
       + (height f / 2 * z + panY (viewport p) - height f / 2 * z')).
Proof.
  cbv zeta. unfold wheelViewport.
  pose proof (centerOnScreen_eq f (viewport p)) as H1.
  pose proof (centerOnScreen_eq f
                (mkViewport (Rmax ZOOM_MIN
                               (Rmin ZOOM_MAX
                                  (zoom (viewport p) * wheelFactor deltaY)))
                            0 0)) as H2.
  unfold centerOnScreen in H1, H2. cbn [zoom panX panY] in H2.
  cbv zeta. rewrite H1, H2. cbn [px py]. f_equal; ring.
Qed.

(** What [handleWheel] does on a loaded frame, for every zoom, pan and
    rotation.  The zoom is the old zoom times 1.1 ([deltaY <= 0]) or times
    0.9 ([deltaY > 0]), clamped to [[0.2, 32]].  The new pan is
    [panX + (screenCenterX - newScreenX)], where [screenCenterX] was
    computed with the old pan and [newScreenX] with pan 0: the old pan
    enters twice, and the centre of the image moves on the screen by exactly
    the old pan. *)
Lemma wheel_displaces_centre (w : World) (f : Frame) (deltaY : R) :
  currentFrame (project (ui w)) = Some f ->
  let v := viewport (project (ui w)) in
  let v' := viewport (project (ui (runHandler (handleWheel deltaY) w))) in
  (deltaY <= 0 -> zoom v' = Rmax ZOOM_MIN (Rmin ZOOM_MAX (zoom v * 1.1))) /\
  (0 < deltaY -> zoom v' = Rmax ZOOM_MIN (Rmin ZOOM_MAX (zoom v * 0.9))) /\
  panX v' = 2 * panX v + width f / 2 * (zoom v - zoom v') /\
  panY v' = 2 * panY v + height f / 2 * (zoom v - zoom v') /\
  centerOnScreen f v'
  = mkPt (px (centerOnScreen f v) + panX v) (py (centerOnScreen f v) + panY v).
Proof.
  intros Hf v v'. subst v v'. rewrite (run_handleWheel w f deltaY Hf).
  cbn [viewport withViewport]. rewrite wheelViewport_eq. cbn [zoom panX panY].
  unfold wheelFactor, Rgtb.
  split; [| split; [| split; [| split]]].
  - intros Hd. apply Rltb_false in Hd. rewrite Hd. reflexivity.
  - intros Hd. apply Rltb_true in Hd. rewrite Hd. reflexivity.
  - ring.
  - ring.
  - rewrite !centerOnScreen_eq. cbn [zoom panX panY px py]. f_equal; ring.
Qed.

(** C2 at a failing input.  One 100 x 100 frame at zoom 1 and pan (10, 0):
    the centre of the image is at (60, 50) on the screen.  A wheel event
    that zooms out sets the viewport to zoom 0.9 and pan (25, 5), and the
    centre is then at (70, 50): it has moved by 10 px, the old pan, where
    the specification (and the comment in the handler) has it stay. *)
Theorem C2_wheel_moves_centre :
  let w := worldOf (oneFrameProject [] 1 10 0) TOOL_SELECT in
  let f := mkFrame "a.png" "" 100 100 0 [] in
  let v := viewport (project (ui w)) in
  let v' := viewport (project (ui (runHandler (handleWheel 1) w))) in
  v' = mkViewport 0.9 25 5 /\
  centerOnScreen f v = mkPt 60 50 /\
  centerOnScreen f v' = mkPt 70 50 /\
  ~ Rabs (px (centerOnScreen f v') - px (centerOnScreen f v)) < 1.
Proof.
  cbv zeta.
  destruct (wheel_displaces_centre
              (worldOf (oneFrameProject [] 1 10 0) TOOL_SELECT)
              (mkFrame "a.png" "" 100 100 0 []) 1 eq_refl)
    as [_ [Hz [Hx [Hy Hc]]]].
  cbv zeta in Hz, Hx, Hy, Hc.
  cbn [worldOf ui project oneFrameProject viewport zoom panX panY width height]
    in Hz, Hx, Hy, Hc.
  assert (Hz' : Rmax ZOOM_MIN (Rmin ZOOM_MAX (1 * 0.9)) = 0.9)
    by (unfold ZOOM_MIN, ZOOM_MAX; rminmax).
  rewrite Hz' in Hz by lra. specialize (Hz ltac:(lra)).
  rewrite Hz in Hx, Hy.
  assert (Hbefore : centerOnScreen (mkFrame "a.png" "" 100 100 0 [])
                      (mkViewport 1 10 0) = mkPt 60 50).
  { rewrite centerOnScreen_eq. cbn [width height zoom panX panY]. f_equal; lra. }
  cbn [worldOf ui project oneFrameProject viewport].
  rewrite Hbefore in Hc. cbn [px py] in Hc.
  rewrite Hc, Hbefore. cbn [px py].
  split; [| split; [reflexivity | split]].
  - destruct (viewport _) as [z x y]. cbn [zoom panX panY] in *.
    subst z. f_equal; lra.
  - f_equal; lra.
  - replace (60 + 10 - 60) with 10 by lra. rewrite Rabs_pos_eq; lra.
Qed.

(** ** C3: hit testing *)

Lemma hitsAnnotation_isHit (a : Annotation) (x y : R) :
  hitsAnnotation a x y = true <-> isHit a (mkPt x y).
Proof.
  unfold hitsAnnotation, isHit. cbn [px py].
  destruct (ann_type a) as [| w h].
  - cbv zeta. unfold hypot. apply Rltb_true.
  - rewrite !andb_true_iff, !Rgeb_true, !Rltb_true. tauto.
Qed.

Lemma not_hitsAnnotation (a : Annotation) (x y : R) :
  hitsAnnotation a x y = false -> ~ isHit a (mkPt x y).
Proof.
  intros H Hhit. apply hitsAnnotation_isHit in Hhit. congruence.
Qed.

(** What the loop returns after visiting the indices below [n], from the
    highest down. *)
Lemma scanAnnotations_spec (space : Space) (anns : list Annotation) (x y : R)
    (n : nat) :
  match scanAnnotations space anns x y n with
  | Some hit =>
      hit_type hit = space /\ (hit_index hit < n)%nat /\
      exists a,
        nth_error anns (hit_index hit) = Some a /\ hit_id hit = ann_id a /\
        isHit a (mkPt x y) /\
        forall j b, (hit_index hit < j < n)%nat ->
                    nth_error anns j = Some b -> ~ isHit b (mkPt x y)
  | None =>
      forall j b, (j < n)%nat ->
                  nth_error anns j = Some b -> ~ isHit b (mkPt x y)
  end.
Proof.
  induction n as [| n IH]; cbn [scanAnnotations].
  - intros j b Hj. lia.
  - destruct (nth_error anns n) as [ann |] eqn:Hn.
    + destruct (hitsAnnotation ann x y) eqn:Hhit.
      * cbn [hit_type hit_index hit_id]. split; [reflexivity |].
        split; [lia |]. exists ann.
        split; [exact Hn |]. split; [reflexivity |].
        split; [apply hitsAnnotation_isHit; exact Hhit |].
        intros j b Hj. lia.
      * destruct (scanAnnotations space anns x y n) as [hit |].
        -- destruct IH as [Ht [Hi [a [Ha [Hid [Hh Hrest]]]]]].
           split; [exact Ht |]. split; [lia |]. exists a.
           repeat (split; [assumption |]).
           intros j b Hj Hb.
           destruct (Nat.eq_dec j n) as [-> | Hne].
           ++ rewrite Hn in Hb. inversion Hb; subst.
              apply not_hitsAnnotation; exact Hhit.
           ++ apply (Hrest j b); [lia | exact Hb].
        -- intros j b Hj Hb.
           destruct (Nat.eq_dec j n) as [-> | Hne].
           ++ rewrite Hn in Hb. inversion Hb; subst.
              apply not_hitsAnnotation; exact Hhit.
           ++ apply (IH j b); [lia | exact Hb].
    + destruct (scanAnnotations space anns x y n) as [hit |].
      * destruct IH as [Ht [Hi [a [Ha [Hid [Hh Hrest]]]]]].
        split; [exact Ht |]. split; [lia |]. exists a.
        repeat (split; [assumption |]).
        intros j b Hj Hb.
        destruct (Nat.eq_dec j n) as [-> | Hne]; [congruence |].
        apply (Hrest j b); [lia | exact Hb].
      * intros j b Hj Hb.
        destruct (Nat.eq_dec j n) as [-> | Hne]; [congruence |].
        apply (IH j b); [lia | exact Hb].
Qed.

Lemma nth_error_lt {A : Type} (l : list A) (j : nat) (a : A) :
  nth_error l j = Some a -> (j < List.length l)%nat.
Proof. intros H. apply nth_error_Some. congruence. Qed.

(** The scan of a whole list finds its last hit, or there is none. *)
Lemma scanAnnotations_all (space : Space) (anns : list Annotation) (p : Pt) :
  match scanAnnotations space anns (px p) (py p) (List.length anns) with
  | Some hit =>
      hit_type hit = space /\
      exists a, lastHit anns p (hit_index hit) a /\ hit_id hit = ann_id a
  | None => noneHit anns p
  end.
Proof.
  pose proof (scanAnnotations_spec space anns (px p) (py p)
                (List.length anns)) as H.
  destruct p as [x y]. cbn [px py] in *.
  destruct (scanAnnotations space anns x y (List.length anns)) as [hit |].
  - destruct H as [Ht [Hi [a [Ha [Hid [Hh Hrest]]]]]].
    split; [exact Ht |]. exists a. split; [| exact Hid].
    split; [exact Ha |]. split; [exact Hh |].
    intros j b Hj Hb. apply (Hrest j b); [| exact Hb].
    split; [exact Hj | eapply nth_error_lt; exact Hb].
  - intros j b Hb. apply (H j b); [eapply nth_error_lt |]; exact Hb.
Qed.

(** C3.  With a current frame, the hit test maps the display point with
    the frame-rotated transformer and returns the last-inserted frame
    annotation it hits (points by distance below 10, boxes by containment
    with the minimum edges included and the maximum edges excluded); only
    when no frame annotation is hit does it map the point with the
    non-rotated transformer and return the last-inserted global annotation
    hit, or nothing. *)
Theorem C3_hit_test (p : Project) (f : Frame) (screenX screenY : R) :
  currentFrame p = Some f ->
  let rotated :=
    mkTransformer (width f) (height f) (zoom (viewport p)) (panX (viewport p))
                  (panY (viewport p)) (rotationDeg f) true in
  let nonRotated :=
    mkTransformer (width f) (height f) (zoom (viewport p)) (panX (viewport p))
                  (panY (viewport p)) 0 false in
  let img := screenToImage rotated screenX screenY in
  let buoy := screenToImage nonRotated screenX screenY in
  match getAnnotationAtPoint p screenX screenY with
  | Some hit =>
      (hit_type hit = SpaceFrame /\
       exists a, lastHit (annotations f) img (hit_index hit) a /\
                 hit_id hit = ann_id a)
      \/
      (hit_type hit = SpaceGlobal /\
       noneHit (annotations f) img /\
       exists a, lastHit (globalBuoys p) buoy (hit_index hit) a /\
                 hit_id hit = ann_id a)
  | None => noneHit (annotations f) img /\ noneHit (globalBuoys p) buoy
  end.
Proof.
  intros Hf. cbv zeta. unfold getAnnotationAtPoint. rewrite Hf. cbv zeta.
  fold (frameTransformer p f). fold (buoyTransformer p f).
  pose proof (scanAnnotations_all SpaceFrame (annotations f)
                (screenToImage (frameTransformer p f) screenX screenY)) as H1.
  pose proof (scanAnnotations_all SpaceGlobal (globalBuoys p)
                (screenToImage (buoyTransformer p f) screenX screenY)) as H2.
  destruct (scanAnnotations SpaceFrame _ _ _ _) as [hit |].
  - left. exact H1.
  - destruct (scanAnnotations SpaceGlobal _ _ _ _) as [hit |].
    + right. destruct H2 as [Ht Ha]. auto.
    + auto.
Qed.

Lemma C3_hit_test_witness :
  let p := oneFrameProject [boxA; boxB] 1 0 0 in
  let f := mkFrame "a.png" "" 100 100 0 [boxA; boxB] in
  let rotated := mkTransformer 100 100 1 0 0 0 true in
  let nonRotated := mkTransformer 100 100 1 0 0 0 false in
  let img := screenToImage rotated 15 15 in
  let buoy := screenToImage nonRotated 15 15 in
  match getAnnotationAtPoint p 15 15 with
  | Some hit =>
      (hit_type hit = SpaceFrame /\
       exists a, lastHit (annotations f) img (hit_index hit) a /\
                 hit_id hit = ann_id a)
      \/
      (hit_type hit = SpaceGlobal /\
       noneHit (annotations f) img /\
       exists a, lastHit (globalBuoys p) buoy (hit_index hit) a /\
                 hit_id hit = ann_id a)
  | None => noneHit (annotations f) img /\ noneHit (globalBuoys p) buoy
  end.
Proof.
  apply (C3_hit_test (oneFrameProject [boxA; boxB] 1 0 0)
           (mkFrame "a.png" "" 100 100 0 [boxA; boxB]) 15 15).
  reflexivity.
Defined.

(** Evaluates the handlers and the list and string functions, and leaves
    the operations on reals as they are. *)
Ltac reval :=
  cbv - [Rplus Rminus Rmult Rdiv Rinv Ropp IZR Rlt_dec Rle_dec Req_dec_T
         Rmax Rmin Rabs sqrt cos sin PI exp ln up Rlt Rle Rgt Rge].

(** Decides the comparisons of reals in the goal, the innermost first. *)
Ltac no_decision t :=
  lazymatch t with
  | context [Rlt_dec _ _] => fail
  | context [Rle_dec _ _] => fail
  | context [Req_dec_T _ _] => fail
  | _ => idtac
  end.

Ltac rdecide_step :=
  match goal with
  | |- context [Rlt_dec ?a ?b] =>
      no_decision a; no_decision b;
      destruct (Rlt_dec a b); try (exfalso; lra)
  | |- context [Rle_dec ?a ?b] =>
      no_decision a; no_decision b;
      destruct (Rle_dec a b); try (exfalso; lra)
  | |- context [Req_dec_T ?a ?b] =>
      no_decision a; no_decision b;
      destruct (Req_dec_T a b); try (exfalso; lra)
  end;
  cbv beta iota zeta.

Ltac rdecide := repeat rdecide_step.

(** Of two overlapping boxes the one inserted later is returned. *)
Example hit_test_overlapping_boxes :
  getAnnotationAtPoint (oneFrameProject [boxA; boxB] 1 0 0) 15 15
  = Some (mkHit SpaceFrame "b" 1).
Proof. reval. rdecide. reflexivity. Qed.

Example hit_test_first_box_only :
  getAnnotationAtPoint (oneFrameProject [boxA; boxB] 1 0 0) 5 5
  = Some (mkHit SpaceFrame "a" 0).
Proof. reval. rdecide. reflexivity. Qed.

(** ** C4: the box-tool gesture *)

Lemma currentFrame_updateAt (p : Project) (f : Frame) (g : Frame -> Frame) :
  currentFrame p = Some f ->
  currentFrame (withFrames p (updateAt (frames p) (currentIndex p) g))
  = Some (g f).
Proof.
  unfold currentFrame, frameAt, updateAt.
  cbn [currentIndex frames withFrames].
  destruct (currentIndex p <? 0)%Z; [discriminate |].
  apply nth_error_updateNth_same.
Qed.

(** The annotations of a space after its list has been replaced. *)
Lemma annotationsOf_replaced (p : Project) (f : Frame) (isGlobal : bool)
    (anns : list Annotation) :
  currentFrame p = Some f ->
  annotationsOf
    (if isGlobal then withGlobalBuoys p anns
     else withFrames p (updateAt (frames p) (currentIndex p)
                                 (fun f => withAnnotations f anns)))
    isGlobal
  = anns.
Proof.
  intros Hf. destruct isGlobal; unfold annotationsOf; [reflexivity |].
  rewrite (currentFrame_updateAt p f _ Hf). reflexivity.
Qed.

Lemma run_storeAnnotations (w : World) (isGlobal : bool)
    (anns : list Annotation) :
  project (ui (runHandler (storeAnnotations isGlobal anns) w))
  = if isGlobal then withGlobalBuoys (project (ui w)) anns
    else withFrames (project (ui w))
           (updateAt (frames (project (ui w))) (currentIndex (project (ui w)))
                     (fun f => withAnnotations f anns)).
Proof. destruct isGlobal; reflexivity. Qed.

(** The project after a drawing gesture ends. *)
Lemma run_mouseUp_drawing (w : World) (f : Frame) (ds : DragStart)
    (newId : string) (screenX screenY : R) (ann : Annotation) :
  let p := project (ui w) in
  currentFrame p = Some f ->
  isDrawingTool (tool (ui w)) = true ->
  isDragging (ui w) = true ->
  dragStart (ui w) = Some ds ->
  drawnAnnotation newId p f (tool (ui w)) ds screenX screenY = Some ann ->
  let isGlobal := isBuoyTool (tool (ui w)) in
  annotationsOf
    (project (ui (runHandler (handleCanvasMouseUp newId screenX screenY) w)))
    isGlobal
  = annotationsOf p isGlobal ++ [ann].
Proof.
  intros p Hf Ht Hd Hs Ha isGlobal.
  unfold runHandler, handleCanvasMouseUp, bind, closure.
  fold p. rewrite Hf, Ht, Hd, Hs. cbn [andb]. rewrite Ha.
  unfold appendAnnotation. fold isGlobal.
  transitivity
    (annotationsOf
       (if isGlobal then withGlobalBuoys p (globalBuoys p ++ [ann])
        else withFrames p
               (updateAt (frames p) (currentIndex p)
                  (fun f0 => withAnnotations f0 (annotations f ++ [ann]))))
       isGlobal).
  - destruct isGlobal; reflexivity.
  - destruct isGlobal eqn:Hg.
    + reflexivity.
    + rewrite (annotationsOf_replaced p f false _ Hf).
      unfold annotationsOf. rewrite Hf. reflexivity.
Qed.

Lemma boxTool_drawing (tl : Tool) : isBoxTool tl = true -> isDrawingTool tl = true.
Proof. destruct tl; auto. Qed.

Lemma boxTool_not_point (tl : Tool) : isBoxTool tl = true -> isPointTool tl = false.
Proof. destruct tl; auto; discriminate. Qed.

(** C4.  A completed box-tool gesture adds one box to the list of its
    space.  When the screen displacement from start to end is below 5
    pixels, the box is 80 x 80 and anchored at the image-space mapping of
    the start point; otherwise both endpoints are mapped to image space, the
    origin of the box is the componentwise minimum of the two mapped corners
    and its width and height are the absolute differences, each at least
    5. *)
Theorem C4_box_gesture (w : World) (f : Frame) (ds : DragStart)
    (newId : string) (screenX screenY : R) :
  let p := project (ui w) in
  let isGlobal := isBuoyTool (tool (ui w)) in
  currentFrame p = Some f ->
  isBoxTool (tool (ui w)) = true ->
  isDragging (ui w) = true ->
  dragStart (ui w) = Some ds ->
  let trans :=
    mkTransformer (width f) (height f) (zoom (viewport p)) (panX (viewport p))
                  (panY (viewport p)) (if isGlobal then 0 else rotationDeg f)
                  (negb isGlobal) in
  let a := screenToImage trans (ds_x ds) (ds_y ds) in
  let b := screenToImage trans screenX screenY in
  let displacement :=
    sqrt ((screenX - ds_x ds) * (screenX - ds_x ds)
          + (screenY - ds_y ds) * (screenY - ds_y ds)) in
  let p' :=
    project (ui (runHandler (handleCanvasMouseUp newId screenX screenY) w)) in
  exists box,
    annotationsOf p' isGlobal = annotationsOf p isGlobal ++ [box] /\
    (displacement < 5 ->
     ann_type box = ANNOTATION_BBOX 80 80 /\
     ann_x box = px a /\ ann_y box = py a) /\
    (5 <= displacement ->
     ann_type box = ANNOTATION_BBOX (Rmax 5 (Rabs (px b - px a)))
                                    (Rmax 5 (Rabs (py b - py a))) /\
     ann_x box = Rmin (px a) (px b) /\ ann_y box = Rmin (py a) (py b)).
Proof.
  intros p isGlobal Hf Ht Hd Hs trans a b displacement p'.
  destruct (drawnAnnotation newId p f (tool (ui w)) ds screenX screenY)
    as [box |] eqn:Hbox.
  - exists box. split.
    + apply (run_mouseUp_drawing w f ds newId screenX screenY box); auto.
      apply boxTool_drawing; exact Ht.
    + unfold drawnAnnotation in Hbox. cbv zeta in Hbox.
      rewrite (boxTool_not_point _ Ht), Ht in Hbox.
      fold p isGlobal in Hbox. unfold spaceTransformer in Hbox.
      fold trans a b in Hbox.
      unfold hypot, CLICK_DRAG_THRESHOLD in Hbox. fold displacement in Hbox.
      destruct (Rltb displacement 5) eqn:Hlt;
        inversion Hbox; subst box; clear Hbox;
        cbn [ann_type ann_x ann_y createAnnotation];
        unfold DEFAULT_BBOX_SIZE, MIN_BBOX_SIDE.
      * apply Rltb_true in Hlt. split; [auto | intros; lra].
      * apply Rltb_false in Hlt. split; [intros; lra | auto].
  - exfalso. unfold drawnAnnotation in Hbox. cbv zeta in Hbox.
    rewrite (boxTool_not_point _ Ht), Ht in Hbox.
    destruct (Rltb _ _); discriminate.
Qed.

Lemma C4_box_gesture_witness :
  let w := draggingWorld (oneFrameProject [] 1 0 0) TOOL_BOAT_BOX
                         (mkDragStart 10 10 None None) in
  let f := mkFrame "a.png" "" 100 100 0 [] in
  let p := project (ui w) in
  let trans := mkTransformer 100 100 1 0 0 0 true in
  let a := screenToImage trans 10 10 in
  let b := screenToImage trans 14.999 10 in
  let displacement :=
    sqrt ((14.999 - 10) * (14.999 - 10) + (10 - 10) * (10 - 10)) in
  let p' := project (ui (runHandler (handleCanvasMouseUp "id1" 14.999 10) w)) in
  exists box,
    annotationsOf p' false = annotationsOf p false ++ [box] /\
    (displacement < 5 ->
     ann_type box = ANNOTATION_BBOX 80 80 /\
     ann_x box = px a /\ ann_y box = py a) /\
    (5 <= displacement ->
     ann_type box = ANNOTATION_BBOX (Rmax 5 (Rabs (px b - px a)))
                                    (Rmax 5 (Rabs (py b - py a))) /\
     ann_x box = Rmin (px a) (px b) /\ ann_y box = Rmin (py a) (py b)).
Proof.
  apply (C4_box_gesture
           (draggingWorld (oneFrameProject [] 1 0 0) TOOL_BOAT_BOX
                          (mkDragStart 10 10 None None))
           (mkFrame "a.png" "" 100 100 0 []) (mkDragStart 10 10 None None)
           "id1" 14.999 10); reflexivity.
Defined.

(** A displacement of 4.999 px places the default box, one of 5.001 px a
    box sized from the drag (here clamped to the minimum side). *)
Example gesture_of_4999_px :
  drawnAnnotation "id1" (oneFrameProject [] 1 0 0)
    (mkFrame "a.png" "" 100 100 0 []) TOOL_BOAT_BOX
    (mkDragStart 10 10 None None) 14.999 10
  = Some (mkAnnotation "id1" (ANNOTATION_BBOX 80 80) LABEL_BOAT 10 10).
Proof.
  unfold drawnAnnotation. cbv zeta. cbn [isPointTool isBoxTool ds_x ds_y].
  assert (H : Rltb (hypot (14.999 - 10) (10 - 10)) CLICK_DRAG_THRESHOLD = true).
  { apply Rltb_true, hypot_lt; unfold CLICK_DRAG_THRESHOLD; lra. }
  rewrite H. unfold createAnnotation, DEFAULT_BBOX_SIZE.
  do 2 f_equal; reval; rdecide; lra.
Qed.

Example gesture_of_5001_px :
  drawnAnnotation "id1" (oneFrameProject [] 1 0 0)
    (mkFrame "a.png" "" 100 100 0 []) TOOL_BOAT_BOX
    (mkDragStart 10 10 None None) 15.001 10
  = Some (mkAnnotation "id1" (ANNOTATION_BBOX 5.001 5) LABEL_BOAT 10 10).
Proof.
  unfold drawnAnnotation. cbv zeta. cbn [isPointTool isBoxTool ds_x ds_y].
  assert (H : Rltb (hypot (15.001 - 10) (10 - 10)) CLICK_DRAG_THRESHOLD = false).
  { apply Rltb_false. unfold CLICK_DRAG_THRESHOLD.
    destruct (Rle_lt_dec 5 (hypot (15.001 - 10) (10 - 10))) as [Hle | Hlt];
      [exact Hle |].
    apply hypot_lt in Hlt; lra. }
  rewrite H. unfold createAnnotation, MIN_BBOX_SIDE.
  assert (Hx : px (screenToImage
                     (spaceTransformer (oneFrameProject [] 1 0 0)
                        (mkFrame "a.png" "" 100 100 0 []) false) 10 10) = 10)
    by (reval; rdecide; lra).
  assert (Hy : py (screenToImage
                     (spaceTransformer (oneFrameProject [] 1 0 0)
                        (mkFrame "a.png" "" 100 100 0 []) false) 10 10) = 10)
    by (reval; rdecide; lra).
  assert (Hx2 : px (screenToImage
                      (spaceTransformer (oneFrameProject [] 1 0 0)
                         (mkFrame "a.png" "" 100 100 0 []) false) 15.001 10)
                = 15.001)
    by (reval; rdecide; lra).
  assert (Hy2 : py (screenToImage
                      (spaceTransformer (oneFrameProject [] 1 0 0)
                         (mkFrame "a.png" "" 100 100 0 []) false) 15.001 10)
                = 10)
    by (reval; rdecide; lra).
  cbn [isBuoyTool]. rewrite Hx, Hy, Hx2, Hy2. cbn [labelOfTool].
  replace (15.001 - 10) with 5.001 by lra. replace (10 - 10) with 0 by lra.
  rewrite Rabs_R0, (Rabs_pos_eq 5.001) by lra.
  assert (Hw : Rmax 5 5.001 = 5.001) by rminmax.
  assert (Hh : Rmax 5 0 = 5) by rminmax.
  assert (Hbx : Rmin 10 15.001 = 10) by rminmax.
  assert (Hby : Rmin 10 10 = 10) by rminmax.
  rewrite Hw, Hh, Hbx, Hby. reflexivity.
Qed.

(** ** C5: the minimum box size *)

(** The annotations of a space are those of the current frame, or there
    are none. *)
Lemma annotationsOf_frame (p : Project) (idx : nat) (a : Annotation) :
  nth_error (annotationsOf p false) idx = Some a ->
  exists f, currentFrame p = Some f /\ annotationsOf p false = annotations f.
Proof.
  unfold annotationsOf. destruct (currentFrame p) as [f |].
  - intros _. exists f. auto.
  - destruct idx; discriminate.
Qed.

Lemma annotationsOf_stored (w : World) (isGlobal : bool) (idx : nat)
    (a : Annotation) (anns : list Annotation) :
  nth_error (annotationsOf (project (ui w)) isGlobal) idx = Some a ->
  annotationsOf (project (ui (runHandler (storeAnnotations isGlobal anns) w)))
                isGlobal
  = anns.
Proof.
  intros Ha. rewrite run_storeAnnotations. destruct isGlobal.
  - reflexivity.
  - destruct (annotationsOf_frame _ _ _ Ha) as [f [Hf _]].
    apply (annotationsOf_replaced (project (ui w)) f false anns Hf).
Qed.

(** [resizeAnnotation] on a box that is found. *)
Lemma run_resizeAnnotation (w : World) (id : string) (dw dh : R)
    (isGlobal : bool) (idx : nat) (a : Annotation) :
  let anns := annotationsOf (project (ui w)) isGlobal in
  findIndex (hasId id) anns = Some idx ->
  nth_error anns idx = Some a ->
  isBBox a = true ->
  runHandler (resizeAnnotation id dw dh isGlobal) w
  = runHandler (storeAnnotations isGlobal
                  (updateNth anns idx (resizedBy dw dh))) w.
Proof.
  intros anns Hi Ha Hb.
  unfold runHandler at 1. unfold resizeAnnotation, bind, closure.
  fold anns. rewrite Hi, Ha, Hb. reflexivity.
Qed.

(** [moveAnnotation] on an annotation that is found. *)
Lemma run_moveAnnotation (w : World) (id : string) (dx dy : R)
    (isGlobal : bool) (idx : nat) :
  let anns := annotationsOf (project (ui w)) isGlobal in
  findIndex (hasId id) anns = Some idx ->
  runHandler (moveAnnotation id dx dy isGlobal) w
  = runHandler (storeAnnotations isGlobal
                  (updateNth anns idx (movedBy dx dy))) w.
Proof.
  intros anns Hi.
  unfold runHandler at 1. unfold moveAnnotation, bind, closure.
  fold anns. rewrite Hi. reflexivity.
Qed.

Lemma isBBox_type (a : Annotation) (w h : R) :
  ann_type a = ANNOTATION_BBOX w h -> isBBox a = true.
Proof. unfold isBBox. intros ->. reflexivity. Qed.

(** What a box tool draws. *)
Lemma drawnAnnotation_box (newId : string) (p : Project) (f : Frame)
    (tl : Tool) (ds : DragStart) (screenX screenY : R) :
  isBoxTool tl = true ->
  let trans := spaceTransformer p f (isBuoyTool tl) in
  let a := screenToImage trans (ds_x ds) (ds_y ds) in
  let b := screenToImage trans screenX screenY in
  drawnAnnotation newId p f tl ds screenX screenY
  = Some (if Rltb (hypot (screenX - ds_x ds) (screenY - ds_y ds))
                  CLICK_DRAG_THRESHOLD
          then mkAnnotation newId
                 (ANNOTATION_BBOX DEFAULT_BBOX_SIZE DEFAULT_BBOX_SIZE)
                 (labelOfTool tl) (px a) (py a)
          else mkAnnotation newId
                 (ANNOTATION_BBOX
                    (Rmax MIN_BBOX_SIDE (Rabs (px b - px a)))
                    (Rmax MIN_BBOX_SIDE (Rabs (py b - py a))))
                 (labelOfTool tl) (Rmin (px a) (px b)) (Rmin (py a) (py b))).
Proof.
  intros Ht. cbv zeta. unfold drawnAnnotation. cbv zeta.
  rewrite (boxTool_not_point _ Ht), Ht.
  destruct (Rltb _ _); reflexivity.
Qed.

(** C5, as the code has it.  Resizing a box that is found by its
    identifier does not throw and leaves it with the width
    [max(5, w + dw)] and the height [max(5, h + dh)], both at least 5 (a
    resize to width 2 gives width 5).  A box-creation gesture whose screen
    displacement reaches the 5-pixel click threshold and whose image-space
    extent is at most 5 in each direction (2 x 2, say) creates a box whose
    two dimensions are clamped to 5. *)
Theorem C5_minimum_box_size :
  (forall (w : World) (id : string) (dw dh : R) (isGlobal : bool) (idx : nat)
          (a : Annotation) (w0 h0 : R),
      let anns := annotationsOf (project (ui w)) isGlobal in
      findIndex (hasId id) anns = Some idx ->
      nth_error anns idx = Some a ->
      ann_type a = ANNOTATION_BBOX w0 h0 ->
      let w' := runHandler (resizeAnnotation id dw dh isGlobal) w in
      resizeAnnotation id dw dh isGlobal (ui w) w <> None /\
      exists a',
        nth_error (annotationsOf (project (ui w')) isGlobal) idx = Some a' /\
        ann_type a' = ANNOTATION_BBOX (Rmax 5 (w0 + dw)) (Rmax 5 (h0 + dh)) /\
        5 <= Rmax 5 (w0 + dw) /\ 5 <= Rmax 5 (h0 + dh) /\
        (w0 + dw <= 5 -> Rmax 5 (w0 + dw) = 5) /\
        (h0 + dh <= 5 -> Rmax 5 (h0 + dh) = 5)) /\
  (forall (w : World) (f : Frame) (ds : DragStart) (newId : string)
          (screenX screenY : R),
      let p := project (ui w) in
      let isGlobal := isBuoyTool (tool (ui w)) in
      currentFrame p = Some f ->
      isBoxTool (tool (ui w)) = true ->
      isDragging (ui w) = true ->
      dragStart (ui w) = Some ds ->
      let trans := spaceTransformer p f isGlobal in
      let a := screenToImage trans (ds_x ds) (ds_y ds) in
      let b := screenToImage trans screenX screenY in
      5 <= hypot (screenX - ds_x ds) (screenY - ds_y ds) ->
      Rabs (px b - px a) <= 5 ->
      Rabs (py b - py a) <= 5 ->
      let p' :=
        project (ui (runHandler (handleCanvasMouseUp newId screenX screenY) w)) in
      exists box,
        annotationsOf p' isGlobal = annotationsOf p isGlobal ++ [box] /\
        ann_type box = ANNOTATION_BBOX 5 5).
Proof.
  split.
  - intros w id dw dh isGlobal idx a w0 h0 anns Hi Ha Ht w'.
    split.
    + unfold resizeAnnotation, bind, closure. fold anns.
      rewrite Hi, Ha, (isBBox_type a w0 h0 Ht).
      destruct isGlobal; discriminate.
    + exists (resizedBy dw dh a). subst w'.
      rewrite (run_resizeAnnotation w id dw dh isGlobal idx a Hi Ha
                 (isBBox_type a w0 h0 Ht)).
      rewrite (annotationsOf_stored w isGlobal idx a _ Ha).
      split; [apply nth_error_updateNth_same; exact Ha |].
      unfold resizedBy. rewrite Ht. cbn [ann_type]. unfold MIN_BBOX_SIDE.
      split; [reflexivity |].
      repeat split; try apply Rmax_l; intros; rminmax.
  - intros w f ds newId screenX screenY p isGlobal Hf Ht Hd Hs trans a b
           Hdist Hw Hh p'.
    pose proof (drawnAnnotation_box newId p f (tool (ui w)) ds screenX screenY
                  Ht) as Hbox.
    cbv zeta in Hbox. fold isGlobal trans a b in Hbox.
    assert (Hge : Rltb (hypot (screenX - ds_x ds) (screenY - ds_y ds))
                       CLICK_DRAG_THRESHOLD = false)
      by (apply Rltb_false; exact Hdist).
    rewrite Hge in Hbox.
    eexists. split.
    + apply (run_mouseUp_drawing w f ds newId screenX screenY _);
        [exact Hf | apply boxTool_drawing; exact Ht | exact Hd | exact Hs
        | exact Hbox].
    + cbn [ann_type]. unfold MIN_BBOX_SIDE. f_equal; rminmax.
Qed.

Lemma hypot_ge (a b r : R) : 0 < r -> r * r <= a * a + b * b -> r <= hypot a b.
Proof.
  intros Hr H. destruct (Rle_lt_dec r (hypot a b)) as [Hle | Hlt]; [exact Hle |].
  apply hypot_lt in Hlt; lra.
Qed.

Lemma C5_minimum_box_size_witness :
  (let w := worldOf (oneFrameProject [boxA] 1 0 0) TOOL_SELECT in
   let w' := runHandler (resizeAnnotation "a" (-18) 0 false) w in
   exists a',
     nth_error (annotationsOf (project (ui w')) false) 0 = Some a' /\
     ann_type a' = ANNOTATION_BBOX (Rmax 5 (20 + -18)) (Rmax 5 (20 + 0)) /\
     Rmax 5 (20 + -18) = 5) /\
  (let w := draggingWorld (oneFrameProject [] 4 0 0) TOOL_BOAT_BOX
                          (mkDragStart 10 10 None None) in
   let p' := project (ui (runHandler (handleCanvasMouseUp "id1" 18 18) w)) in
   exists box,
     annotationsOf p' false = [box] /\ ann_type box = ANNOTATION_BBOX 5 5).
Proof.
  destruct C5_minimum_box_size as [Hresize Hdraw]. split.
  - destruct (Hresize (worldOf (oneFrameProject [boxA] 1 0 0) TOOL_SELECT)
                "a"%string (-18) 0 false 0%nat boxA 20 20
                eq_refl eq_refl eq_refl)
      as [_ [a' [H1 [H2 [_ [_ [H3 _]]]]]]].
    exists a'. split; [exact H1 |]. split; [exact H2 |]. apply H3. lra.
  - assert (Hdist : 5 <= hypot (18 - 10) (18 - 10))
      by (apply hypot_ge; lra).
    assert (Hx : Rabs (px (screenToImage (mkTransformer 100 100 4 0 0 0 true) 18 18)
                       - px (screenToImage (mkTransformer 100 100 4 0 0 0 true) 10 10))
                 <= 5)
      by (reval; rdecide; apply Rabs_le; lra).
    assert (Hy : Rabs (py (screenToImage (mkTransformer 100 100 4 0 0 0 true) 18 18)
                       - py (screenToImage (mkTransformer 100 100 4 0 0 0 true) 10 10))
                 <= 5)
      by (reval; rdecide; apply Rabs_le; lra).
    exact (Hdraw (draggingWorld (oneFrameProject [] 4 0 0) TOOL_BOAT_BOX
                                (mkDragStart 10 10 None None))
                 (mkFrame "a.png" "" 100 100 0 []) (mkDragStart 10 10 None None)
                 "id1"%string 18 18 eq_refl eq_refl eq_refl eq_refl
                 Hdist Hx Hy).
Defined.

(** C5 as stated fails: at zoom 1 a box gesture dragged over 2 x 2 px is
    below the click threshold and creates the default 80 x 80 box, not a
    box of 5 x 5. *)
Lemma C5_small_drag_counterexample :
  let w := draggingWorld (oneFrameProject [] 1 0 0) TOOL_BOAT_BOX
                         (mkDragStart 10 10 None None) in
  let p' := project (ui (runHandler (handleCanvasMouseUp "id1" 12 12) w)) in
  exists box,
    annotationsOf p' false = [box] /\
    ann_type box = ANNOTATION_BBOX 80 80 /\
    ann_type box <> ANNOTATION_BBOX 5 5.
Proof.
  cbv zeta.
  pose proof (drawnAnnotation_box "id1" (oneFrameProject [] 1 0 0)
                (mkFrame "a.png" "" 100 100 0 []) TOOL_BOAT_BOX
                (mkDragStart 10 10 None None) 12 12 eq_refl) as Hbox.
  cbv zeta in Hbox. cbn [ds_x ds_y] in Hbox.
  assert (Hlt : Rltb (hypot (12 - 10) (12 - 10)) CLICK_DRAG_THRESHOLD = true)
    by (apply Rltb_true, hypot_lt; unfold CLICK_DRAG_THRESHOLD; lra).
  rewrite Hlt in Hbox.
  eexists. split.
  - apply (run_mouseUp_drawing
             (draggingWorld (oneFrameProject [] 1 0 0) TOOL_BOAT_BOX
                            (mkDragStart 10 10 None None))
             (mkFrame "a.png" "" 100 100 0 []) (mkDragStart 10 10 None None)
             "id1" 12 12 _ eq_refl eq_refl eq_refl eq_refl Hbox).
  - cbn [ann_type]. unfold DEFAULT_BBOX_SIZE. split; [reflexivity |].
    intros H. inversion H. lra.
Qed.

(** ** C6: dragging a resize handle *)

(** The handles other than [se] and [nw] change nothing. *)
Lemma other_handles_leave_world (w : World) (f : Frame) (handle : HandleName)
    (hit : Hit) (screenX screenY : R) :
  handle <> H_se -> handle <> H_nw ->
  runHandler (resizeDrag (project (ui w)) f handle hit screenX screenY) w = w.
Proof.
  intros Hse Hnw. unfold runHandler, resizeDrag. cbv zeta.
  destruct handle; try contradiction; reflexivity.
Qed.

(** Both [moveAnnotation] and [resizeAnnotation] start from the project of
    the closure: when the resize writes, the move queued before it is
    overwritten. *)
Lemma move_then_resize_is_resize (w : World) (id : string) (dx dy dw dh : R)
    (isGlobal : bool) (idx : nat) (a : Annotation) :
  let anns := annotationsOf (project (ui w)) isGlobal in
  findIndex (hasId id) anns = Some idx ->
  nth_error anns idx = Some a ->
  isBBox a = true ->
  project (ui (runHandler
                 (bind (moveAnnotation id dx dy isGlobal)
                       (fun _ => resizeAnnotation id dw dh isGlobal)) w))
  = project (ui (runHandler (resizeAnnotation id dw dh isGlobal) w)).
Proof.
  intros anns Hi Ha Hb. subst anns.
  unfold runHandler, moveAnnotation, resizeAnnotation, bind, closure.
  rewrite Hi, Ha, Hb.
  destruct isGlobal; reflexivity.
Qed.

(** C6 at a failing input.  The box is 50 x 50 at (10, 10); the drag began
    on its [nw] handle and the pointer is now over the image point
    (20, 20).  The claim has the origin move to (20, 20); the handler
    leaves it at (10, 10) and only shrinks the box to 40 x 40. *)
Theorem C6_nw_drag_keeps_origin :
  let w' := runHandler (handleCanvasMouseMove 20 20) nwDragWorld in
  exists a',
    annotationsOf (project (ui w')) false = [a'] /\
    ann_x a' = 10 /\ ann_y a' = 10 /\
    ann_type a' = ANNOTATION_BBOX 40 40.
Proof.
  cbv zeta.
  assert (Hrun : project (ui (runHandler (handleCanvasMouseMove 20 20) nwDragWorld))
                 = project (ui (runHandler
                                  (resizeAnnotation "c"
                                     (- (px (screenToImage
                                               (mkTransformer 100 100 1 0 0 0 true)
                                               20 20) - 10))
                                     (- (py (screenToImage
                                               (mkTransformer 100 100 1 0 0 0 true)
                                               20 20) - 10))
                                     false) nwDragWorld))).
  { rewrite <- (move_then_resize_is_resize nwDragWorld "c"
                  (px (screenToImage (mkTransformer 100 100 1 0 0 0 true) 20 20)
                   - 10)
                  (py (screenToImage (mkTransformer 100 100 1 0 0 0 true) 20 20)
                   - 10)
                  _ _ false 0 boxC eq_refl eq_refl eq_refl).
    reflexivity. }
  rewrite Hrun.
  rewrite (run_resizeAnnotation nwDragWorld "c" _ _ false 0 boxC
             eq_refl eq_refl eq_refl).
  rewrite (annotationsOf_stored nwDragWorld false 0 boxC _ eq_refl).
  eexists. split; [reflexivity |].
  cbn [ann_x ann_y ann_type resizedBy boxC]. split; [reflexivity |].
  split; [reflexivity |].
  assert (Hx : px (screenToImage (mkTransformer 100 100 1 0 0 0 true) 20 20) = 20)
    by (reval; rdecide; lra).
  assert (Hy : py (screenToImage (mkTransformer 100 100 1 0 0 0 true) 20 20) = 20)
    by (reval; rdecide; lra).
  rewrite Hx, Hy. unfold MIN_BBOX_SIDE. f_equal; rminmax.
Qed.

(** ** C8: loading a project file *)

Lemma getProperty_fieldOf (v : json) (k : string) :
  v <> JNull -> getProperty v k = Some (fieldOf v k).
Proof. destruct v; auto. contradiction. Qed.

(** The condition of the loaders holds exactly for a truthy [version] next
    to a [frames] array. *)
Lemma validProjectStructure_true (v : json) :
  validProjectStructure v = Some true <-> hasTruthyVersion v /\ hasFramesList v.
Proof.
  unfold hasTruthyVersion, hasFramesList, validProjectStructure.
  destruct v as [| b | r | s | items | fields];
    cbn [getProperty fieldOf truthy];
    try (split; [discriminate | intros [H _]; discriminate]).
  destruct (truthy (lookupField "version" fields)) eqn:Hv.
  - split.
    + intros H. split; [reflexivity |].
      injection H as Hand. apply andb_prop in Hand. destruct Hand as [_ Harr].
      destruct (lookupField "frames" fields) as [[| b | r | s | items | fs] |];
        try discriminate Harr.
      exists items. reflexivity.
    + intros [_ [items ->]]. reflexivity.
  - split; [discriminate | intros [H _]; discriminate].
Qed.

Lemma tryCatch_installProject_accept readProject (v : json) (handler : Handler unit)
    (w : World) :
  validProjectStructure v = Some true ->
  runHandler (tryCatch (installProject readProject v) handler) w
  = mkWorld (mkAppState (readProject v) (tool (ui w)) None (hoveredId (ui w))
                        (isDragging (ui w)) (dragStart (ui w))
                        (dragCurrent (ui w))
                        (StatusLoadedProject (framesLength v)))
            (env w).
Proof.
  intros Hv. unfold runHandler, tryCatch, installProject. rewrite Hv.
  reflexivity.
Qed.

Lemma sameButStatus_refl (w : World) : sameButStatus w w.
Proof. repeat split. Qed.

Lemma sameButStatus_setStatus (st : Status) (w : World) :
  sameButStatus w (runHandler (setStatus st) w).
Proof. repeat split. Qed.

Lemma tryCatch_installProject_reject readProject (v : json) (handler : Handler unit)
    (w : World) :
  validProjectStructure v <> Some true ->
  sameButStatus w (runHandler handler w) ->
  sameButStatus w (runHandler (tryCatch (installProject readProject v) handler) w).
Proof.
  intros Hv Hh. unfold runHandler, tryCatch, installProject.
  destruct (validProjectStructure v) as [[|] |].
  - contradiction Hv. reflexivity.
  - apply sameButStatus_setStatus.
  - exact Hh.
Qed.

(** C8, as the code has it.  Both loaders install the parsed object exactly
    when its [version] is truthy and its [frames] is an array; in every
    other case (no file, a cancelled or failed picker, malformed JSON, a
    failed check) nothing but the status line changes. *)
Theorem C8_load_project (readProject : json -> Project) (w : World) :
  (forall file v,
      loaderAccepts file v ->
      project (ui (runHandler (handleProjectFileInput readProject file) w))
      = readProject v) /\
  (forall outcome v,
      loaderAccepts (pickedFile outcome) v ->
      project (ui (runHandler (handleLoadProject readProject outcome) w))
      = readProject v) /\
  (forall file,
      (forall v, ~ loaderAccepts file v) ->
      sameButStatus w (runHandler (handleProjectFileInput readProject file) w)) /\
  (forall outcome,
      (forall v, ~ loaderAccepts (pickedFile outcome) v) ->
      sameButStatus w (runHandler (handleLoadProject readProject outcome) w)).
Proof.
  assert (Hrejects : forall file,
             (forall v, ~ loaderAccepts file v) ->
             forall v, file = Some (ParsedValue v) ->
                       validProjectStructure v <> Some true).
  { intros file Hrej v Hfile Hvalid. apply (Hrej v). split; [exact Hfile |].
    apply validProjectStructure_true. exact Hvalid. }
  split; [| split; [| split]].
  - intros file v [Hfile Hacc].
    apply validProjectStructure_true in Hacc. subst file.
    unfold handleProjectFileInput.
    rewrite tryCatch_installProject_accept by exact Hacc. reflexivity.
  - intros outcome v [Hfile Hacc].
    apply validProjectStructure_true in Hacc.
    destruct outcome as [| abortError | parsed]; try discriminate Hfile.
    injection Hfile as ->. unfold handleLoadProject.
    rewrite tryCatch_installProject_accept by exact Hacc. reflexivity.
  - intros file Hrej. unfold handleProjectFileInput.
    destruct file as [[message | v] |].
    + apply sameButStatus_setStatus.
    + apply tryCatch_installProject_reject;
        [apply (Hrejects _ Hrej); reflexivity | apply sameButStatus_setStatus].
    + apply sameButStatus_refl.
  - intros outcome Hrej. unfold handleLoadProject, clickHiddenInput.
    destruct outcome as [| abortError | [message | v]].
    + apply sameButStatus_refl.
    + destruct abortError; cbn [negb];
        [apply sameButStatus_setStatus | apply sameButStatus_refl].
    + apply sameButStatus_refl.
    + apply tryCatch_installProject_reject;
        [apply (Hrejects _ Hrej); reflexivity | apply sameButStatus_refl].
Qed.

Lemma truthy_nonzero (r : R) : r <> 0 -> truthy (Some (JNum r)) = true.
Proof. intros H. cbn [truthy]. apply Reqb_false in H. rewrite H. reflexivity. Qed.

Lemma truthy_zero : truthy (Some (JNum 0)) = false.
Proof.
  cbn [truthy]. assert (H : Reqb 0 0 = true) by (apply Reqb_true; reflexivity).
  rewrite H. reflexivity.
Qed.

Lemma C8_load_project_witness :
  let w := worldOf (oneFrameProject [boxA] 1 0 0) TOOL_SELECT in
  project (ui (runHandler
                 (handleProjectFileInput projectView
                    (Some (ParsedValue fileOutOfRange))) w))
  = projectView fileOutOfRange /\
  sameButStatus w
    (runHandler (handleProjectFileInput projectView
                   (Some (ParseError "Unexpected token"))) w).
Proof.
  destruct (C8_load_project projectView
              (worldOf (oneFrameProject [boxA] 1 0 0) TOOL_SELECT))
    as [Haccept [_ [Hreject _]]].
  split.
  - apply Haccept. split; [reflexivity |]. split.
    + apply truthy_nonzero. lra.
    + eexists. reflexivity.
  - apply Hreject. intros v [Hfile _]. discriminate Hfile.
Defined.

(** C8 as stated fails: a file whose [version] is 0 has a version that is
    not null and a [frames] list, and the loader rejects it. *)
Lemma C8_version_zero_rejected :
  hasNonNullVersion fileVersionZero /\ hasFramesList fileVersionZero /\
  let w := worldOf (oneFrameProject [boxA] 1 0 0) TOOL_SELECT in
  let w' := runHandler (handleProjectFileInput projectView
                          (Some (ParsedValue fileVersionZero))) w in
  project (ui w') = project (ui w) /\
  status (ui w') = StatusInvalidProjectFileFormat.
Proof.
  split; [| split].
  - exists (JNum 0). split; [reflexivity | discriminate].
  - exists []. reflexivity.
  - cbv zeta. unfold runHandler, handleProjectFileInput, tryCatch, installProject.
    assert (Hv : validProjectStructure fileVersionZero = Some false).
    { unfold validProjectStructure, fileVersionZero, getProperty.
      cbn [lookupField String.eqb Ascii.eqb Bool.eqb].
      rewrite truthy_zero. reflexivity. }
    rewrite Hv. split; reflexivity.
Qed.

(** ** C10: what an import does *)

(** What each of the four import handlers does, whenever it ends.  With no
    image it leaves the project alone.  With images it installs the project
    its closure captured when it was called, with the frames replaced by one
    fresh frame per image (no rotation, no annotations, in the order of the
    images) and [currentIndex] 0: the global buoys, the viewport, the
    version and the creation time are those of the project at the call.
    They are those of the project on screen only if no event has changed it
    since. *)
Lemma import_installs_captured_project
    (naturalSort : list ImageData -> list ImageData) (w0 w : World) :
  let p0 := project (ui w0) in
  let p := project (ui w) in
  (forall outcome,
      project (ui (runAsync (handleOpenFile outcome) w0 w))
      = importedProject p0 (imagesOfOpenFile outcome) p) /\
  (forall file,
      project (ui (runAsync (handleFileInputChange file) w0 w))
      = importedProject p0 (imagesOfFileInput file) p) /\
  (forall files,
      project (ui (runAsync (handleFolderInputChange files) w0 w))
      = importedProject p0 (imagesOfFolderInput files) p) /\
  (forall outcome,
      project (ui (runAsync (handleOpenFolder naturalSort outcome) w0 w))
      = importedProject p0 (imagesOfOpenFolder naturalSort outcome) p).
Proof.
  cbv zeta. split; [| split; [| split]].
  - intros [| [|] | frameData]; reflexivity.
  - intros [[frameData | message] |]; reflexivity.
  - intros files. unfold runAsync, handleFolderInputChange, bind, closure,
      imagesOfFolderInput.
    destruct files as [| file rest]; [reflexivity |].
    destruct (loadImages (file :: rest)) as [| img imgs]; reflexivity.
  - intros [| [|] | entries]; try reflexivity.
    unfold runAsync, handleOpenFolder, bind, closure, imagesOfOpenFolder.
    destruct entries as [| entry rest]; [reflexivity |].
    destruct (loadFolder naturalSort (entry :: rest)) as [| img imgs];
      reflexivity.
Qed.

(** With no event between the call and the end, the import replaces the
    frames and keeps the rest. *)
Example import_keeps_global_buoys :
  let p := mkProject 1 "t" (mkViewport 2 3 4) 1
             [mkFrame "a.png" "" 100 100 0 []; mkFrame "b.png" "" 100 100 0 []]
             [boxA] in
  let w := worldOf p TOOL_SELECT in
  project (ui (runHandler
                 (handleFileInputChange
                    (Some (inl (mkImageData "c.png" "" 640 480)))) w))
  = mkProject 1 "t" (mkViewport 2 3 4) 0 [mkFrame "c.png" "" 640 480 0 []]
              [boxA].
Proof. reflexivity. Qed.

(** C10 at a failing input.  One frame is loaded and the buoy-point tool is
    active.  The user picks a folder; while its image loads, a click on the
    canvas places a global buoy; then the import ends.  The handler spreads
    the project its closure captured before the [await]: the frames are
    the new ones, and the global buoy placed in between is gone, where the
    specification has the global buoy list unchanged by the import. *)
Theorem C10_import_discards_edits :
  let w0 := worldOf (oneFrameProject [] 1 0 0) TOOL_BUOY_POINT in
  let w1 := runHandler (handleCanvasMouseUp "g" 30 30)
              (runHandler (handleCanvasMouseDown 30 30) w0) in
  let files := [mkFileEntry "b.png" (Some (mkImageData "b.png" "" 640 480))] in
  let w2 := runAsync (handleFolderInputChange files) w0 w1 in
  (exists x y,
      globalBuoys (project (ui w1))
      = [mkAnnotation "g" ANNOTATION_POINT LABEL_BUOY x y]) /\
  globalBuoys (project (ui w2)) = [] /\
  frames (project (ui w2)) = [mkFrame "b.png" "" 640 480 0 []] /\
  currentIndex (project (ui w2)) = 0%Z.
Proof.
  cbv zeta. split; [| split; [| split]].
  - eexists. eexists. reflexivity.
  - reflexivity.
  - reflexivity.
  - reflexivity.
Qed.

(** ** C9: the debounced save *)

Lemma clearTimeout_single (tm : Timer) (e : Env) :
  timers e = [tm] -> timers (clearTimeout (timer_id tm) e) = [].
Proof.
  intros H. unfold clearTimeout. cbn [timers]. rewrite H. cbn [filter].
  rewrite Nat.eqb_refl. reflexivity.
Qed.

Lemma clearTimeout_none (id : nat) (e : Env) :
  timers e = [] -> timers (clearTimeout id e) = [].
Proof. intros H. unfold clearTimeout. cbn [timers]. rewrite H. reflexivity. Qed.

(** [triggerSave] cancels what is pending and leaves exactly the new
    timer, due after the debounce delay. *)
Lemma scheduleSave_timers (proj : Project) (e : Env) :
  onePendingTimer e ->
  timers (scheduleSave proj e)
  = [mkTimer (nextTimerId e) (clock e + SAVE_DEBOUNCE_MS)%Z proj] /\
  saveTimeoutRef (scheduleSave proj e) = Some (nextTimerId e).
Proof.
  intros [Hnone | [tm [Hone Href]]]; unfold scheduleSave.
  - destruct (saveTimeoutRef e) as [id |]; cbn [setTimeout snd setSaveTimeoutRef timers saveTimeoutRef];
      [rewrite (clearTimeout_none id e Hnone) | rewrite Hnone];
      split; reflexivity.
  - rewrite Href. cbn [setTimeout snd setSaveTimeoutRef timers saveTimeoutRef].
    rewrite (clearTimeout_single tm e Hone). split; reflexivity.
Qed.

Lemma scheduleSave_rest (proj : Project) (e : Env) :
  clock (scheduleSave proj e) = clock e /\
  saveLog (scheduleSave proj e) = saveLog e.
Proof. unfold scheduleSave. destruct (saveTimeoutRef e); split; reflexivity. Qed.

Lemma scheduleSave_onePending (proj : Project) (e : Env) :
  onePendingTimer e -> onePendingTimer (scheduleSave proj e).
Proof.
  intros H. destruct (scheduleSave_timers proj e H) as [Ht Hr].
  right. eexists. split; [exact Ht | exact Hr].
Qed.

(** Time passing with no timer pending, with a timer that is not yet due,
    and with a timer that is due. *)
Lemma advanceTo_idle (host : SaveHost) (t : Z) (w : World) :
  timers (env w) = [] ->
  advanceTo host t w = setClock (Z.max t (clock (env w))) w.
Proof.
  intros H. unfold advanceTo. cbv zeta. cbn [setClock env timers].
  rewrite H. reflexivity.
Qed.

Lemma clock_setClock (t : Z) (w : World) : clock (env (setClock t w)) = t.
Proof. reflexivity. Qed.

Lemma advanceTo_waits (host : SaveHost) (t : Z) (w : World) (tm : Timer) :
  timers (env w) = [tm] ->
  (Z.max t (clock (env w)) < timer_due tm)%Z ->
  advanceTo host t w = setClock (Z.max t (clock (env w))) w.
Proof.
  intros H Hdue. unfold advanceTo. cbv zeta. cbn [setClock env timers clock].
  rewrite H. cbn [fireDue]. rewrite clock_setClock.
  apply Z.leb_gt in Hdue. rewrite Hdue. reflexivity.
Qed.

Lemma advanceTo_fires (host : SaveHost) (t : Z) (w : World) (tm : Timer) :
  timers (env w) = [tm] ->
  (timer_due tm <= Z.max t (clock (env w)))%Z ->
  advanceTo host t w
  = saveCallback host (timer_proj tm)
      (dropTimer (timer_id tm) (setClock (Z.max t (clock (env w))) w)).
Proof.
  intros H Hdue. unfold advanceTo. cbv zeta. cbn [setClock env timers clock].
  rewrite H. cbn [fireDue]. rewrite clock_setClock.
  apply Z.leb_le in Hdue. rewrite Hdue. reflexivity.
Qed.

Lemma advanceTo_onePending (host : SaveHost) (t : Z) (w : World) :
  onePendingTimer (env w) -> onePendingTimer (env (advanceTo host t w)).
Proof.
  intros [Hnone | [tm [Hone Href]]].
  - rewrite (advanceTo_idle host t w Hnone). left. exact Hnone.
  - destruct (Z_lt_le_dec (Z.max t (clock (env w))) (timer_due tm)) as [Hlt | Hle].
    + rewrite (advanceTo_waits host t w tm Hone Hlt).
      right. exists tm. split; assumption.
    + rewrite (advanceTo_fires host t w tm Hone Hle).
      left. cbn [saveCallback env timers dropTimer setClock clearTimeout].
      rewrite Hone. cbn [filter]. rewrite Nat.eqb_refl. reflexivity.
Qed.

(** The world after [updateProject(updater)]. *)
Lemma updateProject_armed (u : Project -> Project) (w : World) :
  onePendingTimer (env w) ->
  let w' := runHandler (updateProject u) w in
  armed w' /\ project (ui w') = u (project (ui w)) /\
  clock (env w') = clock (env w) /\ saveLog (env w') = saveLog (env w).
Proof.
  intros H. cbv zeta. rewrite run_updateProject. cbn [env ui project withProject].
  destruct (scheduleSave_timers (u (project (ui w))) (env w) H) as [Ht Hr].
  destruct (scheduleSave_rest (u (project (ui w))) (env w)) as [Hc Hl].
  split; [| auto].
  eexists. cbn [env ui project withProject].
  split; [exact Ht |]. split; [exact Hr |]. cbn [timer_due timer_proj].
  rewrite Hc. split; reflexivity.
Qed.

Lemma armed_onePending (w : World) : armed w -> onePendingTimer (env w).
Proof. intros [tm [Ht [Hr _]]]. right. exists tm. auto. Qed.

(** A mutation while the timer is still running: the timer is replaced,
    nothing is saved. *)
Lemma mutateAt_armed (host : SaveHost) (t : Z) (u : Project -> Project)
    (w : World) :
  armed w ->
  (clock (env w) <= t < clock (env w) + SAVE_DEBOUNCE_MS)%Z ->
  let w' := mutateAt host t u w in
  armed w' /\ project (ui w') = u (project (ui w)) /\
  clock (env w') = t /\ saveLog (env w') = saveLog (env w).
Proof.
  intros [tm [Ht [Hr [Hdue Hproj]]]] Htime. cbv zeta. unfold mutateAt.
  assert (Hmax : Z.max t (clock (env w)) = t) by lia.
  rewrite (advanceTo_waits host t w tm Ht) by (rewrite Hmax, Hdue; lia).
  rewrite Hmax.
  destruct (updateProject_armed u (setClock t w)) as [Ha [Hp [Hc Hl]]].
  { right. exists tm. cbn [setClock env timers saveTimeoutRef]. auto. }
  split; [exact Ha |]. split; [exact Hp |]. split; [exact Hc | exact Hl].
Qed.

(** The first mutation, with no timer pending. *)
Lemma mutateAt_idle (host : SaveHost) (t : Z) (u : Project -> Project)
    (w : World) :
  timers (env w) = [] ->
  (clock (env w) <= t)%Z ->
  let w' := mutateAt host t u w in
  armed w' /\ project (ui w') = u (project (ui w)) /\
  clock (env w') = t /\ saveLog (env w') = saveLog (env w).
Proof.
  intros Ht Htime. cbv zeta. unfold mutateAt.
  assert (Hmax : Z.max t (clock (env w)) = t) by lia.
  rewrite (advanceTo_idle host t w Ht), Hmax.
  destruct (updateProject_armed u (setClock t w)) as [Ha [Hp [Hc Hl]]].
  { left. exact Ht. }
  split; [exact Ha |]. split; [exact Hp |]. split; [exact Hc | exact Hl].
Qed.

(** A burst of mutations, each within the debounce delay of the one
    before: one timer is pending at the end, and nothing has been saved. *)
Lemma mutateAll_armed (host : SaveHost) (ms : list (Z * (Project -> Project)))
    (w : World) :
  armed w ->
  eachWithinDebounce (clock (env w)) ms ->
  let w' := mutateAll host ms w in
  armed w' /\ clock (env w') = lastTime (clock (env w)) ms /\
  saveLog (env w') = saveLog (env w).
Proof.
  revert w. induction ms as [| [t u] ms IH]; intros w Ha Hms; cbv zeta.
  - cbn [mutateAll lastTime]. auto.
  - cbn [mutateAll lastTime]. destruct Hms as [Ht Hrest].
    destruct (mutateAt_armed host t u w Ha Ht) as [Ha' [_ [Hc Hl]]].
    rewrite <- Hc in Hrest.
    destruct (IH (mutateAt host t u w) Ha' Hrest) as [Ha'' [Hc' Hl']].
    split; [exact Ha'' |]. split; [rewrite Hc', Hc; reflexivity |].
    rewrite Hl'. exact Hl.
Qed.

(** Once the debounce delay has passed, the pending timer fires and saves
    the project once. *)
Lemma advanceTo_saves (host : SaveHost) (T : Z) (w : World) :
  armed w ->
  (clock (env w) + SAVE_DEBOUNCE_MS <= T)%Z ->
  let w' := advanceTo host T w in
  timers (env w') = [] /\ saveLog (env w') = saveLog (env w) ++ [project (ui w)] /\
  project (ui w') = project (ui w) /\ clock (env w') = T.
Proof.
  intros [tm [Ht [Hr [Hdue Hproj]]]] HT. cbv zeta.
  assert (Hmax : Z.max T (clock (env w)) = T) by (unfold SAVE_DEBOUNCE_MS in HT; lia).
  rewrite (advanceTo_fires host T w tm Ht) by (rewrite Hmax, Hdue; exact HT).
  rewrite Hmax, Hproj.
  cbn [saveCallback env ui timers saveLog clock project dropTimer setClock
       clearTimeout].
  rewrite Ht. cbn [filter]. rewrite Nat.eqb_refl. cbn [negb].
  repeat split.
Qed.

Lemma runOp_onePending readProject naturalSort op w :
  hostAllows op ->
  onePendingTimer (env w) ->
  onePendingTimer (env (runOp readProject naturalSort op w)).
Proof.
  intros Hhost Hw.
  destruct op;
    try (cbn [runOp]; apply advanceTo_onePending; exact Hw);
    apply (preserves_run (fun w => onePendingTimer (env w)));
    try exact Hw;
    apply (keeps_handlerOf (fun w => onePendingTimer (env w)) (fun _ => True));
    try assumption; try (intros; exact I).
  all: first [ intros f0 w0 _ HP; exact HP
             | intros p0 w0 _ HP; exact HP
             | intros proj w0 HP; cbn [env]; apply scheduleSave_onePending;
               exact HP ].
Qed.




(* ====================================================================== *)
(** * Further properties of the code *)
(* ====================================================================== *)

(** ** The coordinate transformer *)

(** The difference of the screen images of two image points. *)
Lemma imageToScreen_difference (t : CoordinateTransformer) (x1 y1 x2 y2 : R) :
  exists c s,
    c * c + s * s = 1 /\
    px (imageToScreen t x1 y1) - px (imageToScreen t x2 y2)
    = ct_zoom t * ((x1 - x2) * c - (y1 - y2) * s) /\
    py (imageToScreen t x1 y1) - py (imageToScreen t x2 y2)
    = ct_zoom t * ((x1 - x2) * s + (y1 - y2) * c).
Proof.
  unfold imageToScreen. destruct (rotationActive t); cbn [px py].
  - exists (cos (ct_rotationDeg t * PI / 180)),
           (sin (ct_rotationDeg t * PI / 180)).
    split; [| split; ring].
    pose proof (sin2_cos2 (ct_rotationDeg t * PI / 180)) as H.
    unfold Rsqr in H. lra.
  - exists 1, 0. split; [ring | split; ring].
Qed.



(** ** The annotation store *)

Lemma hasId_true (id : string) (a : Annotation) :
  hasId id a = true <-> ann_id a = id.
Proof. unfold hasId. apply String.eqb_eq. Qed.

Lemma hasId_false (id : string) (a : Annotation) :
  hasId id a = false <-> ann_id a <> id.
Proof. unfold hasId. apply String.eqb_neq. Qed.

Lemma findIndex_none {A : Type} (pred : A -> bool) (l : list A) :
  (forall a, In a l -> pred a = false) -> findIndex pred l = None.
Proof.
  induction l as [| b l IH]; intros H; cbn [findIndex]; [reflexivity |].
  rewrite (H b (or_introl eq_refl)). rewrite IH; [reflexivity |].
  intros a Ha. apply H. right. exact Ha.
Qed.

Lemma findIndex_first {A : Type} (pred : A -> bool) (l : list A) (i : nat)
    (a : A) :
  nth_error l i = Some a -> pred a = true ->
  (forall j b, (j < i)%nat -> nth_error l j = Some b -> pred b = false) ->
  findIndex pred l = Some i.
Proof.
  revert i. induction l as [| b l IH]; intros i Ha Hp Hbefore.
  - destruct i; discriminate Ha.
  - cbn [findIndex]. destruct i as [| i].
    + cbn in Ha. inversion Ha; subst. rewrite Hp. reflexivity.
    + rewrite (Hbefore 0%nat b (Nat.lt_0_succ i) eq_refl).
      rewrite (IH i Ha Hp); [reflexivity |].
      intros j c Hj Hc. apply (Hbefore (S j) c); [lia | exact Hc].
Qed.

Lemma findIndex_firstWithId (anns : list Annotation) (id : string) (i : nat)
    (a : Annotation) :
  firstWithId anns id i a -> findIndex (hasId id) anns = Some i.
Proof.
  intros [Ha [Hid Hbefore]]. apply (findIndex_first _ _ _ a Ha).
  - apply hasId_true. exact Hid.
  - intros j b Hj Hb. apply hasId_false. apply (Hbefore j b Hj Hb).
Qed.

Lemma findIndex_noneWithId (anns : list Annotation) (id : string) :
  noneWithId anns id -> findIndex (hasId id) anns = None.
Proof.
  intros H. apply findIndex_none. intros a Ha. apply hasId_false. auto.
Qed.

(** X4.  [goToFrame] with an index outside [0 .. frames.length - 1] does
    nothing at all: the project, the selection and the timers stay.  With
    an index inside, it shows that frame, leaves the frames, the viewport
    and the global buoys as they are, clears the selection and schedules a
    save of the new project. *)
Theorem goToFrame_bounds (w : World) (index : Z) :
  let p := project (ui w) in
  let n := Z.of_nat (List.length (frames p)) in
  let w' := runHandler (goToFrame index) w in
  ((index < 0 \/ n <= index)%Z -> w' = w) /\
  ((0 <= index < n)%Z ->
   currentIndex (project (ui w')) = index /\
   frames (project (ui w')) = frames p /\
   viewport (project (ui w')) = viewport p /\
   globalBuoys (project (ui w')) = globalBuoys p /\
   selection (ui w') = None /\
   env w' = scheduleSave (project (ui w')) (env w)).
Proof.
  cbv zeta. unfold runHandler, goToFrame, bind, closure. split.
  - intros Hout.
    assert (Hc : (0 <=? index)%Z
                 && (index <? Z.of_nat (List.length (frames (project (ui w)))))%Z
                 = false).
    { apply andb_false_iff. destruct Hout as [Hneg | Hbig].
      - left. apply Z.leb_gt. exact Hneg.
      - right. apply Z.ltb_ge. exact Hbig. }
    rewrite Hc. reflexivity.
  - intros [Hlo Hhi].
    assert (Hc : (0 <=? index)%Z
                 && (index <? Z.of_nat (List.length (frames (project (ui w)))))%Z
                 = true).
    { apply andb_true_iff. split; [apply Z.leb_le | apply Z.ltb_lt]; assumption. }
    rewrite Hc. repeat split.
Qed.

Lemma goToFrame_bounds_witness :
  let w := worldOf (oneFrameProject [boxA] 1 0 0) TOOL_SELECT in
  runHandler (goToFrame (-1)) w = w /\
  runHandler (goToFrame 1) w = w /\
  currentIndex (project (ui (runHandler (goToFrame 0) w))) = 0%Z.
Proof.
  cbv zeta.
  split; [| split].
  - apply (goToFrame_bounds
             (worldOf (oneFrameProject [boxA] 1 0 0) TOOL_SELECT) (-1)).
    left. lia.
  - apply (goToFrame_bounds
             (worldOf (oneFrameProject [boxA] 1 0 0) TOOL_SELECT) 1).
    right. cbn. lia.
  - apply (goToFrame_bounds
             (worldOf (oneFrameProject [boxA] 1 0 0) TOOL_SELECT) 0).
    cbn. lia.
Defined.

(** X5.  [moveAnnotation] and [resizeAnnotation] with an identifier that no
    annotation of the list has, and [resizeAnnotation] on a point, do
    nothing at all: the project stays and no save is scheduled. *)
Theorem stale_edits_do_nothing (w : World) (id : string) (d1 d2 : R)
    (isGlobal : bool) :
  let anns := annotationsOf (project (ui w)) isGlobal in
  (noneWithId anns id ->
   runHandler (moveAnnotation id d1 d2 isGlobal) w = w /\
   runHandler (resizeAnnotation id d1 d2 isGlobal) w = w) /\
  (forall i a,
      firstWithId anns id i a -> ann_type a = ANNOTATION_POINT ->
      runHandler (resizeAnnotation id d1 d2 isGlobal) w = w).
Proof.
  intros anns. split.
  - intros Hnone. pose proof (findIndex_noneWithId anns id Hnone) as Hf.
    unfold runHandler, moveAnnotation, resizeAnnotation, bind, closure.
    fold anns. rewrite Hf. split; reflexivity.
  - intros i a Hfirst Hpoint.
    pose proof (findIndex_firstWithId anns id i a Hfirst) as Hf.
    destruct Hfirst as [Ha _].
    unfold runHandler, resizeAnnotation, bind, closure.
    fold anns. rewrite Hf, Ha. unfold isBBox. rewrite Hpoint. reflexivity.
Qed.

Lemma stale_edits_do_nothing_witness :
  let w := worldOf (oneFrameProject [pointP] 1 0 0) TOOL_SELECT in
  runHandler (moveAnnotation "zz" 1 2 false) w = w /\
  runHandler (resizeAnnotation "zz" 1 2 false) w = w /\
  runHandler (resizeAnnotation "p" 1 2 false) w = w.
Proof.
  cbv zeta.
  destruct (stale_edits_do_nothing
              (worldOf (oneFrameProject [pointP] 1 0 0) TOOL_SELECT)
              "zz" 1 2 false) as [Hnone _].
  destruct (stale_edits_do_nothing
              (worldOf (oneFrameProject [pointP] 1 0 0) TOOL_SELECT)
              "p" 1 2 false) as [_ Hpoint].
  assert (Hzz : noneWithId [pointP] "zz").
  { intros a [<- | []]. discriminate. }
  destruct (Hnone Hzz) as [H1 H2].
  split; [exact H1 |]. split; [exact H2 |].
  apply (Hpoint 0%nat pointP); [| reflexivity].
  split; [reflexivity |]. split; [reflexivity |].
  intros j b Hj. lia.
Defined.

Lemma annotationsOf_other_space (w : World) (isGlobal : bool)
    (anns : list Annotation) :
  annotationsOf (project (ui (runHandler (storeAnnotations isGlobal anns) w)))
                (negb isGlobal)
  = annotationsOf (project (ui w)) (negb isGlobal).
Proof.
  rewrite run_storeAnnotations. destruct isGlobal; reflexivity.
Qed.

Lemma storeAnnotations_rest (w : World) (isGlobal : bool)
    (anns : list Annotation) :
  let p' := project (ui (runHandler (storeAnnotations isGlobal anns) w)) in
  viewport p' = viewport (project (ui w)) /\
  currentIndex p' = currentIndex (project (ui w)) /\
  List.length (frames p') = List.length (frames (project (ui w))).
Proof.
  cbv zeta. rewrite run_storeAnnotations. destruct isGlobal.
  - repeat split.
  - cbn [viewport currentIndex frames withFrames]. rewrite updateAt_length.
    repeat split.
Qed.

(** X6.  [moveAnnotation] moves the first annotation that has the identifier,
    by exactly [(dx, dy)], and keeps its identifier, type and label; every
    other annotation of the list, the list of the other space, the viewport
    and the current index stay. *)
Theorem moveAnnotation_moves_first (w : World) (id : string) (dx dy : R)
    (isGlobal : bool) (i : nat) (a : Annotation) :
  let p := project (ui w) in
  let anns := annotationsOf p isGlobal in
  firstWithId anns id i a ->
  let p' := project (ui (runHandler (moveAnnotation id dx dy isGlobal) w)) in
  let anns' := annotationsOf p' isGlobal in
  nth_error anns' i
  = Some (mkAnnotation (ann_id a) (ann_type a) (ann_label a)
                       (ann_x a + dx) (ann_y a + dy)) /\
  (forall j, j <> i -> nth_error anns' j = nth_error anns j) /\
  List.length anns' = List.length anns /\
  annotationsOf p' (negb isGlobal) = annotationsOf p (negb isGlobal) /\
  viewport p' = viewport p /\ currentIndex p' = currentIndex p.
Proof.
  intros p anns Hfirst p' anns'. subst p' anns'.
  pose proof (findIndex_firstWithId anns id i a Hfirst) as Hf.
  destruct Hfirst as [Ha _].
  rewrite (run_moveAnnotation w id dx dy isGlobal i Hf). fold p anns.
  rewrite (annotationsOf_stored w isGlobal i a _ Ha).
  rewrite annotationsOf_other_space.
  destruct (storeAnnotations_rest w isGlobal
              (updateNth anns i (movedBy dx dy))) as [Hv [Hc _]].
  split; [apply (nth_error_updateNth_same anns i (movedBy dx dy) a Ha) |].
  split; [intros j Hj; apply nth_error_updateNth_other; congruence |].
  split; [apply updateNth_length |].
  split; [reflexivity |]. split; assumption.
Qed.

Lemma moveAnnotation_moves_first_witness :
  let w := worldOf (oneFrameProject [boxA; boxB] 1 0 0) TOOL_SELECT in
  let p' := project (ui (runHandler (moveAnnotation "b" 3 4 false) w)) in
  nth_error (annotationsOf p' false) 1
  = Some (mkAnnotation "b" (ANNOTATION_BBOX 20 20) LABEL_BOAT (10 + 3) (10 + 4)) /\
  nth_error (annotationsOf p' false) 0 = Some boxA.
Proof.
  cbv zeta.
  destruct (moveAnnotation_moves_first
              (worldOf (oneFrameProject [boxA; boxB] 1 0 0) TOOL_SELECT)
              "b" 3 4 false 1%nat boxB) as [H1 [H2 _]].
  - split; [reflexivity |]. split; [reflexivity |].
    intros j b Hj Hb. assert (j = 0%nat) by lia. subst j.
    cbn in Hb. inversion Hb; subst b. discriminate.
  - split; [exact H1 |]. rewrite (H2 0%nat) by lia. reflexivity.
Defined.

Lemma run_deleteAnnotation (w : World) (sel : Hit) (f : Frame) :
  selection (ui w) = Some sel ->
  currentFrame (project (ui w)) = Some f ->
  let g := isGlobalSpace (hit_type sel) in
  let kept := filter (fun a => negb (hasId (hit_id sel) a))
                     (annotationsOf (project (ui w)) g) in
  project (ui (runHandler deleteAnnotation w))
  = project (ui (runHandler (storeAnnotations g kept) w)) /\
  selection (ui (runHandler deleteAnnotation w)) = None.
Proof.
  intros Hsel Hf. cbv zeta.
  unfold runHandler, deleteAnnotation, bind, closure. rewrite Hsel, Hf.
  unfold annotationsOf. rewrite Hf.
  destruct (hit_type sel); cbn [isGlobalSpace]; split; reflexivity.
Qed.

(** X7.  [deleteAnnotation] with a selection (and a current frame) removes from
    the list of the selected space every annotation that has the selected
    identifier and nothing else, leaves the list of the other space, the
    viewport and the current index as they are, and clears the selection:
    deleting a global buoy never touches the annotations of a frame. *)
Theorem deleteAnnotation_removes (w : World) (sel : Hit) (f : Frame) :
  selection (ui w) = Some sel ->
  currentFrame (project (ui w)) = Some f ->
  let p := project (ui w) in
  let g := isGlobalSpace (hit_type sel) in
  let w' := runHandler deleteAnnotation w in
  let p' := project (ui w') in
  (forall a, In a (annotationsOf p' g)
             <-> In a (annotationsOf p g) /\ ann_id a <> hit_id sel) /\
  annotationsOf p' (negb g) = annotationsOf p (negb g) /\
  viewport p' = viewport p /\ currentIndex p' = currentIndex p /\
  selection (ui w') = None.
Proof.
  intros Hsel Hf p g w' p'. subst p' w'.
  destruct (run_deleteAnnotation w sel f Hsel Hf) as [Hp Hs].
  cbv zeta in Hp. fold p g in Hp. rewrite Hp, Hs.
  set (kept := filter (fun a => negb (hasId (hit_id sel) a))
                      (annotationsOf p g)).
  assert (Hstored : annotationsOf
                      (project (ui (runHandler (storeAnnotations g kept) w))) g
                    = kept).
  { rewrite run_storeAnnotations.
    apply (annotationsOf_replaced (project (ui w)) f g kept Hf). }
  rewrite Hstored, annotationsOf_other_space.
  destruct (storeAnnotations_rest w g kept) as [Hv [Hc _]].
  split.
  - intros a. unfold kept. rewrite filter_In, negb_true_iff, hasId_false.
    reflexivity.
  - repeat split; assumption.
Qed.

Lemma deleteAnnotation_removes_witness :
  let w := mkWorld (mkAppState (oneFrameProject [boxA; boxB] 1 0 0) TOOL_SELECT
                               (Some (mkHit SpaceFrame "a" 0)) None false None
                               None StatusReady)
                   (mkEnv None [] 1 0 false None None []) in
  let w' := runHandler deleteAnnotation w in
  (In boxB (annotationsOf (project (ui w')) false) /\
   ~ In boxA (annotationsOf (project (ui w')) false)) /\
  selection (ui w') = None.
Proof.
  cbv zeta.
  destruct (deleteAnnotation_removes
              (mkWorld (mkAppState (oneFrameProject [boxA; boxB] 1 0 0)
                                   TOOL_SELECT (Some (mkHit SpaceFrame "a" 0))
                                   None false None None StatusReady)
                       (mkEnv None [] 1 0 false None None []))
              (mkHit SpaceFrame "a" 0)
              (mkFrame "a.png" "" 100 100 0 [boxA; boxB]) eq_refl eq_refl)
    as [Hin [_ [_ [_ Hsel]]]].
  split; [| exact Hsel]. split.
  - apply Hin. split; [right; left; reflexivity | discriminate].
  - intros H. apply Hin in H. destruct H as [_ H]. apply H. reflexivity.
Defined.

(** X8.  [deleteAnnotation] with no selection, or with a frame selection while
    no frame is shown, does nothing at all. *)
Theorem deleteAnnotation_without_target (w : World) :
  (selection (ui w) = None \/
   exists sel, selection (ui w) = Some sel /\ hit_type sel = SpaceFrame /\
               currentFrame (project (ui w)) = None) ->
  runHandler deleteAnnotation w = w.
Proof.
  intros [Hnone | [sel [Hsel [Hframe Hcur]]]];
    unfold runHandler, deleteAnnotation, bind, closure.
  - rewrite Hnone. reflexivity.
  - rewrite Hsel, Hframe, Hcur. reflexivity.
Qed.

Lemma deleteAnnotation_without_target_witness :
  runHandler deleteAnnotation (worldOf (oneFrameProject [boxA] 1 0 0) TOOL_SELECT)
  = worldOf (oneFrameProject [boxA] 1 0 0) TOOL_SELECT.
Proof.
  apply deleteAnnotation_without_target. left. reflexivity.
Defined.

(** ** Gestures *)

(** Pressing the button with the pan tool or a drawing tool starts a drag
    at the pointer. *)
Lemma run_mouseDown_drag (w : World) (f : Frame) (x y : R) :
  currentFrame (project (ui w)) = Some f ->
  tool (ui w) <> TOOL_SELECT ->
  runHandler (handleCanvasMouseDown x y) w
  = mkWorld (mkAppState (project (ui w)) (tool (ui w)) (selection (ui w))
                        (hoveredId (ui w)) true
                        (Some (mkDragStart x y None None))
                        (dragCurrent (ui w)) (status (ui w)))
            (env w).
Proof.
  intros Hf Ht. destruct w as [[p tl sel hov drg start cur st] e].
  cbn [ui project tool] in *.
  unfold runHandler, handleCanvasMouseDown, bind, closure.
  cbn [ui project tool]. rewrite Hf.
  destruct tl; try reflexivity. exfalso. apply Ht. reflexivity.
Qed.

(** Moving the pointer during a pan drag. *)
Lemma run_mouseMove_pan (w : World) (f : Frame) (ds : DragStart) (x y : R) :
  currentFrame (project (ui w)) = Some f ->
  tool (ui w) = TOOL_PAN ->
  isDragging (ui w) = true ->
  dragStart (ui w) = Some ds ->
  let p := project (ui w) in
  let p' := withViewport p
              (mkViewport (zoom (viewport p))
                          (panX (viewport p) + (x - ds_x ds))
                          (panY (viewport p) + (y - ds_y ds))) in
  runHandler (handleCanvasMouseMove x y) w
  = mkWorld (mkAppState p' TOOL_PAN (selection (ui w)) (hoveredId (ui w)) true
                        (Some (mkDragStart x y None None))
                        (dragCurrent (ui w)) (status (ui w)))
            (scheduleSave p' (env w)).
Proof.
  intros Hf Ht Hd Hs. cbv zeta.
  destruct w as [[p tl sel hov drg start cur st] e].
  cbn [ui project tool isDragging dragStart] in *. subst tl drg start.
  unfold runHandler, handleCanvasMouseMove, bind, closure.
  cbn [ui project tool isDragging dragStart selection]. rewrite Hf.
  reflexivity.
Qed.



(** X10.  A drawing gesture that leaves the canvas is cancelled: after the
    button is pressed with a drawing tool, the pointer leaves the canvas
    and the button is released, the project and the timers are as before
    the gesture and no drag is in progress. *)
Theorem leaving_cancels_drawing (w : World) (f : Frame) (newId : string)
    (x0 y0 x1 y1 : R) :
  currentFrame (project (ui w)) = Some f ->
  isDrawingTool (tool (ui w)) = true ->
  let w3 := runHandler (handleCanvasMouseUp newId x1 y1)
              (runHandler handleCanvasMouseLeave
                 (runHandler (handleCanvasMouseDown x0 y0) w)) in
  project (ui w3) = project (ui w) /\ env w3 = env w /\
  isDragging (ui w3) = false /\ dragStart (ui w3) = None /\
  dragCurrent (ui w3) = None.
Proof.
  intros Hf Ht. cbv zeta.
  rewrite (run_mouseDown_drag w f x0 y0 Hf)
    by (intros H; rewrite H in Ht; discriminate).
  unfold runHandler, handleCanvasMouseLeave, handleCanvasMouseUp, bind, closure.
  cbn [ui project tool isDragging dragStart setHoveredId setIsDragging
       setDragStart setDragCurrent setUi].
  rewrite Hf, andb_false_r. repeat split.
Qed.

Lemma leaving_cancels_drawing_witness :
  let w := worldOf (oneFrameProject [boxA] 1 0 0) TOOL_BOAT_BOX in
  let w3 := runHandler (handleCanvasMouseUp "id1" 60 60)
              (runHandler handleCanvasMouseLeave
                 (runHandler (handleCanvasMouseDown 10 10) w)) in
  project (ui w3) = project (ui w) /\ env w3 = env w.
Proof.
  cbv zeta.
  destruct (leaving_cancels_drawing
              (worldOf (oneFrameProject [boxA] 1 0 0) TOOL_BOAT_BOX)
              (mkFrame "a.png" "" 100 100 0 [boxA]) "id1" 10 10 60 60
              eq_refl eq_refl) as [Hp [He _]].
  split; [exact Hp | exact He].
Defined.

(** The project after a drawing gesture ends is the one in which the list
    of the tool's space has been replaced by itself with the new
    annotation at its end. *)
Lemma run_mouseUp_store (w : World) (f : Frame) (ds : DragStart)
    (newId : string) (x y : R) (ann : Annotation) :
  let p := project (ui w) in
  currentFrame p = Some f ->
  isDrawingTool (tool (ui w)) = true ->
  isDragging (ui w) = true ->
  dragStart (ui w) = Some ds ->
  drawnAnnotation newId p f (tool (ui w)) ds x y = Some ann ->
  let g := isBuoyTool (tool (ui w)) in
  project (ui (runHandler (handleCanvasMouseUp newId x y) w))
  = project (ui (runHandler (storeAnnotations g (annotationsOf p g ++ [ann])) w)).
Proof.
  intros p Hf Ht Hd Hs Ha g.
  unfold runHandler at 1. unfold handleCanvasMouseUp, bind, closure.
  fold p. rewrite Hf, Ht, Hd, Hs. cbn [andb]. rewrite Ha.
  unfold appendAnnotation. fold g. rewrite run_storeAnnotations. fold p.
  unfold annotationsOf. rewrite Hf. destruct g; reflexivity.
Qed.

Lemma pointTool_drawing (tl : Tool) :
  isPointTool tl = true -> isDrawingTool tl = true.
Proof. destruct tl; auto. Qed.

(** X11.  A point tool places its point at the image-space mapping of the
    position where the button was pressed; the position where it is
    released plays no part.  The point goes to the global buoys with a buoy
    tool and to the current frame with a boat tool, labelled accordingly,
    and the list of the other space stays as it is. *)
Theorem point_tool_uses_press_position (w : World) (f : Frame)
    (ds : DragStart) (newId : string) (x y : R) :
  let p := project (ui w) in
  let g := isBuoyTool (tool (ui w)) in
  currentFrame p = Some f ->
  isPointTool (tool (ui w)) = true ->
  isDragging (ui w) = true ->
  dragStart (ui w) = Some ds ->
  let trans :=
    mkTransformer (width f) (height f) (zoom (viewport p)) (panX (viewport p))
                  (panY (viewport p)) (if g then 0 else rotationDeg f)
                  (negb g) in
  let a := screenToImage trans (ds_x ds) (ds_y ds) in
  let p' := project (ui (runHandler (handleCanvasMouseUp newId x y) w)) in
  annotationsOf p' g
  = annotationsOf p g
    ++ [mkAnnotation newId ANNOTATION_POINT
                     (if g then LABEL_BUOY else LABEL_BOAT) (px a) (py a)] /\
  annotationsOf p' (negb g) = annotationsOf p (negb g).
Proof.
  intros p g Hf Ht Hd Hs trans a p'. subst p'.
  assert (Ha : drawnAnnotation newId p f (tool (ui w)) ds x y
               = Some (mkAnnotation newId ANNOTATION_POINT
                         (if g then LABEL_BUOY else LABEL_BOAT) (px a) (py a))).
  { unfold drawnAnnotation. cbv zeta. rewrite Ht. unfold createAnnotation.
    subst a trans g. unfold spaceTransformer.
    destruct (tool (ui w)); try discriminate Ht; reflexivity. }
  rewrite (run_mouseUp_store w f ds newId x y _ Hf (pointTool_drawing _ Ht)
             Hd Hs Ha).
  fold g. split.
  - rewrite run_storeAnnotations.
    apply (annotationsOf_replaced (project (ui w)) f g _ Hf).
  - apply annotationsOf_other_space.
Qed.

Lemma point_tool_uses_press_position_witness :
  let w := draggingWorld (oneFrameProject [boxA] 1 0 0) TOOL_BUOY_POINT
                         (mkDragStart 10 10 None None) in
  let a := screenToImage (mkTransformer 100 100 1 0 0 0 false) 10 10 in
  let p' := project (ui (runHandler (handleCanvasMouseUp "id1" 70 80) w)) in
  globalBuoys p' = [mkAnnotation "id1" ANNOTATION_POINT LABEL_BUOY (px a) (py a)] /\
  annotationsOf p' false = [boxA].
Proof.
  cbv zeta.
  destruct (point_tool_uses_press_position
              (draggingWorld (oneFrameProject [boxA] 1 0 0) TOOL_BUOY_POINT
                             (mkDragStart 10 10 None None))
              (mkFrame "a.png" "" 100 100 0 [boxA])
              (mkDragStart 10 10 None None) "id1" 70 80
              eq_refl eq_refl eq_refl eq_refl) as [H1 H2].
  split; [exact H1 | exact H2].
Defined.

Lemma scanAnnotations_last (space : Space) (anns : list Annotation)
    (ann : Annotation) (x y : R) :
  hitsAnnotation ann x y = true ->
  scanAnnotations space (anns ++ [ann]) x y (List.length (anns ++ [ann]))
  = Some (mkHit space (ann_id ann) (List.length anns)).
Proof.
  intros Hhit. rewrite length_app. cbn [List.length].
  rewrite Nat.add_1_r. cbn [scanAnnotations].
  rewrite nth_error_app2 by lia. rewrite Nat.sub_diag. cbn [nth_error].
  rewrite Hhit. reflexivity.
Qed.

Lemma getAnnotationAtPoint_last (p : Project) (f : Frame) (anns : list Annotation)
    (ann : Annotation) (screenX screenY : R) :
  currentFrame p = Some f ->
  annotations f = anns ++ [ann] ->
  hitsAnnotation ann
    (px (screenToImage (frameTransformer p f) screenX screenY))
    (py (screenToImage (frameTransformer p f) screenX screenY)) = true ->
  getAnnotationAtPoint p screenX screenY
  = Some (mkHit SpaceFrame (ann_id ann) (List.length anns)).
Proof.
  intros Hf Hanns Hhit. unfold getAnnotationAtPoint. rewrite Hf. cbv zeta.
  rewrite Hanns. rewrite (scanAnnotations_last SpaceFrame anns ann _ _ Hhit).
  reflexivity.
Qed.

Lemma hits_point_at_itself (id : string) (l : Label) (x y : R) :
  hitsAnnotation (mkAnnotation id ANNOTATION_POINT l x y) x y = true.
Proof.
  unfold hitsAnnotation. cbn [ann_type ann_x ann_y]. cbv zeta.
  apply Rltb_true. apply hypot_lt; [lra |].
  replace (x - x) with 0 by ring. replace (y - y) with 0 by ring. lra.
Qed.

Lemma hits_default_box_at_origin (id : string) (l : Label) (x y : R) :
  hitsAnnotation
    (mkAnnotation id (ANNOTATION_BBOX DEFAULT_BBOX_SIZE DEFAULT_BBOX_SIZE) l x y)
    x y = true.
Proof.
  unfold hitsAnnotation, DEFAULT_BBOX_SIZE. cbn [ann_type ann_x ann_y].
  rewrite !andb_true_iff, !Rgeb_true, !Rltb_true. lra.
Qed.



(** ** The minimum side of every box *)

Lemma Forall_updateNth {A : Type} (Q : A -> Prop) (l : list A) (i : nat)
    (g : A -> A) :
  (forall a, Q a -> Q (g a)) -> Forall Q l -> Forall Q (updateNth l i g).
Proof.
  intros Hg. revert i. induction l as [| b l IH]; intros i H; destruct i;
    cbn [updateNth]; inversion H; subst; constructor; auto.
Qed.

Lemma Forall_updateAt {A : Type} (Q : A -> Prop) (l : list A) (i : Z)
    (g : A -> A) :
  (forall a, Q a -> Q (g a)) -> Forall Q l -> Forall Q (updateAt l i g).
Proof.
  intros Hg H. unfold updateAt. destruct (i <? 0)%Z; [exact H |].
  apply Forall_updateNth; assumption.
Qed.

Lemma Forall_filter {A : Type} (Q : A -> Prop) (keep : A -> bool) (l : list A) :
  Forall Q l -> Forall Q (filter keep l).
Proof.
  intros H. apply Forall_forall. intros a Ha. apply filter_In in Ha.
  destruct Ha as [Ha _]. revert a Ha. apply Forall_forall. exact H.
Qed.

Lemma boxOk_movedBy (dx dy : R) (a : Annotation) :
  boxOk a -> boxOk (movedBy dx dy a).
Proof. intros H. exact H. Qed.

Lemma boxOk_resizedBy (dw dh : R) (a : Annotation) : boxOk (resizedBy dw dh a).
Proof.
  unfold resizedBy, boxOk. destruct (ann_type a) as [| w h] eqn:E.
  - rewrite E. exact I.
  - cbn [ann_type]. split; apply Rmax_l.
Qed.

Lemma boxOk_drawn (newId : string) (p : Project) (f : Frame) (tl : Tool)
    (ds : DragStart) (x y : R) (ann : Annotation) :
  drawnAnnotation newId p f tl ds x y = Some ann -> boxOk ann.
Proof.
  unfold drawnAnnotation. cbv zeta.
  destruct (isPointTool tl); [intros H; inversion H; exact I |].
  destruct (isBoxTool tl); [| discriminate].
  destruct (Rltb _ _); intros H; inversion H; unfold boxOk;
    cbn [ann_type createAnnotation].
  - unfold DEFAULT_BBOX_SIZE, MIN_BBOX_SIDE. lra.
  - split; apply Rmax_l.
Qed.

Lemma boxesOk_annotationsOf (p : Project) (isGlobal : bool) :
  boxesOk p -> Forall boxOk (annotationsOf p isGlobal).
Proof.
  intros [Hg Hf]. unfold annotationsOf. destruct isGlobal; [exact Hg |].
  unfold currentFrame, frameAt. destruct (currentIndex p <? 0)%Z; [constructor |].
  destruct (nth_error (frames p) (Z.to_nat (currentIndex p))) as [f |] eqn:E;
    [| constructor].
  apply nth_error_In in E. revert f E. apply Forall_forall. exact Hf.
Qed.

Section BoxesStayOk.

Variable snap : AppState.
Hypothesis Hsnap : boxesOk (project snap).

Local Abbreviation P := (fun w : World => boxesOk (project (ui w))).
Local Abbreviation keeps h := (preservesAt P snap h).

Lemma boxes_cell :
  forall f w, (forall s, project (f s) = project s) ->
              P w -> P (mkWorld (f (ui w)) (env w)).
Proof. intros f w Hf HP. cbn [ui]. rewrite Hf. exact HP. Qed.

Lemma boxes_project :
  forall p w, boxesOk p -> P w -> P (mkWorld (withProject (ui w) p) (env w)).
Proof. intros p w Hp _. exact Hp. Qed.

Lemma boxes_save :
  forall proj w, P w -> P (mkWorld (ui w) (scheduleSave proj (env w))).
Proof. intros proj w HP. exact HP. Qed.

Hint Resolve boxes_cell boxes_project boxes_save : preserve.

Lemma boxes_update (u : Project -> Project) :
  boxesOk (u (project snap)) -> keeps (updateProject u).
Proof.
  intros Hu.
  apply (preserves_updateProject P snap boxesOk boxes_project boxes_save).
  exact Hu.
Qed.

Lemma boxes_updateFrameAnnotations i anns :
  Forall boxOk anns -> keeps (updateFrameAnnotations i anns).
Proof.
  intros Ha. apply boxes_update. destruct Hsnap as [Hg Hf].
  split; [exact Hg |]. cbn [frames withFrames].
  apply Forall_updateAt; [intros f _; exact Ha | exact Hf].
Qed.

Lemma boxes_updateFrameRotation i r : keeps (updateFrameRotation i r).
Proof.
  apply boxes_update. destruct Hsnap as [Hg Hf].
  split; [exact Hg |]. cbn [frames withFrames].
  apply Forall_updateAt; [intros f H; exact H | exact Hf].
Qed.

Lemma boxes_updateGlobalBuoys bs :
  Forall boxOk bs -> keeps (updateGlobalBuoys bs).
Proof.
  intros Hb. apply boxes_update. destruct Hsnap as [_ Hf]. split; assumption.
Qed.

Lemma boxes_updateViewport z x y : keeps (updateViewport z x y).
Proof. apply boxes_update. exact Hsnap. Qed.

Hint Resolve boxes_updateFrameRotation boxes_updateViewport : preserve.

Lemma boxes_goToFrame index : keeps (goToFrame index).
Proof.
  unfold goToFrame. preserve. apply boxes_update. exact Hsnap.
Qed.

Lemma boxes_storeAnnotations g anns :
  Forall boxOk anns -> keeps (storeAnnotations g anns).
Proof.
  intros Ha. unfold storeAnnotations. preserve.
  - apply boxes_updateGlobalBuoys. exact Ha.
  - apply boxes_updateFrameAnnotations. exact Ha.
Qed.

Lemma boxes_deleteAnnotation : keeps deleteAnnotation.
Proof.
  pose proof (boxesOk_annotationsOf (project snap) false Hsnap) as Hframe.
  pose proof (boxesOk_annotationsOf (project snap) true Hsnap) as Hglobal.
  unfold annotationsOf in Hframe, Hglobal.
  unfold deleteAnnotation. preserve.
  - apply boxes_updateFrameAnnotations. apply Forall_filter.
    exact Hframe.
  - apply boxes_updateGlobalBuoys. apply Forall_filter. exact Hglobal.
Qed.

Lemma boxes_moveAnnotation id dx dy g : keeps (moveAnnotation id dx dy g).
Proof.
  unfold moveAnnotation. preserve.
  apply boxes_storeAnnotations. apply Forall_updateNth.
  - apply boxOk_movedBy.
  - apply boxesOk_annotationsOf. exact Hsnap.
Qed.

Lemma boxes_resizeAnnotation id dw dh g : keeps (resizeAnnotation id dw dh g).
Proof.
  unfold resizeAnnotation. preserve.
  apply boxes_storeAnnotations. apply Forall_updateNth.
  - intros b _. apply boxOk_resizedBy.
  - apply boxesOk_annotationsOf. exact Hsnap.
Qed.

Hint Resolve boxes_goToFrame boxes_deleteAnnotation boxes_moveAnnotation
  boxes_resizeAnnotation : preserve.

Lemma boxes_mouseDown x y : keeps (handleCanvasMouseDown x y).
Proof. unfold handleCanvasMouseDown. preserve. Qed.

Lemma boxes_mouseMove x y : keeps (handleCanvasMouseMove x y).
Proof. unfold handleCanvasMouseMove, resizeDrag. preserve. Qed.

Lemma boxes_mouseUp newId x y : keeps (handleCanvasMouseUp newId x y).
Proof.
  pose proof (boxesOk_annotationsOf (project snap) false Hsnap) as Hframe.
  unfold annotationsOf in Hframe.
  unfold handleCanvasMouseUp. preserve.
  match goal with
  | H : drawnAnnotation _ _ _ _ _ _ _ = Some _ |- _ =>
      pose proof (boxOk_drawn _ _ _ _ _ _ _ _ H) as Hann
  end.
  unfold appendAnnotation. destruct (isBuoyTool (tool snap)).
  - apply boxes_updateGlobalBuoys. apply Forall_app. split.
    + apply Hsnap.
    + constructor; [exact Hann | constructor].
  - apply boxes_updateFrameAnnotations. apply Forall_app. split.
    + exact Hframe.
    + constructor; [exact Hann | constructor].
Qed.

Lemma boxes_mouseLeave : keeps handleCanvasMouseLeave.
Proof. unfold handleCanvasMouseLeave. preserve. Qed.

Lemma boxes_keyDown e : keeps (handleKeyDown e).
Proof.
  unfold handleKeyDown, handleBackupDownload, keySwitch. preserve.
Qed.

Lemma boxes_import (fs : list ImageData) :
  keeps (setProject (withImportedFrames (project snap) (map newFrame fs))).
Proof.
  apply (preserves_setProject P snap boxesOk boxes_project).
  destruct Hsnap as [Hg _]. split; [exact Hg |].
  cbn [frames withImportedFrames]. apply Forall_forall.
  intros f Hf. apply in_map_iff in Hf. destruct Hf as [img [<- _]].
  constructor.
Qed.

Ltac imported :=
  match goal with
  | |- preservesAt _ _ (setProject (withImportedFrames _ [newFrame ?img])) =>
      apply (boxes_import [img])
  | |- preservesAt _ _ (setProject (withImportedFrames _ (map newFrame ?imgs))) =>
      apply (boxes_import imgs)
  end.

Lemma boxes_installProject readProject v :
  (validProjectStructure v = Some true -> boxesOk (readProject v)) ->
  keeps (installProject readProject v).
Proof.
  intros Hv. unfold installProject.
  destruct (validProjectStructure v) as [[|] |]; preserve.
  apply (preserves_setProject P snap boxesOk boxes_project). auto.
Qed.

Lemma boxes_handlerOf readProject naturalSort op :
  (forall p, loadedBy readProject op = Some p -> boxesOk p) ->
  keeps (handlerOf readProject naturalSort op).
Proof.
  intros Hload. destruct op; cbn [handlerOf].
  - apply boxes_goToFrame.
  - apply boxes_keyDown.
  - unfold handleSpaceDown. preserve.
  - unfold handleSpaceUp. preserve.
  - unfold handleWheel. preserve.
  - unfold handleZoomSlider. preserve.
  - unfold handleZoomReset. preserve.
  - unfold handleRotationSlider. preserve.
  - unfold handleRotationInput. preserve.
  - apply boxes_mouseDown.
  - apply boxes_mouseMove.
  - apply boxes_mouseUp.
  - apply boxes_mouseLeave.
  - unfold handleOpenFile, clickHiddenInput. preserve. imported.
  - unfold handleFileInputChange. preserve. imported.
  - unfold handleFolderInputChange. preserve. imported.
  - unfold handleOpenFolder, clickHiddenInput. preserve. imported.
  - unfold handleLoadProject, clickHiddenInput.
    destruct outcome as [| abortError | [message | v]]; preserve.
    apply boxes_installProject. intros Hv. apply Hload.
    cbn [loadedBy]. rewrite Hv. reflexivity.
  - unfold handleProjectFileInput.
    destruct file as [[message | v] |]; preserve.
    apply boxes_installProject. intros Hv. apply Hload.
    cbn [loadedBy]. rewrite Hv. reflexivity.
  - apply preserves_ret.
Qed.

End BoxesStayOk.

Lemma boxesOk_default (nowIso : string) : boxesOk (createDefaultProject nowIso).
Proof. split; constructor. Qed.

Lemma runOp_runOpFrom readProject naturalSort (op : Op) (w : World) :
  runOp readProject naturalSort op w
  = runOpFrom readProject naturalSort w op w.
Proof. destruct op; reflexivity. Qed.



(** ** The keyboard *)

(** X14.  Pressing and releasing [Space] does not bring back the tool that was
    active: while the key is held the tool is pan (select if pan was the
    active tool), and after the release the tool is select, whatever it
    was; the project and the timers are not touched. *)
Theorem space_ends_in_select (w : World) :
  let w1 := runHandler handleSpaceDown w in
  let w2 := runHandler handleSpaceUp w1 in
  (tool (ui w) <> TOOL_PAN -> tool (ui w1) = TOOL_PAN) /\
  (tool (ui w) = TOOL_PAN -> tool (ui w1) = TOOL_SELECT) /\
  tool (ui w2) = TOOL_SELECT /\
  project (ui w2) = project (ui w) /\ selection (ui w2) = selection (ui w) /\
  env w2 = env w.
Proof.
  destruct w as [[p tl sel hov drg start cur st] e]. cbv zeta.
  unfold runHandler, handleSpaceDown, handleSpaceUp, setTool, setUi.
  cbn [ui env project tool selection].
  destruct tl; repeat split; intros H; try reflexivity; try discriminate H;
    exfalso; apply H; reflexivity.
Qed.

Lemma space_ends_in_select_witness :
  tool (ui (runHandler handleSpaceDown
              (worldOf (oneFrameProject [] 1 0 0) TOOL_BOAT_BOX))) = TOOL_PAN.
Proof.
  destruct (space_ends_in_select
              (worldOf (oneFrameProject [] 1 0 0) TOOL_BOAT_BOX)) as [H _].
  apply H. discriminate.
Defined.

(** The project after a key that only changes the viewport. *)
Ltac key_eval Hf :=
  unfold runHandler, handleKeyDown, bind, closure;
  rewrite Hf; unfold keySwitch, keyIn;
  cbn [key shiftKey ctrlKey metaKey existsb String.eqb Ascii.eqb Bool.eqb
       orb andb];
  rewrite ?andb_false_r.

(** X15.  The arrow keys pan by [40 / zoom] and do nothing else, with or without
    [Shift]: [Shift+ArrowLeft] and [Shift+ArrowRight] pan like the plain
    keys and do not change the frame shown. *)
Theorem arrow_keys_only_pan (w : World) (f : Frame) (shift ctrl meta : bool) :
  currentFrame (project (ui w)) = Some f ->
  let p := project (ui w) in
  let v := viewport p in
  let step := 40 / zoom v in
  let after k :=
    project (ui (runHandler (handleKeyDown (mkKeyEvent k shift ctrl meta)) w)) in
  after "ArrowUp"%string
  = withViewport p (mkViewport (zoom v) (panX v) (panY v + step)) /\
  after "ArrowDown"%string
  = withViewport p (mkViewport (zoom v) (panX v) (panY v - step)) /\
  after "ArrowLeft"%string
  = withViewport p (mkViewport (zoom v) (panX v + step) (panY v)) /\
  after "ArrowRight"%string
  = withViewport p (mkViewport (zoom v) (panX v - step) (panY v)).
Proof.
  intros Hf. cbv zeta. repeat split; key_eval Hf; reflexivity.
Qed.

Lemma arrow_keys_only_pan_witness :
  currentIndex
    (project (ui (runHandler (handleKeyDown (mkKeyEvent "ArrowLeft" true false false))
                    (worldOf (oneFrameProject [] 2 0 0) TOOL_SELECT))))
  = 0%Z.
Proof.
  destruct (arrow_keys_only_pan
              (worldOf (oneFrameProject [] 2 0 0) TOOL_SELECT)
              (mkFrame "a.png" "" 100 100 0 []) true false false eq_refl)
    as [_ [_ [H _]]].
  cbv zeta in H. rewrite H. reflexivity.
Defined.

Lemma run_key_zoom (w : World) (f : Frame) (shift ctrl meta : bool) :
  currentFrame (project (ui w)) = Some f ->
  let p := project (ui w) in
  let v := viewport p in
  project (ui (runHandler (handleKeyDown (mkKeyEvent "+" shift ctrl meta)) w))
  = withViewport p (mkViewport (Rmin ZOOM_MAX (zoom v * 1.2)) (panX v) (panY v)) /\
  project (ui (runHandler (handleKeyDown (mkKeyEvent "-" shift ctrl meta)) w))
  = withViewport p (mkViewport (Rmax ZOOM_MIN (zoom v / 1.2)) (panX v) (panY v)).
Proof.
  intros Hf. cbv zeta. split; key_eval Hf; reflexivity.
Qed.

(** X16.  What the zoom keys do, with a frame loaded and whatever modifier
    is held: [+] and [=] set the zoom to [min(32, zoom * 1.2)], [-] and
    [_] set it to [max(0.2, zoom / 1.2)], and none of them changes the pan
    or anything else of the project.  (The zoom is not re-centred as it is
    by the wheel.) *)
Theorem zoom_keys_change_only_zoom (w : World) (f : Frame)
    (shift ctrl meta : bool) :
  currentFrame (project (ui w)) = Some f ->
  let p := project (ui w) in
  let v := viewport p in
  let after k :=
    project (ui (runHandler (handleKeyDown (mkKeyEvent k shift ctrl meta)) w)) in
  let zoomedIn :=
    withViewport p (mkViewport (Rmin 32 (zoom v * 1.2)) (panX v) (panY v)) in
  let zoomedOut :=
    withViewport p (mkViewport (Rmax 0.2 (zoom v / 1.2)) (panX v) (panY v)) in
  after "+"%string = zoomedIn /\ after "="%string = zoomedIn /\
  after "-"%string = zoomedOut /\ after "_"%string = zoomedOut.
Proof.
  intros Hf. cbv zeta. repeat split; key_eval Hf; reflexivity.
Qed.

Lemma zoom_keys_change_only_zoom_witness :
  project (ui (runHandler (handleKeyDown (mkKeyEvent "=" true false false))
                 (worldOf (oneFrameProject [] 2 3 4) TOOL_SELECT)))
  = oneFrameProject [] (Rmin 32 (2 * 1.2)) 3 4.
Proof.
  destruct (zoom_keys_change_only_zoom
              (worldOf (oneFrameProject [] 2 3 4) TOOL_SELECT)
              (mkFrame "a.png" "" 100 100 0 []) true false false eq_refl)
    as [_ [H _]].
  exact H.
Defined.

Lemma run_key_rotate (w : World) (f : Frame) (shift ctrl meta : bool) :
  currentFrame (project (ui w)) = Some f ->
  let p := project (ui w) in
  currentFrame
    (project (ui (runHandler (handleKeyDown (mkKeyEvent "[" shift ctrl meta)) w)))
  = Some (withRotationDeg f (Rmax ROTATION_MIN (rotationDeg f - 0.1))) /\
  currentFrame
    (project (ui (runHandler (handleKeyDown (mkKeyEvent "]" shift ctrl meta)) w)))
  = Some (withRotationDeg f (Rmin ROTATION_MAX (rotationDeg f + 0.1))).
Proof.
  intros Hf. cbv zeta. split; key_eval Hf.
  - exact (currentFrame_updateAt (project (ui w)) f
             (fun f0 => withRotationDeg f0 (Rmax ROTATION_MIN (rotationDeg f - 0.1)))
             Hf).
  - exact (currentFrame_updateAt (project (ui w)) f
             (fun f0 => withRotationDeg f0 (Rmin ROTATION_MAX (rotationDeg f + 0.1)))
             Hf).
Qed.

(** X17.  The rotation keys turn the current frame by 0.1 degree while there is
    room and stop at the bounds: from an angle in [[-10, 10]] the new angle
    is in [[-10, 10]], it is the old angle minus 0.1 for [[] (plus 0.1 for
    []]) unless that passes the bound, and then it is the bound.  The image
    and the annotations of the frame are kept. *)
Theorem rotation_keys_stay_in_bounds (w : World) (f : Frame) :
  currentFrame (project (ui w)) = Some f ->
  -10 <= rotationDeg f <= 10 ->
  let press k := runHandler (handleKeyDown (mkKeyEvent k false false false)) w in
  exists fl fr,
    currentFrame (project (ui (press "["%string))) = Some fl /\
    currentFrame (project (ui (press "]"%string))) = Some fr /\
    -10 <= rotationDeg fl <= 10 /\ -10 <= rotationDeg fr <= 10 /\
    (-10 <= rotationDeg f - 0.1 -> rotationDeg fl = rotationDeg f - 0.1) /\
    (rotationDeg f - 0.1 < -10 -> rotationDeg fl = -10) /\
    (rotationDeg f + 0.1 <= 10 -> rotationDeg fr = rotationDeg f + 0.1) /\
    (10 < rotationDeg f + 0.1 -> rotationDeg fr = 10) /\
    annotations fl = annotations f /\ annotations fr = annotations f /\
    (name fl, url fl, width fl, height fl) = (name f, url f, width f, height f) /\
    (name fr, url fr, width fr, height fr) = (name f, url f, width f, height f).
Proof.
  intros Hf Hr. cbv zeta.
  destruct (run_key_rotate w f false false false Hf) as [Hl Hrr].
  cbv zeta in Hl, Hrr.
  eexists. eexists. split; [exact Hl |]. split; [exact Hrr |].
  cbn [rotationDeg withRotationDeg annotations name url width height].
  unfold ROTATION_MIN, ROTATION_MAX.
  repeat split; try (intros; rminmax); rminmax.
Qed.

Lemma rotation_keys_stay_in_bounds_witness :
  exists fr,
    currentFrame
      (project (ui (runHandler (handleKeyDown (mkKeyEvent "]" false false false))
                      (worldOf (oneFrameProject [] 1 0 0) TOOL_SELECT))))
    = Some fr /\ rotationDeg fr = 0 + 0.1.
Proof.
  destruct (rotation_keys_stay_in_bounds
              (worldOf (oneFrameProject [] 1 0 0) TOOL_SELECT)
              (mkFrame "a.png" "" 100 100 0 []) eq_refl)
    as [fl [fr [_ [Hfr [_ [_ [_ [_ [Hstep _]]]]]]]]].
  - cbn [rotationDeg]. lra.
  - exists fr. split; [exact Hfr |]. apply Hstep. cbn [rotationDeg]. lra.
Defined.

(** ** Project files *)

Lemma annotationOfJson_jsonOfAnnotation (a : Annotation) :
  annotationOfJson (jsonOfAnnotation a) = Some a.
Proof. destruct a as [id [| w h] [|] x y]; reflexivity. Qed.

Lemma allSome_map {A B : Type} (to : A -> B) (from : B -> option A) (l : list A) :
  (forall a, from (to a) = Some a) ->
  allSome (map from (map to l)) = Some l.
Proof.
  intros H. induction l as [| a l IH]; [reflexivity |].
  cbn [map allSome]. rewrite H, IH. reflexivity.
Qed.

Lemma frameOfJson_jsonOfFrame (f : Frame) :
  frameOfJson (jsonOfFrame f) = Some f.
Proof.
  destruct f as [n u w h r anns].
  unfold frameOfJson, jsonOfFrame, stringField, numberField, arrayField, fieldOf.
  cbn [lookupField String.eqb Ascii.eqb Bool.eqb obind name url width height
       rotationDeg annotations].
  rewrite (allSome_map jsonOfAnnotation annotationOfJson anns
             annotationOfJson_jsonOfAnnotation).
  reflexivity.
Qed.

Lemma projectOfJson_jsonOfProject (p : Project) :
  projectOfJson (jsonOfProject p) = Some p.
Proof.
  destruct p as [v c [z x y] i fs bs].
  unfold projectOfJson, jsonOfProject, integerField, stringField, numberField,
    arrayField, fieldOf.
  cbn [lookupField String.eqb Ascii.eqb Bool.eqb obind version createdAt
       viewport currentIndex frames globalBuoys].
  rewrite !asInteger_IZR. cbn [obind].
  rewrite (allSome_map jsonOfFrame frameOfJson fs frameOfJson_jsonOfFrame).
  rewrite (allSome_map jsonOfAnnotation annotationOfJson bs
             annotationOfJson_jsonOfAnnotation).
  reflexivity.
Qed.

Lemma valid_jsonOfProject (p : Project) :
  validProjectStructure (jsonOfProject p)
  = Some (negb (version p =? 0)%Z).
Proof.
  unfold validProjectStructure, jsonOfProject.
  cbn [getProperty lookupField String.eqb Ascii.eqb Bool.eqb truthy isArray].
  destruct (Z.eqb_spec (version p) 0) as [H0 | Hn].
  - rewrite H0. assert (H : Reqb 0 0 = true) by (apply Reqb_true; reflexivity).
    rewrite H. reflexivity.
  - assert (H : Reqb (IZR (version p)) 0 = false).
    { apply Reqb_false. intros H. apply eq_IZR in H. contradiction. }
    rewrite H. reflexivity.
Qed.

Lemma framesLength_jsonOfProject (p : Project) :
  framesLength (jsonOfProject p) = List.length (frames p).
Proof.
  unfold framesLength, jsonOfProject.
  cbn [getProperty lookupField String.eqb Ascii.eqb Bool.eqb].
  apply length_map.
Qed.

Lemma load_jsonOfProject (p : Project) (w : World) :
  version p <> 0%Z ->
  runHandler (handleProjectFileInput projectView
                (Some (ParsedValue (jsonOfProject p)))) w
  = mkWorld (mkAppState p (tool (ui w)) None (hoveredId (ui w))
                        (isDragging (ui w)) (dragStart (ui w))
                        (dragCurrent (ui w))
                        (StatusLoadedProject (List.length (frames p))))
            (env w).
Proof.
  intros Hv. unfold handleProjectFileInput.
  rewrite tryCatch_installProject_accept.
  - unfold projectView.
    rewrite projectOfJson_jsonOfProject, framesLength_jsonOfProject.
    reflexivity.
  - rewrite valid_jsonOfProject.
    destruct (Z.eqb_spec (version p) 0); [contradiction | reflexivity].
Qed.

(** X18.  A project written by the component and read back is the same project:
    the written text parses to an object from which every field is read
    again, and loading it through the project file input installs exactly
    that project, clears the selection and reports its number of frames.
    This needs a version other than 0; a project of version 0 is refused by
    the loader and the project on screen stays. *)
Theorem saved_project_loads_back (p : Project) (w : World) :
  let file := Some (ParsedValue (jsonOfProject p)) in
  let w' := runHandler (handleProjectFileInput projectView file) w in
  projectOfJson (jsonOfProject p) = Some p /\
  (version p <> 0%Z ->
   project (ui w') = p /\ selection (ui w') = None /\
   status (ui w') = StatusLoadedProject (List.length (frames p)) /\
   env w' = env w) /\
  (version p = 0%Z ->
   project (ui w') = project (ui w) /\
   status (ui w') = StatusInvalidProjectFileFormat).
Proof.
  cbv zeta. split; [apply projectOfJson_jsonOfProject |].
  split; intros Hv.
  - rewrite (load_jsonOfProject p w Hv). repeat split.
  - unfold handleProjectFileInput, runHandler, tryCatch, installProject.
    rewrite valid_jsonOfProject, Hv. split; reflexivity.
Qed.

Lemma saved_project_loads_back_witness :
  project (ui (runHandler
                 (handleProjectFileInput projectView
                    (Some (ParsedValue
                             (jsonOfProject (oneFrameProject [boxA; pointP] 2 3 4)))))
                 (initialWorld "")))
  = oneFrameProject [boxA; pointP] 2 3 4.
Proof.
  destruct (saved_project_loads_back (oneFrameProject [boxA; pointP] 2 3 4)
              (initialWorld "")) as [_ [H _]].
  cbv zeta in H. apply H. cbn [oneFrameProject version]. lia.
Defined.

Lemma projectView_version (v : json) :
  validProjectStructure v = Some true -> version (projectView v) <> 0%Z.
Proof.
  intros Hv. apply validProjectStructure_true in Hv. destruct Hv as [Ht _].
  unfold hasTruthyVersion in Ht. unfold projectView.
  destruct (projectOfJson v) as [p |] eqn:E;
    [| cbn [createDefaultProject version]; lia].
  unfold projectOfJson in E.
  destruct (integerField v "version") as [z |] eqn:Hz; [| discriminate E].
  cbn [obind] in E.
  repeat match type of E with
         | obind ?o _ = Some _ =>
             destruct o; [cbn [obind] in E | discriminate E]
         end.
  injection E as <-. cbn [version].
  unfold integerField, numberField in Hz.
  destruct (fieldOf v "version") as [[| b | r | str | items | fields] |];
    try discriminate Hz.
  cbn [obind] in Hz. unfold asInteger in Hz.
  destruct (Req_dec_T (IZR (up r - 1)) r) as [Hr |]; [| discriminate Hz].
  injection Hz as <-. intros H0.
  cbn [truthy] in Ht. rewrite <- Hr, H0 in Ht.
  assert (H : Reqb 0 0 = true) by (apply Reqb_true; reflexivity).
  rewrite H in Ht. discriminate Ht.
Qed.

(** X19.  No event sets the version to 0, so what a save writes always
    passes the structure check of the loaders.  Take any event whose
    handler reads the closure of a world [w0] and runs, or for an [async]
    handler ends, in a world [w] (project files being read field by field).
    If the version is not 0 in both projects, it is not 0 in the project
    after the event: the handlers copy the version of one of the two, and a
    load installs a version that has passed the truthiness check.  The
    text written for the project after the event therefore has a truthy
    [version] next to a [frames] array. *)
Theorem version_never_becomes_zero
    (naturalSort : list ImageData -> list ImageData) (w0 w : World) (op : Op) :
  hostAllows op ->
  version (project (ui w0)) <> 0%Z ->
  version (project (ui w)) <> 0%Z ->
  let p' := project (ui (runOpFrom projectView naturalSort w0 op w)) in
  version p' <> 0%Z /\
  validProjectStructure (jsonOfProject p') = Some true.
Proof.
  intros Hhost H0 Hw. cbv zeta.
  assert (Hv : version (project (ui (runOpFrom projectView naturalSort w0 op w)))
               <> 0%Z).
  { destruct op;
      try (cbn [runOpFrom]; rewrite advanceTo_project; exact Hw);
      cbn [runOpFrom];
      apply (preserves_runAsync (fun w => version (project (ui w)) <> 0%Z));
      try exact Hw;
      apply (keeps_handlerOf (fun w => version (project (ui w)) <> 0%Z)
               (fun p => version p <> 0%Z));
      try assumption;
      try (intros; cbn [ui project]; auto; fail).
    all: first [ intros f0 w1 Hf0 HP; cbn [ui]; rewrite Hf0; exact HP
               | intros p0 Hp0; cbn [loadedBy] in Hp0;
                 repeat match type of Hp0 with
                        | match ?x with _ => _ end = Some _ =>
                            destruct x eqn:?; try discriminate Hp0
                        end;
                 injection Hp0 as <-; apply projectView_version; assumption
               | intros p0 Hp0; discriminate Hp0 ]. }
  split; [exact Hv |].
  rewrite valid_jsonOfProject.
  destruct (Z.eqb_spec
              (version (project (ui (runOpFrom projectView naturalSort w0 op w))))
              0);
    [contradiction | reflexivity].
Qed.

Lemma version_never_becomes_zero_witness :
  let w := runOp projectView (fun l => l)
             (OpFileInput (Some (inl (mkImageData "a.png" "" 100 100))))
             (initialWorld "") in
  validProjectStructure (jsonOfProject (project (ui w))) = Some true.
Proof.
  cbv zeta. rewrite runOp_runOpFrom.
  apply (version_never_becomes_zero (fun l => l) (initialWorld "")
           (initialWorld "")
           (OpFileInput (Some (inl (mkImageData "a.png" "" 100 100)))) I).
  - cbn [initialWorld ui project createDefaultProject version]. lia.
  - cbn [initialWorld ui project createDefaultProject version]. lia.
Defined.

(** ** What a save writes, and what a reload restores *)

Lemma scheduleSave_store (proj : Project) (e : Env) :
  fileHandle (scheduleSave proj e) = fileHandle e /\
  localStorageBackup (scheduleSave proj e) = localStorageBackup e /\
  liveFile (scheduleSave proj e) = liveFile e.
Proof. unfold scheduleSave. destruct (saveTimeoutRef e); repeat split. Qed.

(** One edit at time [t] with no timer pending, then time passing to
    [T >= t + 400]. *)
Lemma edit_then_wait (host : SaveHost) (w : World) (t T : Z)
    (u : Project -> Project) :
  timers (env w) = [] ->
  (clock (env w) <= t)%Z ->
  (t + 400 <= T)%Z ->
  let w1 := mutateAt host t u w in
  let p' := u (project (ui w)) in
  env w1 = scheduleSave p' (env (setClock t w)) /\
  advanceTo host T w1
  = saveCallback host p'
      (dropTimer (nextTimerId (env w)) (setClock T w1)).
Proof.
  intros Hidle Ht HT. cbv zeta. unfold mutateAt.
  assert (Hmax : Z.max t (clock (env w)) = t) by lia.
  rewrite (advanceTo_idle host t w Hidle), Hmax.
  rewrite run_updateProject. cbn [env ui project setClock withProject].
  split; [reflexivity |].
  set (e1 := mkEnv (saveTimeoutRef (env w)) (timers (env w))
                   (nextTimerId (env w)) t (fileHandle (env w))
                   (localStorageBackup (env w)) (liveFile (env w))
                   (saveLog (env w))).
  destruct (scheduleSave_timers (u (project (ui w))) e1) as [Htm _].
  { left. exact Hidle. }
  destruct (scheduleSave_rest (u (project (ui w))) e1) as [Hc _].
  match goal with
  | |- advanceTo host T ?w1 = _ =>
      rewrite (advanceTo_fires host T w1 _ Htm);
        cbn [env timer_due timer_id timer_proj]; rewrite Hc;
        cbn [e1 clock nextTimerId]
  end.
  - replace (Z.max T t) with T by lia. reflexivity.
  - unfold SAVE_DEBOUNCE_MS. lia.
Qed.

Lemma edit_then_wait_store (host : SaveHost) (w : World) (t T : Z)
    (u : Project -> Project) :
  timers (env w) = [] ->
  (clock (env w) <= t)%Z ->
  (t + 400 <= T)%Z ->
  let w1 := mutateAt host t u w in
  let w2 := advanceTo host T w1 in
  let p' := u (project (ui w)) in
  localStorageBackup (env w1) = localStorageBackup (env w) /\
  liveFile (env w1) = liveFile (env w) /\
  localStorageBackup (env w2)
  = (if setItemOk host then Some p' else localStorageBackup (env w)) /\
  liveFile (env w2)
  = (if fileHandle (env w) && liveWriteOk host then Some p'
     else liveFile (env w)) /\
  status (ui w2)
  = (if fileHandle (env w) && negb (liveWriteOk host)
     then StatusSaveFailed (timeString host)
     else StatusSaved (timeString host)).
Proof.
  intros Hidle Ht HT.
  destruct (edit_then_wait host w t T u Hidle Ht HT) as [He Hfire].
  cbv zeta in *. rewrite Hfire.
  destruct (scheduleSave_store (u (project (ui w))) (env (setClock t w)))
    as [Hh [Hb Hl]].
  rewrite He.
  split; [exact Hb |]. split; [exact Hl |].
  cbn [saveCallback env ui localStorageBackup liveFile status project
       dropTimer setClock clearTimeout fileHandle].
  rewrite He, Hh, Hl, Hb. cbn [setClock env fileHandle liveFile localStorageBackup].
  split; [reflexivity |]. split; [reflexivity |].
  destruct (fileHandle (env w)), (liveWriteOk host); reflexivity.
Qed.

(** X20.  What one edit leaves in storage.  Until the 400 ms have passed,
    neither the [localStorage] backup nor the file is touched.  When they
    have, the edited project is in the backup exactly when
    [localStorage.setItem] did not throw, and in the file exactly when a
    file handle is held and the write succeeds; what was there before stays
    otherwise.  The status is a failure exactly when a handle is held and
    the write fails: it does not depend on the backup, so with no handle
    and a full store the status reads saved although nothing was written
    anywhere. *)
Theorem save_writes_backup_and_file (host : SaveHost) (w : World) (t T : Z)
    (u : Project -> Project) :
  timers (env w) = [] ->
  (clock (env w) <= t)%Z ->
  (t + 400 <= T)%Z ->
  let w1 := mutateAt host t u w in
  let w2 := advanceTo host T w1 in
  let p' := u (project (ui w)) in
  localStorageBackup (env w1) = localStorageBackup (env w) /\
  liveFile (env w1) = liveFile (env w) /\
  localStorageBackup (env w2)
  = (if setItemOk host then Some p' else localStorageBackup (env w)) /\
  liveFile (env w2)
  = (if fileHandle (env w) && liveWriteOk host then Some p'
     else liveFile (env w)) /\
  status (ui w2)
  = (if fileHandle (env w) && negb (liveWriteOk host)
     then StatusSaveFailed (timeString host)
     else StatusSaved (timeString host)) /\
  (fileHandle (env w) = false -> setItemOk host = false ->
   localStorageBackup (env w2) = localStorageBackup (env w) /\
   liveFile (env w2) = liveFile (env w) /\
   status (ui w2) = StatusSaved (timeString host)) /\
  project (ui w2) = p'.
Proof.
  intros Hidle Ht HT.
  destruct (edit_then_wait_store host w t T u Hidle Ht HT)
    as [H1 [H2 [H3 [H4 H5]]]].
  cbv zeta in *.
  repeat (split; [assumption |]).
  split.
  - intros Hh Hs. rewrite H3, H4, H5, Hh, Hs. repeat split.
  - rewrite advanceTo_project. unfold mutateAt.
    rewrite run_updateProject. cbn [ui project withProject].
    rewrite advanceTo_project. reflexivity.
Qed.

Lemma save_writes_backup_and_file_witness :
  let w := worldOf (oneFrameProject [] 1 0 0) TOOL_SELECT in
  let u := fun p => withViewport p (mkViewport 2 0 0) in
  localStorageBackup
    (env (advanceTo (mkSaveHost true true "12:00:00") 400
            (mutateAt (mkSaveHost true true "12:00:00") 0 u w)))
  = Some (oneFrameProject [] 2 0 0) /\
  localStorageBackup
    (env (advanceTo (mkSaveHost false true "12:00:00") 400
            (mutateAt (mkSaveHost false true "12:00:00") 0 u w)))
  = None.
Proof.
  cbv zeta. split.
  - destruct (save_writes_backup_and_file (mkSaveHost true true "12:00:00")
                (worldOf (oneFrameProject [] 1 0 0) TOOL_SELECT) 0 400
                (fun p => withViewport p (mkViewport 2 0 0)))
      as [_ [_ [H _]]]; [reflexivity | vm_compute; discriminate | lia |].
    exact H.
  - destruct (save_writes_backup_and_file (mkSaveHost false true "12:00:00")
                (worldOf (oneFrameProject [] 1 0 0) TOOL_SELECT) 0 400
                (fun p => withViewport p (mkViewport 2 0 0)))
      as [_ [_ [H _]]]; [reflexivity | vm_compute; discriminate | lia |].
    exact H.
Defined.

Lemma run_restoreOnMount (getItemOk : bool) (w : World) :
  runHandler (restoreOnMount getItemOk) w
  = match loadFromLocalStorage getItemOk (env w) with
    | Some backup =>
        if (0 <? Z.of_nat (List.length (frames backup)))%Z
        then mkWorld (mkAppState backup (tool (ui w)) (selection (ui w))
                                 (hoveredId (ui w)) (isDragging (ui w))
                                 (dragStart (ui w)) (dragCurrent (ui w))
                                 StatusRestored)
                     (env w)
        else w
    | None => w
    end.
Proof.
  unfold runHandler, restoreOnMount, bind, getEnv.
  destruct (loadFromLocalStorage getItemOk (env w)) as [backup |];
    [| reflexivity].
  destruct (0 <? Z.of_nat (List.length (frames backup)))%Z; reflexivity.
Qed.

(** X21.  Reloading the page after a save has fired.  If [setItem] did not
    throw when the save ran and [getItem] does not throw on the new page,
    the saved project is brought back when it has at least one frame, and
    the page starts from the empty project when it has none.  If [getItem]
    throws, the page starts from the empty project.  If [setItem] threw,
    or if the page is reloaded before the 400 ms have passed, the edit is
    lost: the page shows what a reload before the edit would have shown.
    The restore itself schedules no save and holds no file handle. *)
Theorem reload_restores_last_save (host : SaveHost) (w : World) (t T : Z)
    (u : Project -> Project) (nowIso : string) (getItemOk : bool) :
  timers (env w) = [] ->
  (clock (env w) <= t)%Z ->
  (t + 400 <= T)%Z ->
  let w1 := mutateAt host t u w in
  let w2 := advanceTo host T w1 in
  let p' := u (project (ui w)) in
  let back := reload nowIso getItemOk in
  (setItemOk host = true -> getItemOk = true -> frames p' <> [] ->
   project (ui (back w2)) = p' /\ status (ui (back w2)) = StatusRestored) /\
  (setItemOk host = true -> getItemOk = true -> frames p' = [] ->
   project (ui (back w2)) = createDefaultProject nowIso) /\
  (getItemOk = false ->
   project (ui (back w2)) = createDefaultProject nowIso) /\
  (setItemOk host = false ->
   project (ui (back w2)) = project (ui (back w))) /\
  project (ui (back w1)) = project (ui (back w)) /\
  timers (env (back w2)) = [] /\
  fileHandle (env (back w2)) = false.
Proof.
  intros Hidle Ht HT.
  destruct (edit_then_wait_store host w t T u Hidle Ht HT)
    as [Hb1 [_ [Hb2 _]]].
  cbv zeta in *. unfold reload. cbv zeta. rewrite !run_restoreOnMount.
  unfold loadFromLocalStorage. cbn [env localStorageBackup]. rewrite Hb1, Hb2.
  assert (Hrest : forall (o : option Project) (s0 : AppState) (e0 : Env),
             timers e0 = [] -> fileHandle e0 = false ->
             let r := match o with
                      | Some backup =>
                          if (0 <? Z.of_nat (List.length (frames backup)))%Z
                          then mkWorld (mkAppState backup (tool s0) (selection s0)
                                          (hoveredId s0) (isDragging s0)
                                          (dragStart s0) (dragCurrent s0)
                                          StatusRestored) e0
                          else mkWorld s0 e0
                      | None => mkWorld s0 e0
                      end in
             timers (env r) = [] /\ fileHandle (env r) = false).
  { intros [b |] s0 e0 H1 H2; cbv zeta; [| split; assumption].
    destruct (0 <? Z.of_nat (List.length (frames b)))%Z; split; assumption. }
  split; [| split; [| split; [| split; [| split]]]].
  - intros Hs Hg Hf. rewrite Hs, Hg.
    destruct (frames (u (project (ui w)))) as [| f fs] eqn:Hfr;
      [contradiction |].
    split; reflexivity.
  - intros Hs Hg Hf. rewrite Hs, Hg, Hf. reflexivity.
  - intros Hg. rewrite Hg. reflexivity.
  - intros Hs. rewrite Hs.
    destruct getItemOk; [| reflexivity].
    destruct (localStorageBackup (env w)) as [b |]; [| reflexivity].
    destruct (0 <? Z.of_nat (List.length (frames b)))%Z; reflexivity.
  - destruct getItemOk; [| reflexivity].
    destruct (localStorageBackup (env w)) as [b |]; [| reflexivity].
    destruct (0 <? Z.of_nat (List.length (frames b)))%Z; reflexivity.
  - apply Hrest; reflexivity.
Qed.

Lemma reload_restores_last_save_witness :
  let host := mkSaveHost true true "12:00:00" in
  let w := worldOf (oneFrameProject [] 1 0 0) TOOL_SELECT in
  let u := fun p => withViewport p (mkViewport 2 0 0) in
  project (ui (reload "later" true (advanceTo host 400 (mutateAt host 0 u w))))
  = oneFrameProject [] 2 0 0.
Proof.
  cbv zeta.
  destruct (reload_restores_last_save (mkSaveHost true true "12:00:00")
              (worldOf (oneFrameProject [] 1 0 0) TOOL_SELECT) 0 400
              (fun p => withViewport p (mkViewport 2 0 0)) "later" true)
    as [H _]; [reflexivity | vm_compute; discriminate | lia |].
  cbv zeta in H. apply H; [reflexivity | reflexivity | discriminate].
Defined.

(** ** Before any image is there *)

(** X22.  While the project has no current frame (as when the component has just
    mounted with nothing to restore) the canvas and the keyboard do
    nothing: a press, a move or a release of the mouse, the wheel and every
    key leave the whole state as it is.  In particular a release does not
    end a drag, and Ctrl+S neither schedules a save nor downloads a
    backup. *)
Theorem nothing_happens_without_a_frame (w : World) (x y deltaY : R)
    (newId : string) (e : KeyEvent) :
  currentFrame (project (ui w)) = None ->
  runHandler (handleCanvasMouseDown x y) w = w /\
  runHandler (handleCanvasMouseMove x y) w = w /\
  runHandler (handleCanvasMouseUp newId x y) w = w /\
  runHandler (handleWheel deltaY) w = w /\
  runHandler (handleKeyDown e) w = w.
Proof.
  intros Hf.
  repeat split;
    unfold runHandler, handleCanvasMouseDown, handleCanvasMouseMove,
      handleCanvasMouseUp, handleWheel, handleKeyDown, bind, closure;
    rewrite Hf; reflexivity.
Qed.

Lemma nothing_happens_without_a_frame_witness :
  runHandler (handleKeyDown (mkKeyEvent "s" false true false)) (initialWorld "")
  = initialWorld "".
Proof.
  destruct (nothing_happens_without_a_frame (initialWorld "") 0 0 0 ""
              (mkKeyEvent "s" false true false) eq_refl)
    as [_ [_ [_ [_ H]]]].
  exact H.
Defined.

(** ** File names *)

Lemma lowerAscii_dot (c : ascii) :
  Ascii.eqb (lowerAscii c) "." = Ascii.eqb c ".".
Proof. destruct c as [[] [] [] [] [] [] [] []]; reflexivity. Qed.

Lemma toLowerCase_app (a b : string) :
  toLowerCase (a ++ b) = (toLowerCase a ++ toLowerCase b)%string.
Proof.
  induction a as [| c a IH]; [reflexivity |].
  cbn [String.append toLowerCase]. rewrite IH. reflexivity.
Qed.

Lemma noDot_toLowerCase (s : string) : noDot (toLowerCase s) = noDot s.
Proof.
  induction s as [| c s IH]; [reflexivity |].
  cbn [toLowerCase noDot]. rewrite lowerAscii_dot, IH. reflexivity.
Qed.

Lemma append_assoc (a b c : string) :
  ((a ++ b) ++ c = a ++ (b ++ c))%string.
Proof.
  induction a as [| x a IH]; [reflexivity |].
  cbn [String.append]. rewrite IH. reflexivity.
Qed.

Lemma lastSegment_noDot (s acc : string) :
  noDot s = true -> lastSegment s acc = (acc ++ s)%string.
Proof.
  revert acc. induction s as [| c s IH]; intros acc H.
  - cbn [lastSegment]. induction acc as [| x acc IHacc]; [reflexivity |].
    cbn [String.append]. rewrite <- IHacc. reflexivity.
  - cbn [noDot] in H. apply andb_prop in H. destruct H as [Hc Hs].
    cbn [lastSegment]. destruct (Ascii.eqb c "."); [discriminate Hc |].
    rewrite (IH _ Hs), append_assoc. reflexivity.
Qed.

Lemma lastSegment_after_dot (a b acc : string) :
  noDot b = true ->
  lastSegment (a ++ String "." b) acc = b.
Proof.
  intros Hb. revert acc. induction a as [| c a IH]; intros acc.
  - cbn [String.append lastSegment]. rewrite Ascii.eqb_refl.
    apply (lastSegment_noDot b "" Hb).
  - cbn [String.append lastSegment].
    destruct (Ascii.eqb c "."); apply IH.
Qed.

(** X23.  Whether a file is taken for an image depends only on the text after
    its last dot, compared without regard to case: [base.ext] is accepted
    exactly when [ext], in lower case, is one of [png], [jpg], [jpeg],
    [webp], [bmp], whatever [base] is and however many dots it has.  A name
    without any dot is treated as if it were its own extension, so a file
    called [png] is accepted. *)
Theorem extension_is_text_after_last_dot (base ext : string) :
  noDot ext = true ->
  hasImageExt (base ++ "." ++ ext)
  = existsb (String.eqb (toLowerCase ext)) imageExts /\
  hasImageExt ext = existsb (String.eqb (toLowerCase ext)) imageExts.
Proof.
  intros Hext. unfold hasImageExt. cbv zeta.
  rewrite <- noDot_toLowerCase in Hext.
  split.
  - rewrite toLowerCase_app.
    change (toLowerCase ("." ++ ext)) with (String "."%char (toLowerCase ext)).
    rewrite (lastSegment_after_dot _ _ _ Hext). reflexivity.
  - rewrite (lastSegment_noDot _ "" Hext). reflexivity.
Qed.

Lemma extension_is_text_after_last_dot_witness :
  hasImageExt "scan.v2.PNG" = true /\ hasImageExt "png" = true.
Proof.
  destruct (extension_is_text_after_last_dot "scan.v2" "PNG" eq_refl) as [H1 _].
  destruct (extension_is_text_after_last_dot "" "png" eq_refl) as [_ H2].
  split; [exact H1 | exact H2].
Defined.

(** ** Resize handles *)

Lemma hypot_near (a b r : R) :
  a = 0 -> b = 0 -> 0 < r -> Rltb (hypot a b) r = true.
Proof.
  intros -> -> Hr. apply Rltb_true. apply hypot_lt; [exact Hr | nra].
Qed.

Lemma hypot_far_x (a b r : R) :
  0 < r -> r <= Rabs a -> Rltb (hypot a b) r = false.
Proof.
  intros Hr Ha. apply Rltb_false. apply hypot_ge; [exact Hr |].
  assert (H : r * r <= a * a).
  { unfold Rabs in Ha. destruct (Rcase_abs a); nra. }
  nra.
Qed.

Lemma hypot_far_y (a b r : R) :
  0 < r -> r <= Rabs b -> Rltb (hypot a b) r = false.
Proof.
  intros Hr Hb. apply Rltb_false. apply hypot_ge; [exact Hr |].
  assert (H : r * r <= b * b).
  { unfold Rabs in Hb. destruct (Rcase_abs b); nra. }
  nra.
Qed.

Lemma hypot_within (a b c d r : R) :
  0 < r -> a * a <= c * c -> b * b <= d * d -> hypot c d < r ->
  Rltb (hypot a b) r = true.
Proof.
  intros Hr Ha Hb Hcd. apply Rltb_true.
  apply hypot_lt in Hcd; [| exact Hr]. apply hypot_lt; [exact Hr | lra].
Qed.

(** Settles the comparisons of [firstHandle] one after the other. *)
Ltac absolute :=
  unfold Rabs in *;
  repeat match goal with
         | H : context [Rcase_abs ?a] |- _ => destruct (Rcase_abs a)
         | |- context [Rcase_abs ?a] => destruct (Rcase_abs a)
         end;
  lra.

Ltac handle_step Hr :=
  cbn [firstHandle]; cbv zeta;
  first [ rewrite hypot_near by (first [exact Hr | lra])
        | rewrite hypot_far_x by (first [exact Hr | absolute])
        | rewrite hypot_far_y by (first [exact Hr | absolute]) ].

(** X24.  Every handle of a box can be grabbed where it is drawn, provided the
    box is large enough on the screen: when the two corners
    [imageToScreen(x, y)] and [imageToScreen(x + w, y + h)] are at least
    twice the grab radius [1.5 * 8 / zoom] apart along both screen axes,
    [getHandleAtPoint] at the position of each of the eight handles returns
    that handle. *)
Theorem every_handle_can_be_grabbed (p : Project) (f : Frame)
    (ann : Annotation) (isGlobal : bool) (w h : R) :
  ann_type ann = ANNOTATION_BBOX w h ->
  0 < zoom (viewport p) ->
  let trans := spaceTransformer p f isGlobal in
  let s1 := imageToScreen trans (ann_x ann) (ann_y ann) in
  let s2 := imageToScreen trans (ann_x ann + w) (ann_y ann + h) in
  let r := 8 / zoom (viewport p) * 1.5 in
  2 * r <= Rabs (px s2 - px s1) ->
  2 * r <= Rabs (py s2 - py s1) ->
  let grab x y := getHandleAtPoint p f x y ann isGlobal in
  let mx := (px s1 + px s2) / 2 in
  let my := (py s1 + py s2) / 2 in
  grab (px s1) (py s1) = Some H_nw /\
  grab mx (py s1) = Some H_n /\
  grab (px s2) (py s1) = Some H_ne /\
  grab (px s1) my = Some H_w /\
  grab (px s2) my = Some H_e /\
  grab (px s1) (py s2) = Some H_sw /\
  grab mx (py s2) = Some H_s /\
  grab (px s2) (py s2) = Some H_se.
Proof.
  intros Hann Hz. cbv zeta. unfold getHandleAtPoint. rewrite Hann. cbv zeta.
  set (t := spaceTransformer p f isGlobal).
  set (sx1 := px (imageToScreen t (ann_x ann) (ann_y ann))).
  set (sy1 := py (imageToScreen t (ann_x ann) (ann_y ann))).
  set (sx2 := px (imageToScreen t (ann_x ann + w) (ann_y ann + h))).
  set (sy2 := py (imageToScreen t (ann_x ann + w) (ann_y ann + h))).
  set (hs := 8 / zoom (viewport p)).
  intros Hx Hy.
  assert (Hr : 0 < hs * 1.5).
  { apply Rmult_lt_0_compat; [| lra].
    apply Rdiv_lt_0_compat; [lra | exact Hz]. }
  clearbody sx1 sy1 sx2 sy2 hs. clear t.
  repeat split; repeat handle_step Hr; reflexivity.
Qed.

Lemma every_handle_can_be_grabbed_witness :
  let p := oneFrameProject [boxA] 2 0 0 in
  let f := mkFrame "a.png" "" 100 100 0 [boxA] in
  let s2 := imageToScreen (spaceTransformer p f true) (0 + 20) (0 + 20) in
  getHandleAtPoint p f (px s2) (py s2) boxA true = Some H_se.
Proof.
  cbv zeta.
  destruct (every_handle_can_be_grabbed (oneFrameProject [boxA] 2 0 0)
              (mkFrame "a.png" "" 100 100 0 [boxA]) boxA true 20 20 eq_refl)
    as [_ [_ [_ [_ [_ [_ [_ H]]]]]]].
  - cbn [oneFrameProject viewport zoom]. lra.
  - reval. unfold Rabs. destruct (Rcase_abs _); lra.
  - reval. unfold Rabs. destruct (Rcase_abs _); lra.
  - exact H.
Defined.

Lemma hypot_sqr (a b : R) : hypot a b * hypot a b = a * a + b * b.
Proof. unfold hypot. apply sqrt_sqrt. nra. Qed.

Lemma hypot_nonneg (a b : R) : 0 <= hypot a b.
Proof. unfold hypot. apply sqrt_pos. Qed.

(** X25.  A small box offers only its [nw] handle.  When the diagonal of the box
    on the screen, [zoom * hypot(w, h)], is shorter than the grab radius
    [1.5 * 8 / zoom], [getHandleAtPoint] answers [nw] at the position of
    every one of the eight handles: the [nw] handle comes first in the list
    and is within reach of them all.  A box of the minimum size 5 x 5 at
    zoom 1 is such a box. *)
Theorem small_boxes_offer_only_nw (p : Project) (f : Frame)
    (ann : Annotation) (isGlobal : bool) (w h : R) :
  ann_type ann = ANNOTATION_BBOX w h ->
  0 < zoom (viewport p) ->
  zoom (viewport p) * hypot w h < 8 / zoom (viewport p) * 1.5 ->
  let trans := spaceTransformer p f isGlobal in
  let s1 := imageToScreen trans (ann_x ann) (ann_y ann) in
  let s2 := imageToScreen trans (ann_x ann + w) (ann_y ann + h) in
  let grab x y := getHandleAtPoint p f x y ann isGlobal in
  let mx := (px s1 + px s2) / 2 in
  let my := (py s1 + py s2) / 2 in
  grab (px s1) (py s1) = Some H_nw /\
  grab mx (py s1) = Some H_nw /\
  grab (px s2) (py s1) = Some H_nw /\
  grab (px s1) my = Some H_nw /\
  grab (px s2) my = Some H_nw /\
  grab (px s1) (py s2) = Some H_nw /\
  grab mx (py s2) = Some H_nw /\
  grab (px s2) (py s2) = Some H_nw.
Proof.
  intros Hann Hz Hsmall. cbv zeta. unfold getHandleAtPoint. rewrite Hann.
  cbv zeta.
  destruct (imageToScreen_difference (spaceTransformer p f isGlobal)
              (ann_x ann + w) (ann_y ann + h) (ann_x ann) (ann_y ann))
    as [c [s [Hcs [Hx Hy]]]].
  replace (ann_x ann + w - ann_x ann) with w in Hx, Hy by ring.
  replace (ann_y ann + h - ann_y ann) with h in Hx, Hy by ring.
  change (ct_zoom (spaceTransformer p f isGlobal)) with (zoom (viewport p))
    in Hx, Hy.
  set (t := spaceTransformer p f isGlobal) in *.
  set (sx1 := px (imageToScreen t (ann_x ann) (ann_y ann))) in *.
  set (sy1 := py (imageToScreen t (ann_x ann) (ann_y ann))) in *.
  set (sx2 := px (imageToScreen t (ann_x ann + w) (ann_y ann + h))) in *.
  set (sy2 := py (imageToScreen t (ann_x ann + w) (ann_y ann + h))) in *.
  set (hs := 8 / zoom (viewport p)) in *.
  set (z := zoom (viewport p)) in *.
  assert (Hr : 0 < hs * 1.5).
  { apply Rmult_lt_0_compat; [| lra].
    apply Rdiv_lt_0_compat; [lra | exact Hz]. }
  assert (Hd : hypot (sx2 - sx1) (sy2 - sy1) < hs * 1.5).
  { apply hypot_lt; [exact Hr |]. rewrite Hx, Hy.
    replace (z * (w * c - h * s) * (z * (w * c - h * s))
             + z * (w * s + h * c) * (z * (w * s + h * c)))
      with (z * z * ((w * w + h * h) * (c * c + s * s))) by ring.
    rewrite Hcs, Rmult_1_r, <- hypot_sqr.
    pose proof (hypot_nonneg w h) as Hn.
    replace (z * z * (hypot w h * hypot w h))
      with (z * hypot w h * (z * hypot w h)) by ring.
    apply Rmult_le_0_lt_compat; try assumption;
      apply Rmult_le_pos; lra. }
  clearbody sx1 sy1 sx2 sy2 hs. clear t Hx Hy.
  pose proof (Rle_0_sqr (sx2 - sx1)) as Hsx. unfold Rsqr in Hsx.
  pose proof (Rle_0_sqr (sy2 - sy1)) as Hsy. unfold Rsqr in Hsy.
  repeat split; cbn [firstHandle]; cbv zeta;
    rewrite (hypot_within _ _ (sx2 - sx1) (sy2 - sy1) _ Hr) by (exact Hd || nra);
    reflexivity.
Qed.

Lemma small_boxes_offer_only_nw_witness :
  let p := oneFrameProject [] 1 0 0 in
  let f := mkFrame "a.png" "" 100 100 0 [] in
  let m := mkAnnotation "m" (ANNOTATION_BBOX 5 5) LABEL_BUOY 0 0 in
  let s2 := imageToScreen (spaceTransformer p f true) (0 + 5) (0 + 5) in
  getHandleAtPoint p f (px s2) (py s2) m true = Some H_nw.
Proof.
  cbv zeta.
  destruct (small_boxes_offer_only_nw (oneFrameProject [] 1 0 0)
              (mkFrame "a.png" "" 100 100 0 [])
              (mkAnnotation "m" (ANNOTATION_BBOX 5 5) LABEL_BUOY 0 0)
              true 5 5 eq_refl)
    as [_ [_ [_ [_ [_ [_ [_ H]]]]]]].
  - cbn [oneFrameProject viewport zoom]. lra.
  - cbn [oneFrameProject viewport zoom].
    assert (H : hypot 5 5 < 12) by (apply hypot_lt; lra).
    lra.
  - exact H.
Defined.

(** ** Dragging an annotation *)

(** Moving the pointer while an annotation is dragged by its body. *)
Lemma run_mouseMove_select (w : World) (f : Frame) (ds : DragStart)
    (sel : Hit) (x y : R) :
  currentFrame (project (ui w)) = Some f ->
  tool (ui w) = TOOL_SELECT ->
  isDragging (ui w) = true ->
  dragStart (ui w) = Some ds ->
  ds_handle ds = None ->
  selection (ui w) = Some sel ->
  let z := zoom (viewport (project (ui w))) in
  let w' := runHandler (handleCanvasMouseMove x y) w in
  project (ui w')
  = project (ui (runHandler
                   (moveAnnotation (hit_id sel) ((x - ds_x ds) / z)
                                   ((y - ds_y ds) / z)
                                   (isGlobalSpace (hit_type sel))) w)) /\
  dragStart (ui w') = Some (mkDragStart x y None None).
Proof.
  intros Hf Ht Hd Hs Hh Hsel. cbv zeta.
  destruct w as [[p tl sl hov drg start cur st] e].
  destruct ds as [x0 y0 hd ht].
  cbn [ui project tool isDragging dragStart selection ds_handle] in *.
  subst tl drg start hd sl.
  unfold runHandler, handleCanvasMouseMove, bind, closure.
  cbn [ui project tool isDragging dragStart selection]. rewrite Hf.
  cbn [ds_handle ds_hit ds_x ds_y].
  unfold moveAnnotation, bind, closure. cbn [project]. cbv zeta.
  destruct (findIndex (hasId (hit_id sel))
              (annotationsOf p (isGlobalSpace (hit_type sel)))) as [idx |];
    [| split; reflexivity].
  unfold storeAnnotations, bind, closure.
  destruct (isGlobalSpace (hit_type sel)); split; reflexivity.
Qed.



(** ** Ctrl+S *)

Lemma run_ctrl_s (w : World) (f : Frame) (shift ctrl meta : bool) :
  currentFrame (project (ui w)) = Some f ->
  (ctrl || meta) = true ->
  runHandler (handleKeyDown (mkKeyEvent "s" shift ctrl meta)) w
  = if fileHandle (env w)
    then mkWorld (mkAppState (project (ui w)) (tool (ui w)) (selection (ui w))
                             (hoveredId (ui w)) (isDragging (ui w))
                             (dragStart (ui w)) (dragCurrent (ui w))
                             StatusSaving)
                 (scheduleSave (project (ui w)) (env w))
    else mkWorld (mkAppState (project (ui w)) (tool (ui w)) (selection (ui w))
                             (hoveredId (ui w)) (isDragging (ui w))
                             (dragStart (ui w)) (dragCurrent (ui w))
                             StatusBackupDownloaded)
                 (env w).
Proof.
  intros Hf Hc. key_eval Hf. rewrite Hc.
  cbn [andb ret]. unfold getEnv, handleBackupDownload.
  destruct (fileHandle (env w)) eqn:Hh; reflexivity.
Qed.

(** X27.  Ctrl+S (or Cmd+S) writes nothing at once.  With a file handle it only
    restarts the debounce: the pending timer is replaced by one due 400 ms
    later that will save the project on screen, the status reads saving,
    and the [localStorage] backup and the file are still as they were.
    Without a file handle it schedules nothing at all and only reports the
    backup download.  The project is not changed in either case. *)
Theorem ctrl_s_only_schedules (w : World) (f : Frame) (shift ctrl meta : bool) :
  currentFrame (project (ui w)) = Some f ->
  (ctrl || meta) = true ->
  onePendingTimer (env w) ->
  let w' := runHandler (handleKeyDown (mkKeyEvent "s" shift ctrl meta)) w in
  project (ui w') = project (ui w) /\
  localStorageBackup (env w') = localStorageBackup (env w) /\
  liveFile (env w') = liveFile (env w) /\
  saveLog (env w') = saveLog (env w) /\
  (fileHandle (env w) = true ->
   status (ui w') = StatusSaving /\
   timers (env w')
   = [mkTimer (nextTimerId (env w)) (clock (env w) + 400)%Z (project (ui w))]) /\
  (fileHandle (env w) = false ->
   status (ui w') = StatusBackupDownloaded /\ env w' = env w).
Proof.
  intros Hf Hc Hone. cbv zeta. rewrite (run_ctrl_s w f shift ctrl meta Hf Hc).
  destruct (scheduleSave_store (project (ui w)) (env w)) as [_ [Hb Hl]].
  destruct (scheduleSave_rest (project (ui w)) (env w)) as [_ Hlog].
  destruct (scheduleSave_timers (project (ui w)) (env w) Hone) as [Htm _].
  destruct (fileHandle (env w)); cbn [ui env project status].
  - repeat split; try assumption; discriminate.
  - repeat split; discriminate.
Qed.

Lemma ctrl_s_only_schedules_witness :
  let w := mkWorld (mkAppState (oneFrameProject [] 1 0 0) TOOL_SELECT None None
                               false None None StatusReady)
                   (mkEnv None [] 1 0 true None None []) in
  let w' := runHandler (handleKeyDown (mkKeyEvent "s" false true false)) w in
  status (ui w') = StatusSaving /\
  timers (env w') = [mkTimer 1 400 (oneFrameProject [] 1 0 0)].
Proof.
  cbv zeta.
  destruct (ctrl_s_only_schedules
              (mkWorld (mkAppState (oneFrameProject [] 1 0 0) TOOL_SELECT None
                                   None false None None StatusReady)
                       (mkEnv None [] 1 0 true None None []))
              (mkFrame "a.png" "" 100 100 0 []) false true false
              eq_refl eq_refl (or_introl eq_refl))
    as [_ [_ [_ [_ [H _]]]]].
  cbv zeta in H. apply H. reflexivity.
Defined.
